(** * patreon-posts: a shallow embedding of the Go sources

    The development follows the package structure of the repository:
    - [regexp] and [strings]: the fragments of the Go standard library the
      program calls, at the level of bytes;
    - [api]: [internal/api/client.go] (link extraction, markup stripping,
      page assembly);
    - [db]: [internal/db/database.go] (the posts table);
    - [cli]: the batch extraction workflow;
    - [ui]: [internal/ui/app.go] (the bubbletea model and its [Update]).

    Go strings are byte sequences and are modelled by [string] (a list of
    8-bit [ascii]); Go [int] values are modelled by [Z]. *)

From Stdlib Require Import ZArith Ascii String List Bool Lia.
From stdpp Require Import gmap strings list fin_maps.

Open Scope string_scope.
Open Scope list_scope.
Open Scope Z_scope.

(** ** Bytes *)

Abbreviation bytes := (list ascii).

Definition byte (n : nat) : ascii := ascii_of_nat n.

Definition between (lo hi c : ascii) : bool :=
  (nat_of_ascii lo <=? nat_of_ascii c)%nat && (nat_of_ascii c <=? nat_of_ascii hi)%nat.

Definition isLower (c : ascii) : bool := between "a" "z" c.
Definition isUpper (c : ascii) : bool := between "A" "Z" c.

Definition toLower (c : ascii) : ascii :=
  if isUpper c then ascii_of_nat (nat_of_ascii c + 32) else c.

Definition toUpper (c : ascii) : ascii :=
  if isLower c then ascii_of_nat (nat_of_ascii c - 32) else c.

Fixpoint isPrefix (p s : bytes) : option bytes :=
  match p, s with
  | [], _ => Some s
  | a :: p', b :: s' => if Ascii.eqb a b then isPrefix p' s' else None
  | _ :: _, [] => None
  end.

(** ** Package regexp (the fragment the program uses)

    The expressions of the program are built from literals, literals under
    the [(?i)] flag, character classes, concatenation, the greedy [?], one
    capture group, a counted repetition, and the three repetitions of a
    character class [*], [*?] and [+].  Matching works on bytes: every
    literal and every class boundary of the program's expressions is ASCII,
    so a byte of a multi-byte rune is matched only by the negated and the
    universal classes, exactly as the rune it belongs to. *)

Module regexp.

Inductive Regexp : Type :=
| Lit (c : ascii)
| Fold (c : ascii)
| Class (p : ascii -> bool)
| Cat (r1 r2 : Regexp)
| Quest (r : Regexp)
| Capture (r : Regexp)
| Repeat (n : nat) (r : Regexp)
| Star (p : ascii -> bool)
| StarLazy (p : ascii -> bool)
| Plus (p : ascii -> bool).

(** A candidate match: the matched text, the captured groups in order and
    the rest of the input. *)
Definition candidate : Type := (bytes * list bytes * bytes)%type.

(** The simple case folding orbit of a letter: both ASCII cases, and for
    [s] and [k] the runes U+017F and U+212A in their UTF-8 encoding. *)
Definition foldOrbit (c : ascii) : list bytes :=
  let l := toLower c in
  let u := toUpper c in
  [l] :: (if Ascii.eqb l u then [] else [[u]]) ++
  (if Ascii.eqb l "s" then [[byte 197; byte 191]]
   else if Ascii.eqb l "k" then [[byte 226; byte 132; byte 170]]
   else []).

Fixpoint starGreedy (p : ascii -> bool) (s : bytes) : list (bytes * bytes) :=
  match s with
  | c :: t =>
      if p c then map (fun mr => (c :: fst mr, snd mr)) (starGreedy p t) ++ [([], s)]
      else [([], s)]
  | [] => [([], [])]
  end.

Fixpoint starLazy (p : ascii -> bool) (s : bytes) : list (bytes * bytes) :=
  match s with
  | c :: t =>
      if p c then ([], s) :: map (fun mr => (c :: fst mr, snd mr)) (starLazy p t)
      else [([], s)]
  | [] => [([], [])]
  end.

Definition seqCandidates (first : list candidate) (next : bytes -> list candidate)
  : list candidate :=
  flat_map (fun c1 : candidate =>
    let '(m1, g1, t1) := c1 in
    map (fun c2 : candidate => let '(m2, g2, t2) := c2 in (m1 ++ m2, g1 ++ g2, t2))
        (next t1)) first.

(** All the ways [r] matches a prefix of [s], in the order a backtracking
    matcher tries them; the head is the leftmost-first match at this
    position. *)
Fixpoint candidates (r : Regexp) (s : bytes) {struct r} : list candidate :=
  match r with
  | Lit c =>
      match s with
      | c' :: t => if Ascii.eqb c c' then [([c'], [], t)] else []
      | [] => []
      end
  | Fold c =>
      flat_map (fun enc => match isPrefix enc s with
                           | Some t => [(enc, [], t)]
                           | None => []
                           end) (foldOrbit c)
  | Class p =>
      match s with
      | c' :: t => if p c' then [([c'], [], t)] else []
      | [] => []
      end
  | Cat r1 r2 => seqCandidates (candidates r1 s) (candidates r2)
  | Quest r1 => candidates r1 s ++ [([], [], s)]
  | Capture r1 =>
      map (fun c : candidate => let '(m, g, t) := c in (m, m :: g, t)) (candidates r1 s)
  | Repeat n r1 =>
      (fix rep (k : nat) (s : bytes) : list candidate :=
         match k with
         | O => [([], [], s)]
         | S k' => seqCandidates (candidates r1 s) (rep k')
         end) n s
  | Star p => map (fun mr => (fst mr, [], snd mr)) (starGreedy p s)
  | StarLazy p => map (fun mr => (fst mr, [], snd mr)) (starLazy p s)
  | Plus p =>
      match s with
      | c' :: t =>
          if p c' then map (fun mr => (c' :: fst mr, [], snd mr)) (starGreedy p t) else []
      | [] => []
      end
  end.

(** The successive non-overlapping leftmost-first matches of [r] in [s];
    each match is the whole text followed by its groups.  [skip] counts the
    bytes of the previous match still to pass over.  The expressions of the
    program match at least one byte, so the rules for empty matches are not
    modelled. *)
Fixpoint findAll (r : Regexp) (s : bytes) (skip : nat) : list (list bytes) :=
  match s with
  | [] => []
  | _ :: t =>
      match skip with
      | S k => findAll r t k
      | O =>
          match candidates r s with
          | (m, g, _) :: _ => (m :: g) :: findAll r t (length m - 1)
          | [] => findAll r t 0
          end
      end
  end.

Fixpoint replaceAll (r : Regexp) (repl : bytes) (s : bytes) (skip : nat) : bytes :=
  match s with
  | [] => []
  | c :: t =>
      match skip with
      | S k => replaceAll r repl t k
      | O =>
          match candidates r s with
          | (m, _, _) :: _ => repl ++ replaceAll r repl t (length m - 1)
          | [] => c :: replaceAll r repl t 0
          end
      end
  end.

(** [re.FindAllStringSubmatch(s, -1)] *)
Definition FindAllStringSubmatch (r : Regexp) (s : string) : list (list string) :=
  map (map string_of_list_ascii) (findAll r (list_ascii_of_string s) 0).

(** [re.ReplaceAllString(s, repl)] for a replacement without [$]. *)
Definition ReplaceAllString (r : Regexp) (s repl : string) : string :=
  string_of_list_ascii
    (replaceAll r (list_ascii_of_string repl) (list_ascii_of_string s) 0).

(** Constructors for the concrete syntax. *)
Fixpoint lits (l : bytes) : Regexp :=
  match l with
  | [] => Repeat 0 (Lit "000")
  | [c] => Lit c
  | c :: t => Cat (Lit c) (lits t)
  end.

Fixpoint folds (l : bytes) : Regexp :=
  match l with
  | [] => Repeat 0 (Lit "000")
  | [c] => Fold c
  | c :: t => Cat (Fold c) (folds t)
  end.

Definition lit (s : string) : Regexp := lits (list_ascii_of_string s).
Definition foldlit (s : string) : Regexp := folds (list_ascii_of_string s).

End regexp.

(** ** Package strings *)

Module strings.

Fixpoint replaceAll (old new : bytes) (s : bytes) (skip : nat) : bytes :=
  match s with
  | [] => []
  | c :: t =>
      match skip with
      | S k => replaceAll old new t k
      | O =>
          match isPrefix old s with
          | Some _ => new ++ replaceAll old new t (length old - 1)
          | None => c :: replaceAll old new t 0
          end
      end
  end.

(** [strings.ReplaceAll(s, old, new)] for a non-empty [old]. *)
Definition ReplaceAll (s old new : string) : string :=
  string_of_list_ascii
    (replaceAll (list_ascii_of_string old) (list_ascii_of_string new)
                (list_ascii_of_string s) 0).

(** The runes with the White_Space property, in UTF-8: the six ASCII ones,
    U+0085, U+00A0, U+1680, U+2000 to U+200A, U+2028, U+2029, U+202F,
    U+205F and U+3000. *)
Definition asciiSpace (c : ascii) : bool :=
  let n := nat_of_ascii c in
  ((9 <=? n) && (n <=? 13))%nat || (n =? 32)%nat.

Definition unicodeSpaces : list bytes :=
  [ [byte 194; byte 133]; [byte 194; byte 160]; [byte 225; byte 154; byte 128] ] ++
  map (fun k => [byte 226; byte 128; byte (128 + k)]) (seq 0 11) ++
  [ [byte 226; byte 128; byte 168]; [byte 226; byte 128; byte 169];
    [byte 226; byte 128; byte 175]; [byte 226; byte 129; byte 159];
    [byte 227; byte 128; byte 128] ].

Fixpoint stripOneOf (encs : list bytes) (s : bytes) : option bytes :=
  match encs with
  | [] => None
  | enc :: rest =>
      match isPrefix enc s with
      | Some t => Some t
      | None => stripOneOf rest s
      end
  end.

(** The rest of [s] after one leading white space rune, if there is one. *)
Definition dropSpace (encs : list bytes) (s : bytes) : option bytes :=
  match s with
  | c :: t => if asciiSpace c then Some t else stripOneOf encs s
  | [] => None
  end.

Fixpoint trimLeft (encs : list bytes) (fuel : nat) (s : bytes) : bytes :=
  match fuel with
  | O => s
  | S k => match dropSpace encs s with
           | Some t => trimLeft encs k t
           | None => s
           end
  end.

Definition TrimLeftSpace (s : bytes) : bytes := trimLeft unicodeSpaces (length s) s.

(** Trimming on the right reads the text backwards, where a white space
    rune shows as its reversed encoding. *)
Definition TrimRightSpace (s : bytes) : bytes :=
  rev (trimLeft (map (@rev ascii) unicodeSpaces) (length s) (rev s)).

(** [strings.TrimSpace(s)] *)
Definition TrimSpace (s : string) : string :=
  string_of_list_ascii (TrimRightSpace (TrimLeftSpace (list_ascii_of_string s))).

End strings.

(** ** internal/models *)

Module models.

(** [time.Time]: nanoseconds since the zero time, January 1 of year 1,
    00:00:00 UTC; instants before it are negative. *)
Definition Time : Type := Z.
Definition IsZero (t : Time) : bool := t =? 0.
Definition Before (t u : Time) : bool := t <? u.

Record Post : Type := {
  ID : string;
  Type_ : string;
  PostType : string;
  Title : string;
  PatreonURL : string;
  CurrentUserCanView : bool;
  PublishedAt : Time;
  DetailsCached : bool
}.

Record PostDetails : Type := {
  dID : string;
  dTitle : string;
  dContent : string;
  dDescription : string;
  dPostType : string;
  dPublishedAt : Time;
  dYouTubeLinks : list string
}.

Record PostData : Type := {
  pdID : string;
  pdType : string;
  aPostType : string;
  aTitle : string;
  aPatreonURL : string;
  aCurrentUserCanView : bool;
  aPublishedAt : Time
}.

Definition FromPostData (data : PostData) : Post :=
  {| ID := pdID data;
     Type_ := pdType data;
     PostType := aPostType data;
     Title := aTitle data;
     PatreonURL := aPatreonURL data;
     CurrentUserCanView := aCurrentUserCanView data;
     PublishedAt := aPublishedAt data;
     DetailsCached := false |}.

(** The declarations of [PatreonResponse.Links] and of [PostsPage] are not
    among the sources; the two records below have the fields that
    [FetchPosts] reads and writes. *)
Record PatreonResponse : Type := {
  Data : list PostData;
  LinksNext : string
}.

Record PostsPage : Type := {
  Posts : list Post;
  NextCursor : string;
  HasMore : bool;
  Total : Z
}.

Record PostDetailResponse : Type := {
  rID : string;
  rTitle : string;
  rContent : string;
  rPostType : string;
  rPublishedAt : Time;
  rEmbedURL : string
}.

End models.

(** ** Package net/url (the calls of [extractCursorFromURL]) *)

Module url.

Definition hexVal (c : ascii) : option nat :=
  let n := nat_of_ascii c in
  if between "0" "9" c then Some (n - 48)%nat
  else if between "a" "f" c then Some (n - 87)%nat
  else if between "A" "F" c then Some (n - 55)%nat
  else None.

(** [url.QueryUnescape]: [%XX] decoding and [+] for a space; [None] stands
    for the escape error. *)
Fixpoint QueryUnescape (s : bytes) : option bytes :=
  match s with
  | [] => Some []
  | c :: t =>
      if Ascii.eqb c "%" then
        match t with
        | h :: (l :: t') as t1 =>
            match hexVal h, hexVal l with
            | Some a, Some b =>
                match QueryUnescape t' with
                | Some r => Some (byte (16 * a + b) :: r)
                | None => None
                end
            | _, _ => None
            end
        | _ => None
        end
      else
        match QueryUnescape t with
        | Some r => Some ((if Ascii.eqb c "+" then " "%char else c) :: r)
        | None => None
        end
  end.

(** [strings.Cut(s, sep)] for a one-byte separator. *)
Fixpoint cut (sep : ascii) (s : bytes) : bytes * option bytes :=
  match s with
  | [] => ([], None)
  | c :: t =>
      if Ascii.eqb c sep then ([], Some t)
      else let '(a, b) := cut sep t in (c :: a, b)
  end.

Fixpoint split (sep : ascii) (s : bytes) : list bytes :=
  match s with
  | [] => [[]]
  | c :: t =>
      if Ascii.eqb c sep then [] :: split sep t
      else match split sep t with
           | w :: ws => (c :: w) :: ws
           | [] => [[c]]
           end
  end.

(** [url.ParseQuery], whose error [Query] drops: a pair with a semicolon or
    with a malformed escape is skipped, as is an empty pair. *)
Definition parseQuery (q : bytes) : list (bytes * bytes) :=
  omap (fun pair : bytes =>
          if existsb (Ascii.eqb ";") pair then None
          else match pair with
               | [] => None
               | _ =>
                   let '(k, v) := cut "=" pair in
                   match QueryUnescape k, QueryUnescape (default [] v) with
                   | Some k', Some v' => Some (k', v')
                   | _, _ => None
                   end
               end)
       (split "&" q).

(** [Values.Get]: the first value of the key, or the empty string. *)
Definition Get (vs : list (bytes * bytes)) (key : string) : string :=
  match list_find (fun kv : bytes * bytes =>
                     bool_decide (fst kv = list_ascii_of_string key)) vs with
  | Some (_, (_, v)) => string_of_list_ascii v
  | None => ""
  end.

Record URL : Type := { RawQuery : string }.

Definition Query (u : URL) : list (bytes * bytes) :=
  parseQuery (list_ascii_of_string (RawQuery u)).

(** [url.Parse] is a parameter of the development: the theorems hold for
    every behaviour of it. *)
Class Parser : Type := Parse : string -> option URL.

(** A reference parser for the examples.  It cuts the fragment and the
    query as [url.Parse] does and rejects a URL with an ASCII control
    byte; the errors of the scheme, authority and path syntax are left
    out. *)
Definition isCTL (c : ascii) : bool :=
  let n := nat_of_ascii c in ((n <? 32) || (n =? 127))%nat.

Definition referenceParse (rawURL : string) : option URL :=
  let raw := list_ascii_of_string rawURL in
  if existsb isCTL raw then None
  else
    let u := fst (cut "#" raw) in
    let '(_, q) := cut "?" u in
    Some {| RawQuery := string_of_list_ascii (default [] q) |}.

End url.

(** ** internal/api/client.go *)

Module api.
Import regexp models.

Definition idChar (c : ascii) : bool :=
  between "a" "z" c || between "A" "Z" c || between "0" "9" c
  || Ascii.eqb c "_" || Ascii.eqb c "-".

Definition notGt (c : ascii) : bool := negb (Ascii.eqb c ">").
Definition anyChar (c : ascii) : bool := true.

(** [\s] is the class [\t\n\f\r ]. *)
Definition perlSpace (c : ascii) : bool :=
  let n := nat_of_ascii c in
  ((n =? 9) || (n =? 10) || (n =? 12) || (n =? 13) || (n =? 32))%nat.

Fixpoint cat (rs : list Regexp) : Regexp :=
  match rs with
  | [] => Repeat 0 (Lit "000")
  | [r] => r
  | r :: rs' => Cat r (cat rs')
  end.

Definition videoID : Regexp := Capture (Repeat 11 (Class idChar)).
Definition scheme : Regexp := Cat (lit "http") (Cat (Quest (Lit "s")) (lit "://")).
Definition www : Regexp := Quest (lit "www.").

Definition youtubePatterns : list Regexp :=
  [ cat [scheme; www; lit "youtube.com/watch?v="; videoID];
    cat [scheme; www; lit "youtube.com/embed/"; videoID];
    cat [scheme; lit "youtu.be/"; videoID];
    cat [scheme; www; lit "youtube.com/v/"; videoID];
    cat [scheme; www; lit "youtube.com/shorts/"; videoID] ].

(** One pass of the inner loop body of [ExtractYouTubeLinks]. *)
Definition recordMatch (st : gmap string bool * list string) (match_ : list string)
  : gmap string bool * list string :=
  let '(seen, links) := st in
  if (2 <=? length match_)%nat then
    let videoID := nth 1 match_ "" in
    let fullURL := "https://www.youtube.com/watch?v=" +:+ videoID in
    if negb (default false (seen !! videoID))
    then (<[videoID := true]> seen, links ++ [fullURL])
    else (seen, links)
  else (seen, links).

Definition ExtractYouTubeLinks (content : string) : list string :=
  snd (fold_left
         (fun st pattern =>
            fold_left recordMatch (FindAllStringSubmatch pattern content) st)
         youtubePatterns (∅, [])).

Definition scriptTagRe : Regexp :=
  cat [foldlit "<script"; Star notGt; Lit ">"; StarLazy anyChar; foldlit "</script>"].
Definition styleTagRe : Regexp :=
  cat [foldlit "<style"; Star notGt; Lit ">"; StarLazy anyChar; foldlit "</style>"].
Definition htmlTagRe : Regexp := cat [Lit "<"; Plus notGt; Lit ">"].
Definition whitespaceRe : Regexp := Plus perlSpace.

Definition quote : string := String "034" "".

Definition stripHTML (html : string) : string :=
  let html := ReplaceAllString scriptTagRe html "" in
  let html := ReplaceAllString styleTagRe html "" in
  let text := ReplaceAllString htmlTagRe html "" in
  let text := strings.ReplaceAll text "&nbsp;" " " in
  let text := strings.ReplaceAll text "&amp;" "&" in
  let text := strings.ReplaceAll text "&lt;" "<" in
  let text := strings.ReplaceAll text "&gt;" ">" in
  let text := strings.ReplaceAll text "&quot;" quote in
  let text := strings.ReplaceAll text "&#39;" "'" in
  let text := ReplaceAllString whitespaceRe text " " in
  let text := strings.TrimSpace text in
  text.

Section WithParser.
Context {parser : url.Parser}.

Definition extractCursorFromURL (nextURL : string) : string :=
  if String.eqb nextURL "" then ""
  else match url.Parse nextURL with
       | None => ""
       | Some parsed => url.Get (url.Query parsed) "page[cursor]"
       end.

(** The tail of [FetchPosts], from the decoded response body. *)
Definition pageOfResponse (patreonResp : PatreonResponse) : PostsPage :=
  let posts := map FromPostData (Data patreonResp) in
  let nextCursor := extractCursorFromURL (LinksNext patreonResp) in
  let hasMore := negb (String.eqb (LinksNext patreonResp) "") in
  {| Posts := posts; NextCursor := nextCursor; HasMore := hasMore; Total := 0 |}.

End WithParser.

(** What the HTTP exchange of a request comes to. *)
Inductive Exchange (A : Type) : Type :=
| DoFailed
| StatusNotOK (code : Z) (body : string)
| ReadFailed
| Malformed
| Decoded (a : A).
Arguments DoFailed {A}.
Arguments StatusNotOK {A}.
Arguments ReadFailed {A}.
Arguments Malformed {A}.
Arguments Decoded {A}.

Inductive error : Type :=
| ErrExecute
| ErrStatus (code : Z) (body : string)
| ErrRead
| ErrParse.

(** The query of [FetchPosts] as far as it depends on the arguments. *)
Record PostsRequest : Type := {
  reqCampaign : string;
  reqPageCursor : string;
  reqPageCount : Z
}.

Definition postsRequest (campaignID : string) (count : Z) (cursor : string)
  : PostsRequest :=
  {| reqCampaign := campaignID;
     reqPageCursor := if String.eqb cursor "" then "null" else cursor;
     reqPageCount := count |}.

Definition liftExchange {A B : Type} (f : A -> B) (x : Exchange A) : error + B :=
  match x with
  | DoFailed => inl ErrExecute
  | StatusNotOK code body => inl (ErrStatus code body)
  | ReadFailed => inl ErrRead
  | Malformed => inl ErrParse
  | Decoded a => inr (f a)
  end.

Definition detailsOfResponse (detailResp : PostDetailResponse) : PostDetails :=
  let allContent :=
    if String.eqb (rEmbedURL detailResp) "" then rContent detailResp
    else rContent detailResp +:+ " " +:+ rEmbedURL detailResp in
  {| dID := rID detailResp;
     dTitle := rTitle detailResp;
     dContent := rContent detailResp;
     dDescription := stripHTML (rContent detailResp);
     dPostType := rPostType detailResp;
     dPublishedAt := rPublishedAt detailResp;
     dYouTubeLinks := ExtractYouTubeLinks allContent |}.

End api.


(** ** Package encoding/json, on slices of strings

    The codec is a parameter.  [Unmarshal] gives the slice left in the
    target and whether the error is nil. *)

Class JSON : Type := {
  Marshal : list string -> string;
  Unmarshal : string -> list string * bool
}.

(** A reference codec for the examples: the encoding of [json.Marshal] for
    strings that need no escape (as the canonical watch URLs), with a nil
    slice encoded as [null]; the decoder reads back exactly this encoding
    and reports anything else as an error. *)

Module json.

Definition dquote : ascii := "034".

Definition quoted (s : string) : string :=
  String dquote (s +:+ String dquote "").

Definition referenceMarshal (l : list string) : string :=
  match l with
  | [] => "null"
  | _ => "[" +:+ String.concat "," (map quoted l) +:+ "]"
  end.

Inductive position : Type :=
| BeforeElement (first : bool)
| InString (acc : bytes)
| AfterElement.

Fixpoint scan (p : position) (elems : list string) (s : bytes) : option (list string) :=
  match s with
  | [] => None
  | c :: t =>
      match p with
      | BeforeElement first =>
          if Ascii.eqb c dquote then scan (InString []) elems t
          else if first && Ascii.eqb c "]"
          then match t with [] => Some elems | _ => None end
          else None
      | InString acc =>
          if Ascii.eqb c dquote
          then scan AfterElement (elems ++ [string_of_list_ascii (rev acc)]) t
          else if Ascii.eqb c "\" || (nat_of_ascii c <? 32)%nat then None
          else scan (InString (c :: acc)) elems t
      | AfterElement =>
          if Ascii.eqb c "," then scan (BeforeElement false) elems t
          else if Ascii.eqb c "]"
          then match t with [] => Some elems | _ => None end
          else None
      end
  end.

Definition referenceUnmarshal (s : string) : list string * bool :=
  if String.eqb s "null" then ([], true)
  else match list_ascii_of_string s with
       | c :: t =>
           if Ascii.eqb c "[" then
             match scan (BeforeElement true) [] t with
             | Some l => (l, true)
             | None => ([], false)
             end
           else ([], false)
       | [] => ([], false)
       end.

Definition reference : JSON :=
  {| Marshal := referenceMarshal; Unmarshal := referenceUnmarshal |}.

End json.

(** ** internal/db/database.go

    The posts and campaigns tables as finite maps from the primary key.
    A statement is taken to succeed; [now] is the value of
    [CURRENT_TIMESTAMP]. *)

Module db.
Import models.

Record CampaignRow : Type := {
  name : string;
  campaign_cached_at : Time
}.

(** A row of [posts] without its key.  The columns written through
    [NullString] and [NullTime] are nullable. *)
Record PostRow : Type := {
  campaign_id : string;
  type_ : string;
  post_type : string;
  title : string;
  patreon_url : string;
  current_user_can_view : bool;
  published_at : option Time;
  description : option string;
  youtube_links : option string;
  cached_at : Time;
  details_cached : bool
}.

Record Database : Type := {
  campaigns : gmap string CampaignRow;
  posts : gmap string PostRow
}.

Record CachedPost : Type := {
  ID : string;
  CampaignID : string;
  Type_ : string;
  PostType : string;
  Title : string;
  PatreonURL : string;
  CurrentUserCanView : bool;
  PublishedAt : Time;
  Description : string;
  YouTubeLinks : string;
  CachedAt : Time;
  DetailsCached : bool
}.

Definition empty : Database := {| campaigns := ∅; posts := ∅ |}.

Definition SaveCampaign (now : Time) (id name_ : string) (d : Database) : Database :=
  {| campaigns := <[id := {| name := name_; campaign_cached_at := now |}]> (campaigns d);
     posts := posts d |}.

(** [INSERT ... ON CONFLICT(id) DO UPDATE SET ...]: the conflict branch
    assigns the six listed columns and [cached_at]. *)
Definition SavePost (now : Time) (post : CachedPost) (d : Database) : Database :=
  let row :=
    match posts d !! ID post with
    | None =>
        {| campaign_id := CampaignID post;
           type_ := Type_ post;
           post_type := PostType post;
           title := Title post;
           patreon_url := PatreonURL post;
           current_user_can_view := CurrentUserCanView post;
           published_at := Some (PublishedAt post);
           description := None;
           youtube_links := None;
           cached_at := now;
           details_cached := false |}
    | Some old =>
        {| campaign_id := campaign_id old;
           type_ := Type_ post;
           post_type := PostType post;
           title := Title post;
           patreon_url := PatreonURL post;
           current_user_can_view := CurrentUserCanView post;
           published_at := Some (PublishedAt post);
           description := description old;
           youtube_links := youtube_links old;
           cached_at := now;
           details_cached := details_cached old |}
    end in
  {| campaigns := campaigns d; posts := <[ID post := row]> (posts d) |}.

Definition setDetails (desc links : option string) (flag : bool) (r : PostRow) : PostRow :=
  {| campaign_id := campaign_id r;
     type_ := type_ r;
     post_type := post_type r;
     title := title r;
     patreon_url := patreon_url r;
     current_user_can_view := current_user_can_view r;
     published_at := published_at r;
     description := desc;
     youtube_links := links;
     cached_at := cached_at r;
     details_cached := flag |}.

(** [UPDATE posts SET ... WHERE id = ?] *)
Definition SavePostDetails (postID description_ youtubeLinks : string) (d : Database)
  : Database :=
  {| campaigns := campaigns d;
     posts := alter (setDetails (Some description_) (Some youtubeLinks) true) postID (posts d) |}.

Definition ClearPostDetails (postID : string) (d : Database) : Database :=
  {| campaigns := campaigns d;
     posts := alter (setDetails None None false) postID (posts d) |}.

Definition scanRow (id : string) (r : PostRow) : CachedPost :=
  {| ID := id;
     CampaignID := campaign_id r;
     Type_ := type_ r;
     PostType := post_type r;
     Title := title r;
     PatreonURL := patreon_url r;
     CurrentUserCanView := current_user_can_view r;
     PublishedAt := default 0 (published_at r);
     Description := default "" (description r);
     YouTubeLinks := default "" (youtube_links r);
     CachedAt := cached_at r;
     DetailsCached := details_cached r |}.

(** [GetPost]: [None] is the nil post of [sql.ErrNoRows]. *)
Definition GetPost (postID : string) (d : Database) : option CachedPost :=
  scanRow postID <$> posts d !! postID.

Definition IsPostDetailsCached (postID : string) (d : Database) : bool :=
  match posts d !! postID with
  | Some r => details_cached r
  | None => false
  end.

Definition ClearCampaignCache (campaignID : string) (d : Database) : Database :=
  {| campaigns := delete campaignID (campaigns d);
     posts := filter (fun kv => campaign_id (snd kv) <> campaignID) (posts d) |}.

End db.

(** ** Package time: the layout [2006-01-02] *)

Module time.
Import models.

Definition digit (c : ascii) : option Z :=
  if between "0" "9" c then Some (Z.of_nat (nat_of_ascii c) - 48) else None.

Fixpoint number (acc : Z) (l : bytes) : option Z :=
  match l with
  | [] => Some acc
  | c :: t => match digit c with
              | Some v => number (10 * acc + v) t
              | None => None
              end
  end.

Definition isLeap (y : Z) : bool :=
  (y mod 4 =? 0) && (negb (y mod 100 =? 0) || (y mod 400 =? 0)).

Definition daysIn (y m : Z) : Z :=
  if m =? 2 then (if isLeap y then 29 else 28)
  else if (m =? 4) || (m =? 6) || (m =? 9) || (m =? 11) then 30 else 31.

Fixpoint daysBeforeMonth (y : Z) (m : nat) : Z :=
  match m with
  | O => 0
  | S k => daysBeforeMonth y k + daysIn y (Z.of_nat (S k))
  end.

(** Days from January 1 of year 1 to the first day of year [y]. *)
Definition daysBeforeYear (y : Z) : Z :=
  365 * (y - 1) + (y - 1) / 4 - (y - 1) / 100 + (y - 1) / 400.

Definition nsPerDay : Z := 86400 * 1000000000.

(** [time.Date(y, m, d, 0, 0, 0, 0, time.UTC)] *)
Definition Date (y m d : Z) : Time :=
  (daysBeforeYear y + daysBeforeMonth y (Z.to_nat (m - 1)) + (d - 1)) * nsPerDay.

(** [time.Parse("2006-01-02", value)] *)
Definition Parse (value : string) : option Time :=
  match list_ascii_of_string value with
  | [y1; y2; y3; y4; d1; m1; m2; d2; a1; a2] =>
      if Ascii.eqb d1 "-" && Ascii.eqb d2 "-" then
        match number 0 [y1; y2; y3; y4], number 0 [m1; m2], number 0 [a1; a2] with
        | Some y, Some m, Some d =>
            if (1 <=? m) && (m <=? 12) && (1 <=? d) && (d <=? daysIn y m)
            then Some (Date y m d) else None
        | _, _, _ => None
        end
      else None
  | _ => None
  end.

End time.

(** ** The environment of the two front ends

    The remote API, the clock, the system clipboard and the store make up
    the world the program runs in.  The remote answers a request as a
    function of everything done before, so its answers may change over
    time. *)

Module env.
Import models.

Inductive Event : Type :=
| EvFetchPosts (campaignID : string) (count : Z) (cursor : string)
| EvFetchPostDetails (postID : string)
| EvSleep (minMs maxMs : Z)
| EvClipboardWrite (text : string).

Record Remote : Type := {
  listPosts : list Event -> api.PostsRequest -> api.Exchange PatreonResponse;
  getPost : list Event -> string -> api.Exchange PostDetailResponse;
  clock : list Event -> Time;
  clipboardWriteAll : list Event -> string -> bool
}.

Record World : Type := {
  database : db.Database;
  log : list Event
}.

(** A computation that reads and writes the world. *)
Definition M (A : Type) : Type := World -> A * World.

Definition ret {A : Type} (a : A) : M A := fun w => (a, w).
Definition bind {A B : Type} (m : M A) (k : A -> M B) : M B :=
  fun w => let '(a, w') := m w in k a w'.

Definition emit (e : Event) : M unit :=
  fun w => (tt, {| database := database w; log := log w ++ [e] |}).
Definition history : M (list Event) := fun w => (log w, w).
Definition query {A : Type} (f : db.Database -> A) : M A :=
  fun w => (f (database w), w).
Definition exec (f : db.Database -> db.Database) : M unit :=
  fun w => (tt, {| database := f (database w); log := log w |}).

End env.

Declare Scope world_scope.
Delimit Scope world_scope with world.
Notation "x <- m ;; k" := (env.bind m (fun x => k))
  (at level 62, m at next level, right associativity) : world_scope.
Notation "m ;;; k" := (env.bind m (fun _ => k))
  (at level 62, right associativity) : world_scope.

Module client.
Import models env.
Open Scope world_scope.

Section WithRemote.
Context {parser : url.Parser} (remote : Remote).

(** [Client.FetchPosts] *)
Definition FetchPosts (campaignID : string) (count : Z) (cursor : string)
  : M (api.error + PostsPage) :=
  h <- history ;;
  let req := api.postsRequest campaignID count cursor in
  emit (EvFetchPosts campaignID count cursor) ;;;
  ret (api.liftExchange api.pageOfResponse (listPosts remote h req)).

(** [Client.FetchPostDetails] *)
Definition FetchPostDetails (postID : string) : M (api.error + PostDetails) :=
  h <- history ;;
  emit (EvFetchPostDetails postID) ;;;
  ret (api.liftExchange api.detailsOfResponse (getPost remote h postID)).

Definition now : M Time := h <- history ;; ret (clock remote h).

End WithRemote.
End client.

(** ** The batch extraction workflow (package cli) *)

Module cli.
Import models env.
Open Scope world_scope.

Record Campaign : Type := { ID : string; Name : string }.

Record Config : Type := {
  Cookies : string;
  Campaigns : list Campaign;
  PublishedAfter : string;
  RequestDelayMinMs : Z;
  RequestDelayMaxMs : Z
}.

Definition GetRequestDelayMinMs (c : Config) : Z :=
  if RequestDelayMinMs c <? 1000 then 1000 else RequestDelayMinMs c.

Definition GetRequestDelayMaxMs (c : Config) : Z :=
  if RequestDelayMaxMs c <=? 0 then 3000
  else
    let minMs := GetRequestDelayMinMs c in
    if RequestDelayMaxMs c <? minMs then minMs else RequestDelayMaxMs c.

(** [randomDelay]: the length of the sleep is left to the world. *)
Definition randomDelay (minMs maxMs : Z) : M unit := emit (EvSleep minMs maxMs).

Section WithRemote.
Context {parser : url.Parser} {json : JSON} (remote : Remote).

(** The links of a post whose details the store has: a link string that
    does not decode adds nothing. *)
Definition cachedLinks (c : db.CachedPost) (allLinks : list string) : list string :=
  if negb (String.eqb (db.YouTubeLinks c) "") then
    let '(links, ok) := Unmarshal (db.YouTubeLinks c) in
    if ok then allLinks ++ links else allLinks
  else allLinks.

(** The rest of the loop body for a post without cached details;
    [continue_] is the loop over the posts that follow. *)
Definition fetchDetails (post : Post) (minDelayMs maxDelayMs : Z)
    (allLinks : list string) (continue_ : list string -> M (bool * list string))
  : M (bool * list string) :=
  r <- client.FetchPostDetails remote (models.ID post) ;;
  match r with
  | inl _ =>
      randomDelay minDelayMs maxDelayMs ;;;
      continue_ allLinks
  | inr details =>
      let linksJSON := Marshal (dYouTubeLinks details) in
      exec (db.SavePostDetails (models.ID post) (dDescription details) linksJSON) ;;;
      let allLinks := allLinks ++ dYouTubeLinks details in
      randomDelay minDelayMs maxDelayMs ;;;
      continue_ allLinks
  end.

(** The body of [for _, post := range page.Posts].  The boolean tells that
    the function returned from inside the loop. *)
Fixpoint processPosts (posts : list Post) (filterDate : Time)
    (minDelayMs maxDelayMs : Z) (allLinks : list string) : M (bool * list string) :=
  match posts with
  | [] => ret (false, allLinks)
  | post :: rest =>
      let continue_ := processPosts rest filterDate minDelayMs maxDelayMs in
      if negb (IsZero filterDate) && Before (PublishedAt post) filterDate
      then ret (true, allLinks)
      else
        cached <- query (db.GetPost (models.ID post)) ;;
        match cached with
        | Some c =>
            if db.DetailsCached c
            then continue_ (cachedLinks c allLinks)
            else fetchDetails post minDelayMs maxDelayMs allLinks continue_
        | None => fetchDetails post minDelayMs maxDelayMs allLinks continue_
        end
  end.

(** [extractLinksFromCampaign].  The [for] loop runs as long as the remote
    hands out cursors; [fuel] bounds the number of pages, and [None] tells
    that the bound was reached. *)
Fixpoint pageLoop (fuel : nat) (campaignID : string) (filterDate : Time)
    (minDelayMs maxDelayMs : Z) (cursor : string) (allLinks : list string)
  : M (option (list string * option api.error)) :=
  match fuel with
  | O => ret None
  | S fuel' =>
      r <- client.FetchPosts remote campaignID 50 cursor ;;
      match r with
      | inl err => ret (Some (allLinks, Some err))
      | inr page =>
          randomDelay minDelayMs maxDelayMs ;;;
          res <- processPosts (Posts page) filterDate minDelayMs maxDelayMs allLinks ;;
          let '(returned, allLinks) := res in
          if returned then ret (Some (allLinks, None))
          else if negb (HasMore page) || String.eqb (NextCursor page) ""
          then ret (Some (allLinks, None))
          else pageLoop fuel' campaignID filterDate minDelayMs maxDelayMs
                 (NextCursor page) allLinks
      end
  end.

Definition extractLinksFromCampaign (fuel : nat) (campaignID : string)
    (filterDate : Time) (minDelayMs maxDelayMs : Z)
  : M (option (list string * option api.error)) :=
  pageLoop fuel campaignID filterDate minDelayMs maxDelayMs "" [].

(** The deduplicating merge of one campaign's links. *)
Definition mergeLinks (st : gmap string bool * list string) (link : string)
  : gmap string bool * list string :=
  let '(seenLinks, allLinks) := st in
  if negb (default false (seenLinks !! link))
  then (<[link := true]> seenLinks, allLinks ++ [link])
  else (seenLinks, allLinks).

Fixpoint campaignLoop (fuel : nat) (cs : list Campaign) (filterDate : Time)
    (minDelayMs maxDelayMs : Z) (st : gmap string bool * list string)
  : M (option (list string)) :=
  match cs with
  | [] => ret (Some (snd st))
  | campaign :: rest =>
      r <- extractLinksFromCampaign fuel (ID campaign) filterDate minDelayMs maxDelayMs ;;
      match r with
      | None => ret None
      | Some (_, Some _) =>
          campaignLoop fuel rest filterDate minDelayMs maxDelayMs st
      | Some (links, None) =>
          let st := fold_left mergeLinks links st in
          randomDelay minDelayMs maxDelayMs ;;;
          campaignLoop fuel rest filterDate minDelayMs maxDelayMs st
      end
  end.

Inductive failure : Type :=
| NoCampaigns
| InvalidDate (afterDate : string).

(** [ExtractYouTubeLinks(cfg, database, afterDate)]: the error, or the
    links printed; the outer [None] tells that a campaign ran out of
    [fuel]. *)
Definition ExtractYouTubeLinks (fuel : nat) (cfg : Config) (afterDate : string)
  : M (option (failure + list string)) :=
  if (length (Campaigns cfg) =? 0)%nat then ret (Some (inl NoCampaigns))
  else
    match (if String.eqb afterDate "" then Some 0 else time.Parse afterDate) with
    | None => ret (Some (inl (InvalidDate afterDate)))
    | Some filterDate =>
        let minDelayMs := GetRequestDelayMinMs cfg in
        let maxDelayMs := GetRequestDelayMaxMs cfg in
        r <- campaignLoop fuel (Campaigns cfg) filterDate minDelayMs maxDelayMs (∅, []) ;;
        ret (inr <$> r)
    end.

End WithRemote.
End cli.

(** ** internal/ui/app.go

    The bubbletea model and its [Update].  The widgets (text input,
    spinner, viewport) and the rendering are left out: of the text input
    only the value is kept, and the texts of the status line and of the
    loading screen are enumerated. *)

Module ui.
Import models env.
Open Scope world_scope.

Inductive viewState : Type :=
| stateInput | stateLoading | stateList | stateDetails | stateError.

Inductive Status : Type :=
| StatusNone
| StatusCopied (n : Z)
| StatusCopyFailed
| StatusClipboardEmpty
| StatusRemoved
| StatusCleared
| StatusAlreadyThere
| StatusAdded
| StatusAddedAll (n : Z)
| StatusAllAlreadyThere.

Inductive Loading : Type :=
| LoadingNone
| LoadingPosts
| LoadingDetails
| LoadingRefresh
| LoadingForceRefresh
| LoadingPage (n : Z)
| LoadingForceDetails
| LoadingRetry.

Record Model : Type := {
  state : viewState;
  posts : list Post;
  cursor : Z;
  hasDatabase : bool;
  input : string;
  err : option api.error;
  width : Z;
  height : Z;
  campaignID : string;
  loadingMsg : Loading;
  postDetails : option PostDetails;
  cachedDetails : option db.CachedPost;
  clipboardLinks : list string;
  clipboardCursor : Z;
  linkCursor : Z;
  statusMessage : Status;
  currentPage : Z;
  nextCursor : string;
  cursorHistory : list string;
  totalPosts : Z;
  hasMorePages : bool
}.

(** Assignment to one field. *)
Definition set_state (v : viewState) (m : Model) : Model :=
  Build_Model v (posts m) (cursor m) (hasDatabase m) (input m) (err m)
    (width m) (height m) (campaignID m) (loadingMsg m) (postDetails m)
    (cachedDetails m) (clipboardLinks m) (clipboardCursor m) (linkCursor m)
    (statusMessage m) (currentPage m) (nextCursor m) (cursorHistory m)
    (totalPosts m) (hasMorePages m).
Definition set_posts (v : list Post) (m : Model) : Model :=
  Build_Model (state m) v (cursor m) (hasDatabase m) (input m) (err m)
    (width m) (height m) (campaignID m) (loadingMsg m) (postDetails m)
    (cachedDetails m) (clipboardLinks m) (clipboardCursor m) (linkCursor m)
    (statusMessage m) (currentPage m) (nextCursor m) (cursorHistory m)
    (totalPosts m) (hasMorePages m).
Definition set_cursor (v : Z) (m : Model) : Model :=
  Build_Model (state m) (posts m) v (hasDatabase m) (input m) (err m) (width
    m) (height m) (campaignID m) (loadingMsg m) (postDetails m) (cachedDetails
    m) (clipboardLinks m) (clipboardCursor m) (linkCursor m) (statusMessage m)
    (currentPage m) (nextCursor m) (cursorHistory m) (totalPosts m)
    (hasMorePages m).
Definition set_input (v : string) (m : Model) : Model :=
  Build_Model (state m) (posts m) (cursor m) (hasDatabase m) v (err m)
    (width m) (height m) (campaignID m) (loadingMsg m) (postDetails m)
    (cachedDetails m) (clipboardLinks m) (clipboardCursor m) (linkCursor m)
    (statusMessage m) (currentPage m) (nextCursor m) (cursorHistory m)
    (totalPosts m) (hasMorePages m).
Definition set_err (v : option api.error) (m : Model) : Model :=
  Build_Model (state m) (posts m) (cursor m) (hasDatabase m) (input m) v
    (width m) (height m) (campaignID m) (loadingMsg m) (postDetails m)
    (cachedDetails m) (clipboardLinks m) (clipboardCursor m) (linkCursor m)
    (statusMessage m) (currentPage m) (nextCursor m) (cursorHistory m)
    (totalPosts m) (hasMorePages m).
Definition set_width (v : Z) (m : Model) : Model :=
  Build_Model (state m) (posts m) (cursor m) (hasDatabase m) (input m) (err
    m) v (height m) (campaignID m) (loadingMsg m) (postDetails m) (cachedDetails
    m) (clipboardLinks m) (clipboardCursor m) (linkCursor m) (statusMessage m)
    (currentPage m) (nextCursor m) (cursorHistory m) (totalPosts m)
    (hasMorePages m).
Definition set_height (v : Z) (m : Model) : Model :=
  Build_Model (state m) (posts m) (cursor m) (hasDatabase m) (input m) (err
    m) (width m) v (campaignID m) (loadingMsg m) (postDetails m) (cachedDetails
    m) (clipboardLinks m) (clipboardCursor m) (linkCursor m) (statusMessage m)
    (currentPage m) (nextCursor m) (cursorHistory m) (totalPosts m)
    (hasMorePages m).
Definition set_campaignID (v : string) (m : Model) : Model :=
  Build_Model (state m) (posts m) (cursor m) (hasDatabase m) (input m) (err
    m) (width m) (height m) v (loadingMsg m) (postDetails m) (cachedDetails m)
    (clipboardLinks m) (clipboardCursor m) (linkCursor m) (statusMessage m)
    (currentPage m) (nextCursor m) (cursorHistory m) (totalPosts m)
    (hasMorePages m).
Definition set_loadingMsg (v : Loading) (m : Model) : Model :=
  Build_Model (state m) (posts m) (cursor m) (hasDatabase m) (input m) (err
    m) (width m) (height m) (campaignID m) v (postDetails m) (cachedDetails m)
    (clipboardLinks m) (clipboardCursor m) (linkCursor m) (statusMessage m)
    (currentPage m) (nextCursor m) (cursorHistory m) (totalPosts m)
    (hasMorePages m).
Definition set_postDetails (v : option PostDetails) (m : Model) : Model :=
  Build_Model (state m) (posts m) (cursor m) (hasDatabase m) (input m) (err
    m) (width m) (height m) (campaignID m) (loadingMsg m) v (cachedDetails m)
    (clipboardLinks m) (clipboardCursor m) (linkCursor m) (statusMessage m)
    (currentPage m) (nextCursor m) (cursorHistory m) (totalPosts m)
    (hasMorePages m).
Definition set_cachedDetails (v : option db.CachedPost) (m : Model) : Model :=
  Build_Model (state m) (posts m) (cursor m) (hasDatabase m) (input m) (err
    m) (width m) (height m) (campaignID m) (loadingMsg m) (postDetails m) v
    (clipboardLinks m) (clipboardCursor m) (linkCursor m) (statusMessage m)
    (currentPage m) (nextCursor m) (cursorHistory m) (totalPosts m)
    (hasMorePages m).
Definition set_clipboardLinks (v : list string) (m : Model) : Model :=
  Build_Model (state m) (posts m) (cursor m) (hasDatabase m) (input m) (err
    m) (width m) (height m) (campaignID m) (loadingMsg m) (postDetails m)
    (cachedDetails m) v (clipboardCursor m) (linkCursor m) (statusMessage m)
    (currentPage m) (nextCursor m) (cursorHistory m) (totalPosts m)
    (hasMorePages m).
Definition set_clipboardCursor (v : Z) (m : Model) : Model :=
  Build_Model (state m) (posts m) (cursor m) (hasDatabase m) (input m) (err
    m) (width m) (height m) (campaignID m) (loadingMsg m) (postDetails m)
    (cachedDetails m) (clipboardLinks m) v (linkCursor m) (statusMessage m)
    (currentPage m) (nextCursor m) (cursorHistory m) (totalPosts m)
    (hasMorePages m).
Definition set_linkCursor (v : Z) (m : Model) : Model :=
  Build_Model (state m) (posts m) (cursor m) (hasDatabase m) (input m) (err
    m) (width m) (height m) (campaignID m) (loadingMsg m) (postDetails m)
    (cachedDetails m) (clipboardLinks m) (clipboardCursor m) v (statusMessage m)
    (currentPage m) (nextCursor m) (cursorHistory m) (totalPosts m)
    (hasMorePages m).
Definition set_statusMessage (v : Status) (m : Model) : Model :=
  Build_Model (state m) (posts m) (cursor m) (hasDatabase m) (input m) (err
    m) (width m) (height m) (campaignID m) (loadingMsg m) (postDetails m)
    (cachedDetails m) (clipboardLinks m) (clipboardCursor m) (linkCursor m) v
    (currentPage m) (nextCursor m) (cursorHistory m) (totalPosts m)
    (hasMorePages m).
Definition set_currentPage (v : Z) (m : Model) : Model :=
  Build_Model (state m) (posts m) (cursor m) (hasDatabase m) (input m) (err
    m) (width m) (height m) (campaignID m) (loadingMsg m) (postDetails m)
    (cachedDetails m) (clipboardLinks m) (clipboardCursor m) (linkCursor m)
    (statusMessage m) v (nextCursor m) (cursorHistory m) (totalPosts m)
    (hasMorePages m).
Definition set_nextCursor (v : string) (m : Model) : Model :=
  Build_Model (state m) (posts m) (cursor m) (hasDatabase m) (input m) (err
    m) (width m) (height m) (campaignID m) (loadingMsg m) (postDetails m)
    (cachedDetails m) (clipboardLinks m) (clipboardCursor m) (linkCursor m)
    (statusMessage m) (currentPage m) v (cursorHistory m) (totalPosts m)
    (hasMorePages m).
Definition set_cursorHistory (v : list string) (m : Model) : Model :=
  Build_Model (state m) (posts m) (cursor m) (hasDatabase m) (input m) (err
    m) (width m) (height m) (campaignID m) (loadingMsg m) (postDetails m)
    (cachedDetails m) (clipboardLinks m) (clipboardCursor m) (linkCursor m)
    (statusMessage m) (currentPage m) (nextCursor m) v (totalPosts m)
    (hasMorePages m).
Definition set_totalPosts (v : Z) (m : Model) : Model :=
  Build_Model (state m) (posts m) (cursor m) (hasDatabase m) (input m) (err
    m) (width m) (height m) (campaignID m) (loadingMsg m) (postDetails m)
    (cachedDetails m) (clipboardLinks m) (clipboardCursor m) (linkCursor m)
    (statusMessage m) (currentPage m) (nextCursor m) (cursorHistory m) v
    (hasMorePages m).
Definition set_hasMorePages (v : bool) (m : Model) : Model :=
  Build_Model (state m) (posts m) (cursor m) (hasDatabase m) (input m) (err
    m) (width m) (height m) (campaignID m) (loadingMsg m) (postDetails m)
    (cachedDetails m) (clipboardLinks m) (clipboardCursor m) (linkCursor m)
    (statusMessage m) (currentPage m) (nextCursor m) (cursorHistory m)
    (totalPosts m) v.

Inductive Msg : Type :=
| KeyMsg (key : string)
| WindowSizeMsg (Width Height : Z)
| PostsFetchedMsg (Posts : list Post) (NextCursor : string) (HasMore : bool)
                  (Total : Z) (Err : option api.error)
| PostDetailsFetchedMsg (Details : option PostDetails) (Err : option api.error)
| SpinnerTickMsg
| OtherMsg.

(** The commands [Update] hands back.  A fetch command stands for the
    batch of the spinner tick and the fetch. *)
Inductive Cmd : Type :=
| CmdNil
| CmdQuit
| CmdBlink
| CmdWidget
| CmdFetchPosts (cursor : string)
| CmdFetchPostDetails (postID : string).

Definition NewModel (withDatabase : bool) : Model :=
  {| state := stateInput; posts := []; cursor := 0; hasDatabase := withDatabase;
     input := ""; err := None; width := 80; height := 24; campaignID := "";
     loadingMsg := LoadingNone; postDetails := None; cachedDetails := None;
     clipboardLinks := []; clipboardCursor := 0; linkCursor := 0;
     statusMessage := StatusNone; currentPage := 1; nextCursor := "";
     cursorHistory := []; totalPosts := 0; hasMorePages := false |}.

Definition len {A : Type} (l : list A) : Z := Z.of_nat (length l).

(** [l[i]]; [None] is the index out of range panic. *)
Definition index {A : Type} (l : list A) (i : Z) : option A :=
  if i <? 0 then None else l !! Z.to_nat i.

(** [append(l[:i], l[i+1:]...)]; [None] is the slice bounds panic. *)
Definition removeAt {A : Type} (l : list A) (i : Z) : option (list A) :=
  if (0 <=? i) && (i + 1 <=? len l)
  then Some (take (Z.to_nat i) l ++ drop (Z.to_nat (i + 1)) l)
  else None.

(** The value of a Go [int] after an addition. *)
Definition wrapInt (z : Z) : Z := (z + 2 ^ 63) mod 2 ^ 64 - 2 ^ 63.

Arguments len : simpl never.
Arguments index : simpl never.
Arguments removeAt : simpl never.
Arguments wrapInt : simpl never.

Definition keyIs (key : string) (names : list string) : bool :=
  existsb (String.eqb key) names.

Definition inListOrDetails (m : Model) : bool :=
  match state m with
  | stateList | stateDetails => true
  | _ => false
  end.

Definition isInput (m : Model) : bool :=
  match state m with stateInput => true | _ => false end.

Definition contains (l : list string) (x : string) : bool :=
  existsb (String.eqb x) l.

(** The cursor of the page shown: the empty one for page 1, else the last
    of the history. *)
Definition pageCursor (m : Model) : string :=
  if (1 <? currentPage m) && (0 <? len (cursorHistory m))
  then default "" (last (cursorHistory m))
  else "".

Section WithRemote.
Context {parser : url.Parser} {json : JSON} (remote : Remote).
(** [textinput.Model.Update]: the value after a key. *)
Variable inputUpdate : string -> string -> string.

Definition postOf (campaignID : string) (post : Post) : db.CachedPost :=
  {| db.ID := models.ID post;
     db.CampaignID := campaignID;
     db.Type_ := models.Type_ post;
     db.PostType := models.PostType post;
     db.Title := models.Title post;
     db.PatreonURL := models.PatreonURL post;
     db.CurrentUserCanView := models.CurrentUserCanView post;
     db.PublishedAt := models.PublishedAt post;
     db.Description := "";
     db.YouTubeLinks := "";
     db.CachedAt := 0;
     db.DetailsCached := false |}.

Fixpoint savePosts (campaignID : string) (ps : list Post) : M unit :=
  match ps with
  | [] => ret tt
  | post :: rest =>
      t <- client.now remote ;;
      exec (db.SavePost t (postOf campaignID post)) ;;;
      savePosts campaignID rest
  end.

(** The command made by [m.fetchPosts(cursor)], run. *)
Definition fetchPosts (m : Model) (cursor : string) : M Msg :=
  r <- client.FetchPosts remote (campaignID m) 20 cursor ;;
  match r with
  | inl e => ret (PostsFetchedMsg [] "" false 0 (Some e))
  | inr page =>
      (if hasDatabase m then
         t <- client.now remote ;;
         exec (db.SaveCampaign t (campaignID m) "") ;;;
         savePosts (campaignID m) (Posts page)
       else ret tt) ;;;
      ret (PostsFetchedMsg (Posts page) (NextCursor page) (HasMore page) (Total page) None)
  end.

(** The command made by [m.fetchPostDetails(postID)], run. *)
Definition fetchPostDetails (postID : string) : M Msg :=
  r <- client.FetchPostDetails remote postID ;;
  match r with
  | inl e => ret (PostDetailsFetchedMsg None (Some e))
  | inr details => ret (PostDetailsFetchedMsg (Some details) None)
  end.

Definition setDetailsCached (v : bool) (p : Post) : Post :=
  {| models.ID := models.ID p;
     models.Type_ := models.Type_ p;
     models.PostType := models.PostType p;
     models.Title := models.Title p;
     models.PatreonURL := models.PatreonURL p;
     models.CurrentUserCanView := models.CurrentUserCanView p;
     models.PublishedAt := models.PublishedAt p;
     models.DetailsCached := v |}.

(** The first post with the id is marked cached. *)
Fixpoint markCached (id : string) (ps : list Post) : list Post :=
  match ps with
  | [] => []
  | p :: rest =>
      if String.eqb (models.ID p) id then setDetailsCached true p :: rest
      else p :: markCached id rest
  end.

(** The keys handled before the state: [Some] is the return of the
    branch, [None] falls through to the keys of the state. *)
Definition globalKeys (m : Model) (key : string) : M (option (option (Model * Cmd))) :=
  if keyIs key ["ctrl+c"; "esc"] then
    if isInput m then ret (Some (Some (m, CmdQuit))) else ret None
  else if keyIs key ["q"] then
    if negb (isInput m) then ret (Some (Some (m, CmdQuit))) else ret None
  else if keyIs key ["c"; "y"] then
    if inListOrDetails m then
      if 0 <? len (clipboardLinks m) then
        let text := String.concat (String "010" "") (clipboardLinks m) in
        h <- history ;;
        emit (EvClipboardWrite text) ;;;
        if clipboardWriteAll remote h text
        then ret (Some (Some (set_statusMessage (StatusCopied (len (clipboardLinks m))) m, CmdNil)))
        else ret (Some (Some (set_statusMessage StatusCopyFailed m, CmdNil)))
      else ret (Some (Some (set_statusMessage StatusClipboardEmpty m, CmdNil)))
    else ret None
  else if keyIs key ["x"] then
    if inListOrDetails m && (0 <? len (clipboardLinks m)) then
      match removeAt (clipboardLinks m) (clipboardCursor m) with
      | None => ret (Some None)
      | Some links =>
          let m := set_clipboardLinks links m in
          let m :=
            if (len (clipboardLinks m) <=? clipboardCursor m) && (0 <? clipboardCursor m)
            then set_clipboardCursor (clipboardCursor m - 1) m else m in
          ret (Some (Some (set_statusMessage StatusRemoved m, CmdNil)))
      end
    else ret None
  else if keyIs key ["X"] then
    if inListOrDetails m then
      let m := set_clipboardLinks [] m in
      let m := set_clipboardCursor 0 m in
      ret (Some (Some (set_statusMessage StatusCleared m, CmdNil)))
    else ret None
  else if keyIs key ["["] then
    if inListOrDetails m && (0 <? clipboardCursor m)
    then ret (Some (Some (set_clipboardCursor (clipboardCursor m - 1) m, CmdNil)))
    else ret None
  else if keyIs key ["]"] then
    if inListOrDetails m && (clipboardCursor m <? len (clipboardLinks m) - 1)
    then ret (Some (Some (set_clipboardCursor (clipboardCursor m + 1) m, CmdNil)))
    else ret None
  else ret None.

Definition handleListKeys (m : Model) (key : string) : M (option (Model * Cmd)) :=
  if keyIs key ["up"; "k"] then
    ret (Some (if 0 <? cursor m then set_cursor (cursor m - 1) m else m, CmdNil))
  else if keyIs key ["down"; "j"] then
    ret (Some (if cursor m <? len (posts m) - 1 then set_cursor (cursor m + 1) m else m,
               CmdNil))
  else if keyIs key ["enter"] then
    if 0 <? len (posts m) then
      match index (posts m) (cursor m) with
      | None => ret None
      | Some post =>
          let fetch :=
            let m := set_state stateLoading m in
            let m := set_loadingMsg LoadingDetails m in
            ret (Some (m, CmdFetchPostDetails (models.ID post))) in
          if hasDatabase m && models.DetailsCached post then
            cached <- query (db.GetPost (models.ID post)) ;;
            match cached with
            | Some c =>
                if db.DetailsCached c then
                  let m := set_cachedDetails (Some c) m in
                  let links :=
                    if negb (String.eqb (db.YouTubeLinks c) "")
                    then fst (Unmarshal (db.YouTubeLinks c)) else [] in
                  let m := set_postDetails
                             (Some {| dID := db.ID c; dTitle := db.Title c; dContent := "";
                                      dDescription := db.Description c; dPostType := "";
                                      dPublishedAt := 0; dYouTubeLinks := links |}) m in
                  let m := set_linkCursor 0 m in
                  let m := set_state stateDetails m in
                  ret (Some (m, CmdNil))
                else fetch
            | None => fetch
            end
          else fetch
      end
    else ret (Some (m, CmdNil))
  else if keyIs key ["r"] then
    let m := set_state stateLoading m in
    let m := set_loadingMsg LoadingRefresh m in
    ret (Some (m, CmdFetchPosts (pageCursor m)))
  else if keyIs key ["R"] then
    let m := set_currentPage 1 m in
    let m := set_cursorHistory [] m in
    let m := set_state stateLoading m in
    let m := set_loadingMsg LoadingForceRefresh m in
    ret (Some (m, CmdFetchPosts ""))
  else if keyIs key ["n"; "l"; "right"] then
    if hasMorePages m && negb (String.eqb (nextCursor m) "") then
      let m := if currentPage m =? 1
               then set_cursorHistory (cursorHistory m ++ [""]) m else m in
      let m := set_cursorHistory (cursorHistory m ++ [nextCursor m]) m in
      let m := set_currentPage (wrapInt (currentPage m + 1)) m in
      let m := set_state stateLoading m in
      let m := set_loadingMsg (LoadingPage (currentPage m)) m in
      ret (Some (m, CmdFetchPosts (nextCursor m)))
    else ret (Some (m, CmdNil))
  else if keyIs key ["p"; "h"; "left"] then
    if (1 <? currentPage m) && (0 <? len (cursorHistory m)) then
      let m := set_currentPage (currentPage m - 1) m in
      let m := set_cursorHistory (removelast (cursorHistory m)) m in
      let cursor := if 0 <? len (cursorHistory m)
                    then default "" (last (cursorHistory m)) else "" in
      let m := set_state stateLoading m in
      let m := set_loadingMsg (LoadingPage (currentPage m)) m in
      ret (Some (m, CmdFetchPosts cursor))
    else ret (Some (m, CmdNil))
  else if keyIs key ["esc"] then
    let m := set_state stateInput m in
    let m := set_input "" m in
    ret (Some (m, CmdBlink))
  else ret (Some (m, CmdNil)).

Definition linksOf (m : Model) : list string :=
  match postDetails m with
  | Some d => dYouTubeLinks d
  | None => []
  end.

(** The loop of the key [A]: a link is appended unless the clipboard, as
    extended so far, has it. *)
Definition addNew (st : list string * Z) (link : string) : list string * Z :=
  let '(clip, added) := st in
  if contains clip link then (clip, added) else (clip ++ [link], added + 1).

Definition handleDetailsKeys (m : Model) (key : string) : M (option (Model * Cmd)) :=
  if keyIs key ["esc"; "backspace"] then
    let m := set_state stateList m in
    let m := set_postDetails None m in
    let m := set_cachedDetails None m in
    let m := set_linkCursor 0 m in
    ret (Some (m, CmdNil))
  else if keyIs key ["R"] then
    if 0 <? len (posts m) then
      match index (posts m) (cursor m) with
      | None => ret None
      | Some post =>
          m <- (if hasDatabase m then
                  exec (db.ClearPostDetails (models.ID post)) ;;;
                  let post := setDetailsCached false post in
                  ret (set_posts (<[Z.to_nat (cursor m) := post]> (posts m)) m)
                else ret m) ;;
          let m := set_state stateLoading m in
          let m := set_loadingMsg LoadingForceDetails m in
          ret (Some (m, CmdFetchPostDetails (models.ID post)))
      end
    else ret (Some (m, CmdNil))
  else if keyIs key ["up"; "k"] then
    if bool_decide (is_Some (postDetails m)) && (0 <? len (linksOf m)) && (0 <? linkCursor m)
    then ret (Some (set_linkCursor (linkCursor m - 1) m, CmdNil))
    else ret (Some (m, CmdNil))
  else if keyIs key ["down"; "j"] then
    if bool_decide (is_Some (postDetails m)) && (0 <? len (linksOf m))
       && (linkCursor m <? len (linksOf m) - 1)
    then ret (Some (set_linkCursor (linkCursor m + 1) m, CmdNil))
    else ret (Some (m, CmdNil))
  else if keyIs key ["a"; "enter"] then
    if bool_decide (is_Some (postDetails m)) && (0 <? len (linksOf m)) then
      match index (linksOf m) (linkCursor m) with
      | None => ret None
      | Some link =>
          if contains (clipboardLinks m) link
          then ret (Some (set_statusMessage StatusAlreadyThere m, CmdNil))
          else
            let m := set_clipboardLinks (clipboardLinks m ++ [link]) m in
            ret (Some (set_statusMessage StatusAdded m, CmdNil))
      end
    else ret (Some (m, CmdNil))
  else if keyIs key ["A"] then
    if bool_decide (is_Some (postDetails m)) && (0 <? len (linksOf m)) then
      let '(clip, added) := fold_left addNew (linksOf m) (clipboardLinks m, 0) in
      let m := set_clipboardLinks clip m in
      if 0 <? added
      then ret (Some (set_statusMessage (StatusAddedAll added) m, CmdNil))
      else ret (Some (set_statusMessage StatusAllAlreadyThere m, CmdNil))
    else ret (Some (m, CmdNil))
  else ret (Some (m, CmdNil)).

Definition handleErrorKeys (m : Model) (key : string) : M (option (Model * Cmd)) :=
  if keyIs key ["r"] then
    let m := set_state stateLoading m in
    let m := set_loadingMsg LoadingRetry m in
    ret (Some (m, CmdFetchPosts (pageCursor m)))
  else if keyIs key ["esc"] then
    let m := set_state stateInput m in
    let m := set_input "" m in
    ret (Some (m, CmdBlink))
  else ret (Some (m, CmdNil)).

Definition refreshCached (d : db.Database) (p : Post) : Post :=
  setDetailsCached (db.IsPostDetailsCached (models.ID p) d) p.

(** [Update]; [None] is a panic. *)
Definition Update (m : Model) (msg : Msg) : M (option (Model * Cmd)) :=
  match msg with
  | KeyMsg key =>
      let m := set_statusMessage StatusNone m in
      handled <- globalKeys m key ;;
      match handled with
      | Some r => ret r
      | None =>
          match state m with
          | stateInput =>
              if keyIs key ["enter"] && negb (String.eqb (input m) "") then
                let m := set_campaignID (input m) m in
                let m := set_currentPage 1 m in
                let m := set_cursorHistory [] m in
                let m := set_state stateLoading m in
                let m := set_loadingMsg LoadingPosts m in
                ret (Some (m, CmdFetchPosts ""))
              else ret (Some (set_input (inputUpdate (input m) key) m, CmdWidget))
          | stateList => handleListKeys m key
          | stateDetails => handleDetailsKeys m key
          | stateError => handleErrorKeys m key
          | stateLoading => ret (Some (m, CmdNil))
          end
      end
  | WindowSizeMsg w h =>
      let m := set_width w m in
      let m := set_height h m in
      ret (Some (m, CmdNil))
  | PostsFetchedMsg ps next more total e =>
      match e with
      | Some e =>
          let m := set_state stateError m in
          let m := set_err (Some e) m in
          ret (Some (m, CmdNil))
      | None =>
          let m := set_posts ps m in
          let m := set_nextCursor next m in
          let m := set_hasMorePages more m in
          let m := set_totalPosts total m in
          m <- (if hasDatabase m
                then ps' <- query (fun d => map (refreshCached d) (posts m)) ;;
                     ret (set_posts ps' m)
                else ret m) ;;
          let m := set_state stateList m in
          let m := set_cursor 0 m in
          ret (Some (m, CmdNil))
      end
  | PostDetailsFetchedMsg details e =>
      match e with
      | Some e =>
          let m := set_state stateError m in
          let m := set_err (Some e) m in
          ret (Some (m, CmdNil))
      | None =>
          let m := set_postDetails details m in
          let m := set_linkCursor 0 m in
          m <- (match details with
                | Some d =>
                    if hasDatabase m then
                      let linksJSON := Marshal (dYouTubeLinks d) in
                      exec (db.SavePostDetails (dID d) (dDescription d) linksJSON) ;;;
                      ret (set_posts (markCached (dID d) (posts m)) m)
                    else ret m
                | None => ret m
                end) ;;
          let m := set_state stateDetails m in
          ret (Some (m, CmdNil))
      end
  | SpinnerTickMsg => ret (Some (m, CmdWidget))
  | OtherMsg =>
      match state m with
      | stateDetails => ret (Some (m, CmdWidget))
      | _ => ret (Some (m, CmdNil))
      end
  end.

(** A command run to the message it delivers, by the model that made it. *)
Definition runCmd (m : Model) (c : Cmd) : M (option Msg) :=
  match c with
  | CmdFetchPosts cursor => msg <- fetchPosts m cursor ;; ret (Some msg)
  | CmdFetchPostDetails postID => msg <- fetchPostDetails postID ;; ret (Some msg)
  | _ => ret None
  end.

(** The messages of a session applied in turn; [None] is a panic. *)
Fixpoint run (msgs : list Msg) (m : Model) : M (option Model) :=
  match msgs with
  | [] => ret (Some m)
  | msg :: rest =>
      r <- Update m msg ;;
      match r with
      | Some (m', _) => run rest m'
      | None => ret None
      end
  end.

End WithRemote.
End ui.

(** ** The page table of internal/db/database.go

    The table [campaign_pages], keyed by campaign and cursor, apart from
    the two tables above: no statement reads or writes both. *)

Module pages.
Import models.

Record PageRow : Type := {
  posts_json : string;
  next_cursor : option string;
  has_more : bool;
  cached_at : Time
}.

Abbreviation Table := (gmap (string * string) PageRow).

Record CachedPage : Type := {
  CampaignID : string;
  Cursor : string;
  PostsJSON : string;
  NextCursor : string;
  HasMore : bool;
  CachedAt : Time
}.

(** [SavePage]: insert, or on a conflict of the key assign the four other
    columns. *)
Definition SavePage (now : Time) (campaignID cursor postsJSON nextCursor : string)
    (hasMore : bool) (t : Table) : Table :=
  <[(campaignID, cursor) :=
      {| posts_json := postsJSON; next_cursor := Some nextCursor;
         has_more := hasMore; cached_at := now |}]> t.

(** [GetPage]: [None] is the nil page of [sql.ErrNoRows]. *)
Definition GetPage (campaignID cursor : string) (t : Table) : option CachedPage :=
  (fun r => {| CampaignID := campaignID; Cursor := cursor;
               PostsJSON := posts_json r;
               NextCursor := default "" (next_cursor r);
               HasMore := has_more r; CachedAt := cached_at r |})
  <$> t !! (campaignID, cursor).

Definition ClearCampaignPages (campaignID : string) (t : Table) : Table :=
  filter (fun kv => fst (fst kv) <> campaignID) t.

Definition ClearPage (campaignID cursor : string) (t : Table) : Table :=
  delete (campaignID, cursor) t.

End pages.

(** ** The length of a pause (package cli, [randomDelay]) *)

Module delay.

(** The value of a 64-bit integer ([int], [int64], [time.Duration]) after
    an arithmetic operation. *)
Definition int64 (z : Z) : Z := (z + 2 ^ 63) mod 2 ^ 64 - 2 ^ 63.

(** [time.Millisecond], a [time.Duration] in nanoseconds. *)
Definition Millisecond : Z := 1000000.

(** The [time.Duration] that [randomDelay(minMs, maxMs)] hands to
    [time.Sleep], which returns at once when it is not positive; [intn]
    stands for [rand.Intn], which panics ([None]) on an argument that is
    not positive. *)
Definition randomDelay (intn : Z -> Z) (minMs maxMs : Z) : option Z :=
  if maxMs <=? minMs then Some (int64 (minMs * Millisecond))
  else
    let n := int64 (maxMs - minMs) in
    if n <=? 0 then None
    else
      let delay := int64 (minMs + intn n) in
      Some (int64 (delay * Millisecond)).

End delay.

(** ** The rows that the views read (internal/ui/app.go)

    [viewList] and [renderClipboardPanel] render a window of their list
    around the cursor.  The text they build is not modelled; the indices
    they compute and the elements they read are. *)

Module view.
Import ui.

(** The loop [for i := start; i < end; i++] reading [l[i]]: the elements
    read in turn; [None] is the index out of range panic. *)
Fixpoint readRows {A : Type} (l : list A) (i : Z) (count : nat) : option (list A) :=
  match count with
  | O => Some []
  | S k =>
      match index l i with
      | None => None
      | Some x => option_map (cons x) (readRows l (i + 1) k)
      end
  end.

Definition loopRows {A : Type} (l : list A) (start end_ : Z) : option (list A) :=
  readRows l start (Z.to_nat (end_ - start)).

(** [start] and [end] of the scrolling logic of [viewList]. *)
Definition listWindow (m : Model) : Z * Z :=
  let visiblePosts := wrapInt (height m - 12) in
  let visiblePosts := if visiblePosts <? 5 then 5 else visiblePosts in
  let visiblePosts :=
    if len (posts m) <? visiblePosts then len (posts m) else visiblePosts in
  let start :=
    if visiblePosts <=? cursor m
    then wrapInt (wrapInt (cursor m - visiblePosts) + 1) else 0 in
  let end_ := wrapInt (start + visiblePosts) in
  let end_ := if len (posts m) <? end_ then len (posts m) else end_ in
  (start, end_).

(** The posts [viewList] reads: the rows of the window and, for a list
    that is not empty, the selected post [m.posts[m.cursor]]. *)
Definition viewListPosts (m : Model) : option (list models.Post * option models.Post) :=
  let '(start, end_) := listWindow m in
  match loopRows (posts m) start end_ with
  | None => None
  | Some rows =>
      if 0 <? len (posts m) then
        match index (posts m) (cursor m) with
        | None => None
        | Some selected => Some (rows, Some selected)
        end
      else Some (rows, None)
  end.

(** [start] and [end] of [renderClipboardPanel(height, topPadding)] for a
    clipboard that is not empty. *)
Definition clipboardWindow (m : Model) (height : Z) : Z * Z :=
  let maxVisible := wrapInt (height - 6) in
  let maxVisible := if maxVisible <? 3 then 3 else maxVisible in
  let start :=
    if maxVisible <=? clipboardCursor m
    then wrapInt (wrapInt (clipboardCursor m - maxVisible) + 1) else 0 in
  let end_ := wrapInt (start + maxVisible) in
  let end_ := if len (clipboardLinks m) <? end_ then len (clipboardLinks m) else end_ in
  (start, end_).

(** The links [renderClipboardPanel] reads. *)
Definition clipboardPanelLinks (m : Model) (height : Z) : option (list string) :=
  if len (clipboardLinks m) =? 0 then Some []
  else
    let '(start, end_) := clipboardWindow m height in
    loopRows (clipboardLinks m) start end_.

End view.

(** ** Vocabulary of the specification *)

Module spec.

(** The canonical watch URL of a video id. *)
Definition canonical (id : string) : string :=
  "https://www.youtube.com/watch?v=" +:+ id.

(** An id is eleven bytes of [[A-Za-z0-9_-]]. *)
Definition validID (id : string) : Prop :=
  String.length id = 11%nat /\
  Forall (fun c => api.idChar c = true) (list_ascii_of_string id).

(** First-seen order: every element is kept at its first occurrence. *)
Fixpoint firstSeen (l : list string) : list string :=
  match l with
  | [] => []
  | x :: t => x :: filter (fun y => y <> x) (firstSeen t)
  end.

(** The ids in the order the scan meets them: pattern by pattern in the
    order of [youtubePatterns], and within a pattern from left to right. *)
Definition scannedIDs (content : string) : list string :=
  flat_map (fun pattern =>
              map (fun match_ => nth 1 match_ "")
                  (regexp.FindAllStringSubmatch pattern content))
           api.youtubePatterns.

(** *** Markup stripping

    The stages of the stripping in the words of the specification,
    written without the expressions and the library calls of the
    program. *)

(** [p] stands at the head of [s]. *)
Fixpoint starts (p s : bytes) : bool :=
  match p, s with
  | [], _ => true
  | a :: p', b :: s' => Ascii.eqb a b && starts p' s'
  | _ :: _, [] => false
  end.

(** Every occurrence of an item is replaced by [new]: the text is read
    from left to right, and after an item the reading goes on behind it.
    [item s] is the rest of [s] after the item at its head, if one stands
    there. *)
Fixpoint replaceEach (item : bytes -> option bytes) (new : bytes) (fuel : nat)
    (s : bytes) : bytes :=
  match fuel, s with
  | S k, c :: t =>
      match item s with
      | Some rest => new ++ replaceEach item new k rest
      | None => c :: replaceEach item new k t
      end
  | _, _ => []
  end.

Definition replaceAllOf (item : bytes -> option bytes) (new text : string) : string :=
  let s := list_ascii_of_string text in
  string_of_list_ascii (replaceEach item (list_ascii_of_string new) (length s) s).

(** The capital of a small letter; other bytes are their own. *)
Definition capital (c : ascii) : ascii :=
  let n := nat_of_ascii c in
  if ((97 <=? n) && (n <=? 122))%nat then ascii_of_nat (n - 32) else c.

(** One byte of a tag name read without regard to case.  As in the
    case folding of Unicode, the long s (U+017F, the bytes 197 191) reads as
    an [s]. *)
Definition letter (c : ascii) (s : bytes) : option bytes :=
  match s with
  | a :: t =>
      if Ascii.eqb a c || Ascii.eqb a (capital c) then Some t
      else if Ascii.eqb c "s" && starts ["197"; "191"]%char s then Some (skipn 2 s)
      else None
  | [] => None
  end.

(** The word [w] at the head of [s], without regard to case. *)
Fixpoint word (w : bytes) (s : bytes) : option bytes :=
  match w with
  | [] => Some s
  | c :: w' =>
      match letter c s with
      | Some t => word w' t
      | None => None
      end
  end.

(** The text behind the first [>]. *)
Fixpoint afterGt (s : bytes) : option bytes :=
  match s with
  | [] => None
  | c :: t => if Ascii.eqb c ">" then Some t else afterGt t
  end.

(** The text behind the first occurrence of the word [w]. *)
Fixpoint afterWord (w : bytes) (s : bytes) : option bytes :=
  match word w s with
  | Some rest => Some rest
  | None =>
      match s with
      | [] => None
      | _ :: t => afterWord w t
      end
  end.

(** A whole block of the element [name]: its opening tag, from [<name] to
    the first [>], and all that follows up to the first closing tag
    [</name>], the closing tag included. *)
Definition block (name : string) (s : bytes) : option bytes :=
  match word (list_ascii_of_string ("<" +:+ name)) s with
  | Some s1 =>
      match afterGt s1 with
      | Some s2 => afterWord (list_ascii_of_string ("</" +:+ name +:+ ">")) s2
      | None => None
      end
  | None => None
  end.

(** A tag: [<], at least one byte other than [>], and the first [>]. *)
Definition tag (s : bytes) : option bytes :=
  match s with
  | a :: c :: t =>
      if Ascii.eqb a "<" && negb (Ascii.eqb c ">") then afterGt t else None
  | _ => None
  end.

(** The text [e] itself. *)
Definition literally (e : string) (s : bytes) : option bytes :=
  let p := list_ascii_of_string e in
  if starts p s then Some (skipn (length p) s) else None.

Definition dropBlocks (name text : string) : string := replaceAllOf (block name) "" text.
Definition dropTags (text : string) : string := replaceAllOf tag "" text.

(** The entities that are decoded, in the order of decoding. *)
Definition entities : list (string * string) :=
  [ ("&nbsp;", " "); ("&amp;", "&"); ("&lt;", "<"); ("&gt;", ">");
    ("&quot;", String "034" ""); ("&#39;", "'") ].

Definition decodeEntities (text : string) : string :=
  fold_left (fun t er => replaceAllOf (literally (fst er)) (snd er) t) entities text.

(** The white space of a run: tab, line feed, form feed, carriage return
    and space. *)
Definition blank (c : ascii) : bool :=
  existsb (Ascii.eqb c) ["009"; "010"; "012"; "013"; " "]%char.

(** Every run of white space becomes one space; [inRun] tells that the
    byte before belongs to a run. *)
Fixpoint collapse (inRun : bool) (s : bytes) : bytes :=
  match s with
  | [] => []
  | c :: t =>
      if blank c
      then (if inRun then collapse true t else " "%char :: collapse true t)
      else c :: collapse false t
  end.

Definition collapseSpaces (text : string) : string :=
  string_of_list_ascii (collapse false (list_ascii_of_string text)).

(** The only white space bytes of a run are single spaces between other
    bytes; [prev] tells that the byte before is white space. *)
Fixpoint singleSpaced (prev : bool) (s : bytes) : bool :=
  match s with
  | [] => true
  | c :: t =>
      if blank c
      then Ascii.eqb c " " && negb prev && singleSpaced true t
      else singleSpaced false t
  end.

(** The white space that is trimmed: the runes with the Unicode property
    White_Space, each in its UTF-8 encoding (U+0009 to U+000D, U+0020,
    U+0085, U+00A0, U+1680, U+2000 to U+200A, U+2028, U+2029, U+202F,
    U+205F, U+3000). *)
Definition whiteRunes : list bytes :=
  [ ["009"]; ["010"]; ["011"]; ["012"]; ["013"]; [" "];
    ["194"; "133"]; ["194"; "160"]; ["225"; "154"; "128"];
    ["226"; "128"; "128"]; ["226"; "128"; "129"]; ["226"; "128"; "130"];
    ["226"; "128"; "131"]; ["226"; "128"; "132"]; ["226"; "128"; "133"];
    ["226"; "128"; "134"]; ["226"; "128"; "135"]; ["226"; "128"; "136"];
    ["226"; "128"; "137"]; ["226"; "128"; "138"];
    ["226"; "128"; "168"]; ["226"; "128"; "169"]; ["226"; "128"; "175"];
    ["226"; "129"; "159"]; ["227"; "128"; "128"] ]%char.

(** A sequence of white space runes. *)
Definition whiteRun (s : bytes) : Prop :=
  exists runes, Forall (fun r => In r whiteRunes) runes /\ s = concat runes.

Definition whiteAtHead (s : bytes) : bool :=
  existsb (fun r => starts r s) whiteRunes.

Definition whiteAtEnd (s : bytes) : bool :=
  existsb (fun r => starts (rev r) (rev s)) whiteRunes.

(** [text] is [whole] without the white space at its two ends. *)
Definition trimOf (whole text : string) : Prop :=
  (exists pre suf,
     list_ascii_of_string whole = pre ++ list_ascii_of_string text ++ suf /\
     whiteRun pre /\ whiteRun suf) /\
  whiteAtHead (list_ascii_of_string text) = false /\
  whiteAtEnd (list_ascii_of_string text) = false.

End spec.

(** ** Auxiliary notions of the proofs *)

Module aux.
Import regexp.

(** An expression without a capture group. *)
Fixpoint groupless (r : Regexp) : bool :=
  match r with
  | Capture _ => false
  | Cat r1 r2 => groupless r1 && groupless r2
  | Quest r1 | Repeat _ r1 => groupless r1
  | _ => true
  end.

(** The expression captures exactly one group, a well-formed id. *)
Definition capturesID (r : Regexp) : Prop :=
  forall s m g t, In (m, g, t) (candidates r s) ->
    exists id, g = [id] /\ length id = 11%nat /\
               Forall (fun c => api.idChar c = true) id.

(** The rests of the candidates, in their order. *)
Definition rests (cs : list candidate) : list bytes := map snd cs.

(** Under the flag [(?i)] the byte [c] of an expression matches what the
    specification reads as the letter [c]. *)
Definition readsAs (c : ascii) : Prop :=
  forall s, rests (candidates (Fold c) s) = option_list (spec.letter c s).

(** The white space runes that are trimmed at the head of a text: one of
    the encodings [encs], or a byte of the ASCII white space. *)
Definition trimmedRune (encs : list bytes) (r : bytes) : Prop :=
  In r encs \/ exists c, r = [c] /\ strings.asciiSpace c = true.

(** The length of the run of [p] at the head of [s]. *)
Fixpoint runLength (p : ascii -> bool) (s : bytes) : nat :=
  match s with
  | c :: t => if p c then S (runLength p t) else O
  | [] => O
  end.

(** The loop body of [ExtractYouTubeLinks] on the list of ids alone. *)
Definition noteID (acc : list string) (id : string) : list string :=
  if bool_decide (id ∈ acc) then acc else acc ++ [id].

(** The state of the loop of [ExtractYouTubeLinks] against the list of ids
    noted so far. *)
Definition tracks (st : gmap string bool * list string) (acc : list string) : Prop :=
  snd st = map spec.canonical acc /\
  forall id, default false (fst st !! id) = true <-> id ∈ acc.

Definition samplePost (id campaign title_ : string) : db.CachedPost :=
  {| db.ID := id; db.CampaignID := campaign; db.Type_ := "post";
     db.PostType := "text_only"; db.Title := title_; db.PatreonURL := "/posts/1";
     db.CurrentUserCanView := true; db.PublishedAt := 5; db.Description := "";
     db.YouTubeLinks := ""; db.CachedAt := 0; db.DetailsCached := false |}.

(** The cursors of the page fetches of a log, in order. *)
Definition postsCursors (l : list env.Event) : list string :=
  omap (fun e => match e with
                 | env.EvFetchPosts _ _ c => Some c
                 | _ => None
                 end) l.

(** The posts whose details a log asks the remote for. *)
Definition detailFetches (l : list env.Event) : list string :=
  omap (fun e => match e with
                 | env.EvFetchPostDetails id => Some id
                 | _ => None
                 end) l.

(** Events of the processing of posts: no page fetch, and detail fetches
    for posts among [ids] only. *)
Definition quiet (ids : list string) (new : list env.Event) : Prop :=
  postsCursors new = [] /\ forall id, id ∈ detailFetches new -> id ∈ ids.

Definition samplePostData (id : string) (publishedAt : models.Time) : models.PostData :=
  {| models.pdID := id; models.pdType := "post"; models.aPostType := "text_only";
     models.aTitle := id; models.aPatreonURL := "/posts/1";
     models.aCurrentUserCanView := true; models.aPublishedAt := publishedAt |}.

Definition sampleDetail (id : string) : models.PostDetailResponse :=
  {| models.rID := id; models.rTitle := id;
     models.rContent := "<p>See https://youtu.be/dQw4w9WgXcQ</p>";
     models.rPostType := "text_only"; models.rPublishedAt := 0;
     models.rEmbedURL := "" |}.

(** A remote with two pages: the first is [firstPage] and links to the
    cursor [c2], the second is empty and the last. *)
Definition twoPages (firstPage : list models.PostData) : env.Remote :=
  {| env.listPosts := fun _ req =>
       if String.eqb (api.reqPageCursor req) "null"
       then api.Decoded
              {| models.Data := firstPage;
                 models.LinksNext :=
                   "https://www.patreon.com/api/campaigns/1/posts?page%5Bcursor%5D=c2" |}
       else api.Decoded {| models.Data := []; models.LinksNext := "" |};
     env.getPost := fun _ id => api.Decoded (sampleDetail id);
     env.clock := fun h => Z.of_nat (length h);
     env.clipboardWriteAll := fun _ _ => true |}.

Definition oneCampaign : cli.Config :=
  {| cli.Cookies := ""; cli.Campaigns := [ {| cli.ID := "1"; cli.Name := "" |} ];
     cli.PublishedAfter := ""; cli.RequestDelayMinMs := 0; cli.RequestDelayMaxMs := 0 |}.

Definition emptyWorld : env.World := {| env.database := db.empty; env.log := [] |}.

(** A remote that cannot be reached. *)
Definition unreachable : env.Remote :=
  {| env.listPosts := fun _ _ => api.DoFailed;
     env.getPost := fun _ _ => api.DoFailed;
     env.clock := fun h => Z.of_nat (length h);
     env.clipboardWriteAll := fun _ _ => false |}.

(** A store with the post [p1] and its details. *)
Definition storedWorld : env.World :=
  {| env.database :=
       db.SavePostDetails "p1" "Hi there" "null"
         (db.SavePost 1 (samplePost "p1" "A" "first") db.empty);
     env.log := [] |}.

(** A browser on the first page of a campaign, with the post [p1] listed
    and a next page at the cursor [c2]. *)
Definition browsing (st : ui.viewState) : ui.Model :=
  {| ui.state := st;
     ui.posts := [ui.setDetailsCached true (models.FromPostData (samplePostData "p1" 5))];
     ui.cursor := 0; ui.hasDatabase := true; ui.input := "1"; ui.err := None;
     ui.width := 80; ui.height := 24; ui.campaignID := "1";
     ui.loadingMsg := ui.LoadingNone; ui.postDetails := None;
     ui.cachedDetails := None; ui.clipboardLinks := []; ui.clipboardCursor := 0;
     ui.linkCursor := 0; ui.statusMessage := ui.StatusNone; ui.currentPage := 1;
     ui.nextCursor := "c2"; ui.cursorHistory := []; ui.totalPosts := 0;
     ui.hasMorePages := true |}.

(** A cursor into a sequence of [n] elements: within it, or 0 when the
    sequence is empty. *)
Definition inRange (c n : Z) : Prop := 0 <= c /\ (c < n \/ c = 0).

(** The state invariant of the browser: the clipboard has no duplicates
    and the three cursors are in range. *)
Definition wellFormed (m : ui.Model) : Prop :=
  NoDup (ui.clipboardLinks m) /\
  inRange (ui.clipboardCursor m) (ui.len (ui.clipboardLinks m)) /\
  inRange (ui.cursor m) (ui.len (ui.posts m)) /\
  inRange (ui.linkCursor m) (ui.len (ui.linksOf m)).

(** The outcome of [Update] is a model with the property. *)
Definition yields (P : ui.Model -> Prop)
    (r : option (ui.Model * ui.Cmd) * env.World) : Prop :=
  exists m' c w', r = (Some (m', c), w') /\ P m'.

(** The model after a page-forward key. *)
Definition forwarded (m : ui.Model) : ui.Model :=
  let h1 := if ui.currentPage m =? 1
            then ui.cursorHistory m ++ [""] else ui.cursorHistory m in
  ui.set_loadingMsg (ui.LoadingPage (ui.currentPage m + 1))
    (ui.set_state ui.stateLoading
       (ui.set_currentPage (ui.currentPage m + 1)
          (ui.set_cursorHistory (h1 ++ [ui.nextCursor m]) m))).

(** The model after a page has arrived. *)
Definition arrived (w : env.World) (posts' : list models.Post) (next' : string)
    (more' : bool) (total' : Z) (m : ui.Model) : ui.Model :=
  let ps := if ui.hasDatabase m
            then map (ui.refreshCached (env.database w)) posts' else posts' in
  ui.set_cursor 0
    (ui.set_state ui.stateList
       (ui.set_posts ps
          (ui.set_totalPosts total'
             (ui.set_hasMorePages more'
                (ui.set_nextCursor next' (ui.set_posts posts' m)))))).

(** The model after a page-backward key. *)
Definition backed (m : ui.Model) : ui.Model :=
  ui.set_loadingMsg (ui.LoadingPage (ui.currentPage m - 1))
    (ui.set_state ui.stateLoading
       (ui.set_cursorHistory (removelast (ui.cursorHistory m))
          (ui.set_currentPage (ui.currentPage m - 1) m))).

End aux.

(** ** Further notions of the proofs *)

Module aux2.

(** Details marked as cached are present: neither column is NULL. *)
Definition cachedHasDetails (d : db.Database) : Prop :=
  forall id r, db.posts d !! id = Some r ->
    db.details_cached r = true ->
    is_Some (db.description r) /\ is_Some (db.youtube_links r).

(** The events of the batch workflow run for the campaigns [ids] with the
    delays [mn] and [mx]: requests for a page of 50 posts of one of the
    campaigns, requests for the details of a post, and pauses between
    these bounds; nothing else. *)
Definition batchEvent (ids : list string) (mn mx : Z) (e : env.Event) : Prop :=
  match e with
  | env.EvFetchPosts campaignID count _ => In campaignID ids /\ count = 50
  | env.EvFetchPostDetails _ => True
  | env.EvSleep a b => a = mn /\ b = mx
  | env.EvClipboardWrite _ => False
  end.

(** What a stretch of the batch workflow does to the world: it logs batch
    events, keeps the campaigns and the set of stored posts, and leaves
    every row with cached details as it is. *)
Definition batchStep (ids : list string) (mn mx : Z) (w w' : env.World) : Prop :=
  (exists new, env.log w' = env.log w ++ new /\ Forall (batchEvent ids mn mx) new) /\
  dom (db.posts (env.database w')) = dom (db.posts (env.database w)) /\
  db.campaigns (env.database w') = db.campaigns (env.database w) /\
  (forall id r, db.posts (env.database w) !! id = Some r ->
     db.details_cached r = true ->
     db.posts (env.database w') !! id = Some r).

(** The texts a video id follows in the five patterns: either scheme,
    with or without [www.] on the long domain. *)
Definition urlShapes : list string :=
  [ "https://www.youtube.com/watch?v="; "https://youtube.com/watch?v=";
    "http://www.youtube.com/watch?v=";  "http://youtube.com/watch?v=";
    "https://www.youtube.com/embed/";   "https://youtube.com/embed/";
    "http://www.youtube.com/embed/";    "http://youtube.com/embed/";
    "https://youtu.be/";                "http://youtu.be/";
    "https://www.youtube.com/v/";       "https://youtube.com/v/";
    "http://www.youtube.com/v/";        "http://youtube.com/v/";
    "https://www.youtube.com/shorts/";  "https://youtube.com/shorts/";
    "http://www.youtube.com/shorts/";   "http://youtube.com/shorts/" ].

(** The details of every row of [d] are those of its row in [d'], and so
    is its campaign. *)
Definition keepsDetails (d d' : db.Database) : Prop :=
  forall id r, db.posts d !! id = Some r ->
    exists r', db.posts d' !! id = Some r' /\
      db.description r' = db.description r /\
      db.youtube_links r' = db.youtube_links r /\
      db.details_cached r' = db.details_cached r /\
      db.campaign_id r' = db.campaign_id r.

(** The rows that [d'] has and [d] has not are rows of the campaign
    without details. *)
Definition freshRows (campaignID : string) (d d' : db.Database) : Prop :=
  forall id r', db.posts d' !! id = Some r' -> db.posts d !! id = None ->
    db.campaign_id r' = campaignID /\
    db.description r' = None /\ db.youtube_links r' = None /\
    db.details_cached r' = false.

(** The row holds the summary of the post. *)
Definition summaryOf (post : models.Post) (r : db.PostRow) : Prop :=
  db.type_ r = models.Type_ post /\
  db.post_type r = models.PostType post /\
  db.title r = models.Title post /\
  db.patreon_url r = models.PatreonURL post /\
  db.current_user_can_view r = models.CurrentUserCanView post /\
  db.published_at r = Some (models.PublishedAt post).

(** The page number and the history of cursors of [m'] are those of
    [m]. *)
Definition samePaging (m m' : ui.Model) : Prop :=
  ui.currentPage m' = ui.currentPage m /\
  ui.cursorHistory m' = ui.cursorHistory m.

(** The pagination state is in order: the page number is positive, and
    the history ends with the cursors of the pages 2 to [currentPage],
    behind entries for the first page, which are empty and at least one
    as soon as a page beyond the first is shown. *)
Definition paged (m : ui.Model) : Prop :=
  1 <= ui.currentPage m /\
  exists pre cs,
    ui.cursorHistory m = pre ++ cs /\
    Forall (fun c => c = "") pre /\
    ui.len cs = ui.currentPage m - 1 /\
    (cs <> [] -> pre <> []).

(** The messages of a session applied in turn, as [ui.run] does, with the
    cursor of the last request for a page that [Update] handed back;
    [last] is the one before the session. *)
Fixpoint lastRequest {codec : JSON} (remote : env.Remote)
    (inputUpdate : string -> string -> string) (msgs : list ui.Msg) (m : ui.Model)
    (last : option string) : env.M (option (ui.Model * option string)) :=
  match msgs with
  | [] => env.ret (Some (m, last))
  | msg :: rest =>
      env.bind (ui.Update remote inputUpdate m msg)
        (fun r =>
           match r with
           | Some (m', ui.CmdFetchPosts c) =>
               lastRequest remote inputUpdate rest m' (Some c)
           | Some (m', _) => lastRequest remote inputUpdate rest m' last
           | None => env.ret None
           end)
  end.

End aux2.

(** * Properties *)

Import aux.

(** ** Link extraction *)

Example extract_scenario_A :
  api.ExtractYouTubeLinks
    "Check https://youtu.be/dQw4w9WgXcQ and https://www.youtube.com/watch?v=dQw4w9WgXcQ&feature=share"
  = ["https://www.youtube.com/watch?v=dQw4w9WgXcQ"].
Proof. vm_compute. reflexivity. Qed.

Section RegexpFacts.
Import regexp.

Lemma seqCandidates_in first next (c : candidate) :
  In c (seqCandidates first next) ->
  exists m1 g1 t1 m2 g2 t2,
    In (m1, g1, t1) first /\ In (m2, g2, t2) (next t1) /\
    c = (m1 ++ m2, g1 ++ g2, t2).
Proof.
  unfold seqCandidates. rewrite in_flat_map.
  intros [[[m1 g1] t1] [H1 H2]]. rewrite in_map_iff in H2.
  destruct H2 as [[[m2 g2] t2] [<- H2]].
  exists m1, g1, t1, m2, g2, t2. auto.
Qed.

Lemma isPrefix_Some (p : bytes) : forall s t : bytes, isPrefix p s = Some t -> s = p ++ t.
Proof.
  induction p as [|a p IH]; intros s t; cbn [isPrefix].
  - intros [= ->]. reflexivity.
  - destruct s as [|b s]; [discriminate|].
    destruct (Ascii.eqb_spec a b) as [->|]; [|discriminate].
    intros H. rewrite (IH _ _ H). reflexivity.
Qed.

Lemma isPrefix_None_prefix (p s suf : bytes) :
  isPrefix p (s ++ suf) = None -> isPrefix p s = None.
Proof.
  revert s. induction p as [|a p IH]; intros s; cbn [isPrefix]; [discriminate|].
  destruct s as [|b s]; cbn [app]; [destruct suf; reflexivity|].
  destruct (Ascii.eqb a b); [apply IH|reflexivity].
Qed.

Lemma starGreedy_split p s : forall m t, In (m, t) (starGreedy p s) -> s = m ++ t.
Proof.
  induction s as [|c s IH]; intros m t; cbn [starGreedy].
  - intros [[= <- <-]|[]]. reflexivity.
  - destruct (p c).
    + intros H. apply in_app_or in H as [H|[[= <- <-]|[]]]; [|reflexivity].
      apply in_map_iff in H as ([m' t'] & [= <- <-] & H). cbn.
      rewrite (IH _ _ H) at 1. reflexivity.
    + intros [[= <- <-]|[]]. reflexivity.
Qed.

Lemma starLazy_split p s : forall m t, In (m, t) (starLazy p s) -> s = m ++ t.
Proof.
  induction s as [|c s IH]; intros m t; cbn [starLazy].
  - intros [[= <- <-]|[]]. reflexivity.
  - destruct (p c).
    + intros [[= <- <-]|H]; [reflexivity|].
      apply in_map_iff in H as ([m' t'] & [= <- <-] & H). cbn.
      rewrite (IH _ _ H) at 1. reflexivity.
    + intros [[= <- <-]|[]]. reflexivity.
Qed.

(** A candidate splits the input into the text matched and the rest. *)
Lemma candidates_split r : forall s m g t,
  In (m, g, t) (candidates r s) -> s = m ++ t.
Proof.
  induction r as [c|c|p|r1 IH1 r2 IH2|r1 IH1|r1 IH1|n r1 IH1|p|p|p];
    cbn [candidates]; intros s m g t Hin.
  - destruct s as [|c' s]; [destruct Hin|].
    destruct (Ascii.eqb c c'); [|destruct Hin].
    destruct Hin as [[= <- _ <-]|[]]. reflexivity.
  - rewrite in_flat_map in Hin. destruct Hin as [enc [_ Hin]].
    destruct (isPrefix enc s) as [t'|] eqn:Hp; [|destruct Hin].
    destruct Hin as [[= <- _ <-]|[]]. apply isPrefix_Some, Hp.
  - destruct s as [|c' s]; [destruct Hin|].
    destruct (p c'); [|destruct Hin].
    destruct Hin as [[= <- _ <-]|[]]. reflexivity.
  - apply seqCandidates_in in Hin
      as (m1 & g1 & t1 & m2 & g2 & t2 & H1 & H2 & [= -> _ ->]).
    rewrite (IH1 _ _ _ _ H1), (IH2 _ _ _ _ H2), app_assoc. reflexivity.
  - apply in_app_or in Hin as [Hin|[[= <- _ <-]|[]]]; [|reflexivity].
    eapply IH1; eauto.
  - apply in_map_iff in Hin as ([[m' g'] t'] & [= <- _ <-] & Hin).
    eapply IH1; eauto.
  - revert s m g t Hin. induction n as [|n IHn]; intros s m g t Hin.
    + destruct Hin as [[= <- _ <-]|[]]. reflexivity.
    + apply seqCandidates_in in Hin
        as (m1 & g1 & t1 & m2 & g2 & t2 & H1 & H2 & [= -> _ ->]).
      rewrite (IH1 _ _ _ _ H1), (IHn _ _ _ _ H2), app_assoc. reflexivity.
  - apply in_map_iff in Hin as ([m' t'] & [= <- _ <-] & Hin).
    apply starGreedy_split with p, Hin.
  - apply in_map_iff in Hin as ([m' t'] & [= <- _ <-] & Hin).
    apply starLazy_split with p, Hin.
  - destruct s as [|c' s]; [destruct Hin|].
    destruct (p c'); [|destruct Hin].
    apply in_map_iff in Hin as ([m' t'] & [= <- _ <-] & Hin). cbn.
    rewrite (starGreedy_split p s _ _ Hin) at 1. reflexivity.
Qed.

Lemma groupless_no_groups r :
  groupless r = true ->
  forall s m g t, In (m, g, t) (candidates r s) -> g = [].
Proof.
  induction r as [c|c|p|r1 IH1 r2 IH2|r1 IH1|r1 IH1|n r1 IH1|p|p|p];
    cbn [groupless candidates]; intros Hg s m g t Hin.
  - destruct s as [|c' s]; [destruct Hin|].
    destruct (Ascii.eqb c c'); [|destruct Hin].
    destruct Hin as [[= _ <- _]|[]]. reflexivity.
  - rewrite in_flat_map in Hin. destruct Hin as [enc [_ Hin]].
    destruct (isPrefix enc s); [|destruct Hin].
    destruct Hin as [[= _ <- _]|[]]. reflexivity.
  - destruct s as [|c' s]; [destruct Hin|].
    destruct (p c'); [|destruct Hin].
    destruct Hin as [[= _ <- _]|[]]. reflexivity.
  - apply andb_prop in Hg as [Hg1 Hg2].
    apply seqCandidates_in in Hin
      as (m1 & g1 & t1 & m2 & g2 & t2 & H1 & H2 & [= _ -> _]).
    rewrite (IH1 Hg1 _ _ _ _ H1), (IH2 Hg2 _ _ _ _ H2). reflexivity.
  - apply in_app_or in Hin as [Hin|[[= _ <- _]|[]]]; [|reflexivity].
    eapply IH1; eauto.
  - discriminate Hg.
  - revert s m g t Hin. induction n as [|n IHn]; intros s m g t Hin.
    + destruct Hin as [[= _ <- _]|[]]. reflexivity.
    + apply seqCandidates_in in Hin
        as (m1 & g1 & t1 & m2 & g2 & t2 & H1 & H2 & [= _ -> _]).
      rewrite (IH1 Hg _ _ _ _ H1), (IHn _ _ _ _ H2). reflexivity.
  - rewrite in_map_iff in Hin. destruct Hin as [mr [[= _ <- _] _]]. reflexivity.
  - rewrite in_map_iff in Hin. destruct Hin as [mr [[= _ <- _] _]]. reflexivity.
  - destruct s as [|c' s]; [destruct Hin|].
    destruct (p c'); [|destruct Hin].
    rewrite in_map_iff in Hin. destruct Hin as [mr [[= _ <- _] _]]. reflexivity.
Qed.

(** A counted repetition of a class matches exactly that many bytes of it. *)
Lemma repeat_class_candidates p n :
  forall s m g t, In (m, g, t) (candidates (Repeat n (Class p)) s) ->
    length m = n /\ Forall (fun c => p c = true) m /\ g = [].
Proof.
  cbn [candidates].
  induction n as [|n IHn]; intros s m g t Hin.
  - destruct Hin as [[= <- <- _]|[]]. auto.
  - apply seqCandidates_in in Hin
      as (m1 & g1 & t1 & m2 & g2 & t2 & H1 & H2 & [= -> -> _]).
    apply IHn in H2 as (Hl & Hf & ->).
    destruct s as [|c' s]; [destruct H1|]. cbn in H1.
    destruct (p c') eqn:Hp; [|destruct H1].
    destruct H1 as [[= <- <- _]|[]]. cbn. rewrite Hl. auto.
Qed.

Lemma capturesID_videoID : capturesID api.videoID.
Proof.
  intros s m g t Hin. unfold api.videoID in Hin. cbn [candidates] in Hin.
  rewrite in_map_iff in Hin. destruct Hin as [[[m' g'] t'] [[= <- <- _] Hin]].
  apply (repeat_class_candidates api.idChar 11) in Hin as (Hl & Hf & ->).
  exists m'. auto.
Qed.

Lemma capturesID_cat r1 r2 :
  groupless r1 = true -> capturesID r2 -> capturesID (Cat r1 r2).
Proof.
  intros Hg H2 s m g t Hin. cbn [candidates] in Hin.
  apply seqCandidates_in in Hin
    as (m1 & g1 & t1 & m2 & g2 & t2 & Hin1 & Hin2 & [= _ -> _]).
  rewrite (groupless_no_groups _ Hg _ _ _ _ Hin1).
  exact (H2 _ _ _ _ Hin2).
Qed.

Lemma capturesID_patterns r : In r api.youtubePatterns -> capturesID r.
Proof.
  intros Hin. cbn in Hin.
  repeat (destruct Hin as [<-|Hin];
          [repeat (apply capturesID_cat; [reflexivity|]); apply capturesID_videoID|]).
  destruct Hin.
Qed.

Lemma findAll_captures r (Hr : capturesID r) s skip match_ :
  In match_ (findAll r s skip) ->
  exists full id, match_ = [full; id] /\ length id = 11%nat /\
                  Forall (fun c => api.idChar c = true) id.
Proof.
  revert skip. induction s as [|c s IH]; intros skip Hin; [destruct Hin|].
  cbn [findAll] in Hin. destruct skip as [|k]; [|eauto].
  destruct (candidates r (c :: s)) as [|[[m g] t] cs] eqn:Hc; [eauto|].
  destruct Hin as [<-|Hin]; [|eauto].
  destruct (Hr (c :: s) m g t) as (id & -> & Hid); [rewrite Hc; left; reflexivity|].
  exists m, id. auto.
Qed.

End RegexpFacts.

Lemma length_string_of_list_ascii (l : bytes) :
  String.length (string_of_list_ascii l) = length l.
Proof. induction l as [|c l IH]; cbn; congruence. Qed.

Lemma FindAllStringSubmatch_patterns r content match_ :
  In r api.youtubePatterns ->
  In match_ (regexp.FindAllStringSubmatch r content) ->
  exists full id, match_ = [full; id] /\ spec.validID id.
Proof.
  intros Hr Hin. unfold regexp.FindAllStringSubmatch in Hin.
  rewrite in_map_iff in Hin. destruct Hin as [raw [<- Hin]].
  apply findAll_captures in Hin as (full & id & -> & Hl & Hf);
    [|apply capturesID_patterns, Hr].
  exists (string_of_list_ascii full), (string_of_list_ascii id).
  split; [reflexivity|]. split.
  - rewrite length_string_of_list_ascii. exact Hl.
  - rewrite list_ascii_of_string_of_list_ascii. exact Hf.
Qed.

Section FirstSeen.

Lemma firstSeen_subset l x : x ∈ spec.firstSeen l -> x ∈ l.
Proof.
  revert x. induction l as [|y l IH]; cbn; intros x Hx; [exact Hx|].
  apply elem_of_cons in Hx as [->|Hx]; [left|].
  apply list_elem_of_filter in Hx as [_ Hx]. right. auto.
Qed.

Lemma firstSeen_complete l x : x ∈ l -> x ∈ spec.firstSeen l.
Proof.
  induction l as [|y l IH]; cbn; intros Hx; [exact Hx|].
  destruct (decide (x = y)) as [->|Hne]; [left|].
  apply elem_of_cons in Hx as [->|Hx]; [congruence|].
  right. apply list_elem_of_filter. auto.
Qed.

Lemma firstSeen_NoDup l : NoDup (spec.firstSeen l).
Proof.
  induction l as [|y l IH]; cbn; [constructor|].
  constructor; [|apply NoDup_filter, IH].
  intros Hin. apply list_elem_of_filter in Hin as [Hne _]. congruence.
Qed.

Lemma fold_noteID l : forall acc,
  fold_left noteID l acc = acc ++ filter (fun y => y ∉ acc) (spec.firstSeen l).
Proof.
  induction l as [|x l IH]; intros acc; cbn [fold_left spec.firstSeen].
  - cbn. rewrite app_nil_r. reflexivity.
  - rewrite IH. unfold noteID. case_bool_decide as Hx.
    + f_equal. rewrite filter_cons_False by (intros Hn; exact (Hn Hx)).
      rewrite list_filter_filter. apply list_filter_iff.
      intros y. cbn. split; [|intros [Hy _]; exact Hy].
      intros Hy. split; [exact Hy|congruence].
    + rewrite filter_cons_True by exact Hx.
      rewrite <- app_assoc. cbn. do 2 f_equal.
      rewrite list_filter_filter. apply list_filter_iff.
      intros y. cbn. rewrite elem_of_app, list_elem_of_singleton. tauto.
Qed.

Lemma fold_noteID_nil l : fold_left noteID l [] = spec.firstSeen l.
Proof.
  rewrite fold_noteID. cbn.
  induction (spec.firstSeen l) as [|y ys IH]; [reflexivity|].
  rewrite filter_cons_True by apply not_elem_of_nil. f_equal. exact IH.
Qed.

End FirstSeen.

Lemma recordMatch_tracks st acc full id :
  tracks st acc -> tracks (api.recordMatch st [full; id]) (noteID acc id).
Proof.
  destruct st as [seen links]. intros [Hl Hs]. cbn in Hl, Hs.
  unfold api.recordMatch, noteID. cbn [length nth Nat.leb].
  destruct (default false (seen !! id)) eqn:Hd; cbn [negb].
  - rewrite bool_decide_eq_true_2 by (apply Hs; exact Hd). split; assumption.
  - rewrite bool_decide_eq_false_2
      by (intros Hin; apply Hs in Hin; congruence).
    split; cbn.
    + rewrite map_app, Hl. reflexivity.
    + intros id'. rewrite elem_of_app, list_elem_of_singleton.
      destruct (decide (id = id')) as [->|Hne].
      * rewrite lookup_insert_eq. cbn. tauto.
      * rewrite lookup_insert_ne by exact Hne. rewrite Hs.
        split; [tauto|]. intros [H|H]; [exact H|congruence].
Qed.

Lemma fold_recordMatch_tracks ms : forall st acc,
  (forall m, In m ms -> exists full id, m = [full; id]) ->
  tracks st acc ->
  tracks (fold_left api.recordMatch ms st)
         (fold_left noteID (map (fun m => nth 1 m "") ms) acc).
Proof.
  induction ms as [|m ms IH]; intros st acc Hms Ht; cbn [fold_left map]; [exact Ht|].
  destruct (Hms m) as (full & id & ->); [left; reflexivity|].
  apply IH; [intros m' Hm'; apply Hms; right; exact Hm'|].
  cbn [nth]. apply recordMatch_tracks, Ht.
Qed.

Lemma fold_patterns_tracks content ps : forall st acc,
  (forall r, In r ps -> In r api.youtubePatterns) ->
  tracks st acc ->
  tracks (fold_left (fun st pattern =>
            fold_left api.recordMatch
              (regexp.FindAllStringSubmatch pattern content) st) ps st)
         (fold_left noteID
            (flat_map (fun pattern =>
               map (fun m => nth 1 m "")
                   (regexp.FindAllStringSubmatch pattern content)) ps) acc).
Proof.
  induction ps as [|r ps IH]; intros st acc Hps Ht; cbn [fold_left flat_map]; [exact Ht|].
  rewrite fold_left_app. apply IH; [intros r' Hr'; apply Hps; right; exact Hr'|].
  apply fold_recordMatch_tracks; [|exact Ht].
  intros m Hm.
  destruct (FindAllStringSubmatch_patterns r content m) as (full & id & -> & _);
    [apply Hps; left; reflexivity|exact Hm|eauto].
Qed.

Lemma scannedIDs_valid content id : id ∈ spec.scannedIDs content -> spec.validID id.
Proof.
  unfold spec.scannedIDs. rewrite list_elem_of_In, in_flat_map.
  intros (r & Hr & Hin). rewrite in_map_iff in Hin. destruct Hin as (m & <- & Hm).
  destruct (FindAllStringSubmatch_patterns r content m Hr Hm) as (full & id' & -> & Hv).
  exact Hv.
Qed.

(** C1.  [ExtractYouTubeLinks] returns the canonical watch URLs of the ids
    met by the scan (the five patterns in the order of [youtubePatterns],
    each from left to right), every id kept once at its first occurrence;
    the ids are pairwise distinct and each is eleven bytes of
    [[A-Za-z0-9_-]]. *)
Theorem ExtractYouTubeLinks_canonical_first_seen (content : string) :
  let ids := spec.firstSeen (spec.scannedIDs content) in
  api.ExtractYouTubeLinks content = map spec.canonical ids /\
  NoDup ids /\
  Forall spec.validID ids /\
  NoDup (api.ExtractYouTubeLinks content).
Proof.
  intros ids.
  assert (Heq : api.ExtractYouTubeLinks content = map spec.canonical ids).
  { unfold api.ExtractYouTubeLinks.
    destruct (fold_patterns_tracks content api.youtubePatterns (∅, []) [])
      as [Hl _]; [auto| |].
    - split; [reflexivity|]. intros id. cbn [fst]. rewrite lookup_empty. cbn.
      split; [discriminate|]. intros H. apply not_elem_of_nil in H. destruct H.
    - rewrite Hl, fold_noteID_nil. reflexivity. }
  assert (Hnd : NoDup ids) by apply firstSeen_NoDup.
  split; [exact Heq|]. split; [exact Hnd|]. split.
  - apply Forall_forall. intros id Hid.
    apply scannedIDs_valid with content, firstSeen_subset, Hid.
  - rewrite Heq. apply NoDup_fmap_2; [|exact Hnd].
    intros a b Hab. unfold spec.canonical in Hab.
    now apply String.app_inj in Hab.
Qed.

(** ** The posts table *)

Section StoreFacts.
Import db.

Lemma GetPost_SavePost_other now post d id :
  id <> ID post -> GetPost id (SavePost now post d) = GetPost id d.
Proof.
  intros Hne. unfold GetPost, SavePost. cbn.
  rewrite lookup_insert_ne by congruence. reflexivity.
Qed.

Lemma SavePost_row now post d :
  exists row, posts (SavePost now post d) !! ID post = Some row /\
    type_ row = Type_ post /\ post_type row = PostType post /\
    title row = Title post /\ patreon_url row = PatreonURL post /\
    current_user_can_view row = CurrentUserCanView post /\
    published_at row = Some (PublishedAt post) /\ cached_at row = now /\
    match posts d !! ID post with
    | Some old =>
        campaign_id row = campaign_id old /\
        description row = description old /\
        youtube_links row = youtube_links old /\
        details_cached row = details_cached old
    | None =>
        campaign_id row = CampaignID post /\
        description row = None /\ youtube_links row = None /\
        details_cached row = false
    end.
Proof.
  unfold SavePost. cbn. rewrite lookup_insert_eq.
  eexists. split; [reflexivity|].
  destruct (posts d !! ID post) as [old|]; cbn; repeat split; reflexivity.
Qed.

End StoreFacts.

(** C7, as the code has it.  [SavePost] writes the row of the post's id
    and no other.  For an id already stored, the description, the links and
    the details flag stay as they were, and so does the campaign id, which
    the conflict branch does not assign; type, post type, title, URL,
    visibility and publish time take the values of the call.  For a new id
    every summary field, the campaign id included, takes the value of the
    call, description and links are empty and the details flag is false. *)
Theorem SavePost_writes_summary_only (now : models.Time) (post : db.CachedPost)
    (d : db.Database) :
  (exists new, db.GetPost (db.ID post) (db.SavePost now post d) = Some new /\
     db.ID new = db.ID post /\
     db.Type_ new = db.Type_ post /\ db.PostType new = db.PostType post /\
     db.Title new = db.Title post /\ db.PatreonURL new = db.PatreonURL post /\
     db.CurrentUserCanView new = db.CurrentUserCanView post /\
     db.PublishedAt new = db.PublishedAt post /\
     match db.GetPost (db.ID post) d with
     | Some old =>
         db.Description new = db.Description old /\
         db.YouTubeLinks new = db.YouTubeLinks old /\
         db.DetailsCached new = db.DetailsCached old /\
         db.CampaignID new = db.CampaignID old
     | None =>
         db.Description new = "" /\ db.YouTubeLinks new = "" /\
         db.DetailsCached new = false /\
         db.CampaignID new = db.CampaignID post
     end) /\
  (forall id, id <> db.ID post ->
     db.GetPost id (db.SavePost now post d) = db.GetPost id d) /\
  db.campaigns (db.SavePost now post d) = db.campaigns d.
Proof.
  split; [|split; [intros id Hne; apply GetPost_SavePost_other, Hne|reflexivity]].
  destruct (SavePost_row now post d)
    as (row & Hrow & Ht & Hpt & Hti & Hu & Hv & Hp & _ & Hold).
  exists (db.scanRow (db.ID post) row). unfold db.GetPost. rewrite Hrow. cbn.
  split; [reflexivity|]. rewrite Ht, Hpt, Hti, Hu, Hv, Hp. cbn.
  do 7 (split; [reflexivity|]).
  destruct (db.posts d !! db.ID post) as [old|]; cbn.
  - destruct Hold as (-> & -> & -> & ->). auto.
  - destruct Hold as (-> & -> & -> & ->). auto.
Qed.

(** C7 as stated fails on the campaign id: a second [SavePost] of the same
    id under another campaign leaves the stored campaign id as it was. *)
Lemma SavePost_campaign_not_updated :
  let d := db.SavePost 1 (samplePost "p1" "A" "first") db.empty in
  let post := samplePost "p1" "B" "second" in
  exists new, db.GetPost "p1" (db.SavePost 2 post d) = Some new /\
              db.Title new = db.Title post /\
              db.CampaignID new = "A" /\
              db.CampaignID new <> db.CampaignID post.
Proof.
  eexists. split; [vm_compute; reflexivity|].
  split; [reflexivity|]. split; [reflexivity|]. discriminate.
Qed.

(** C8.  For an id in the store, [GetPost] after [SavePostDetails] gives a
    post with exactly the description and the link string saved and the
    details flag set; so a link sequence that the codec reads back from its
    own encoding is read back from the stored string, in its order. *)
Theorem SavePostDetails_GetPost_roundtrip {codec : JSON} (d : db.Database)
    (postID description youtubeLinks : string) :
  is_Some (db.posts d !! postID) ->
  exists p, db.GetPost postID (db.SavePostDetails postID description youtubeLinks d) = Some p /\
    db.ID p = postID /\
    db.Description p = description /\
    db.YouTubeLinks p = youtubeLinks /\
    db.DetailsCached p = true /\
    (forall links : list string,
       youtubeLinks = Marshal links ->
       Unmarshal (Marshal links) = (links, true) ->
       Unmarshal (db.YouTubeLinks p) = (links, true)).
Proof.
  intros [row Hrow]. unfold db.GetPost, db.SavePostDetails. cbn.
  rewrite lookup_alter_eq, Hrow. cbn.
  eexists. split; [reflexivity|]. cbn.
  repeat split. intros links -> Hrt. exact Hrt.
Qed.

Lemma SavePostDetails_GetPost_roundtrip_witness :
  let d := db.SavePost 1 (samplePost "p1" "A" "first") db.empty in
  let links := ["https://www.youtube.com/watch?v=dQw4w9WgXcQ";
                "https://www.youtube.com/watch?v=aaaaaaaaaaa"] in
  is_Some (db.posts d !! "p1") /\
  exists p, db.GetPost "p1"
              (db.SavePostDetails "p1" "Hi there" (json.referenceMarshal links) d) = Some p /\
    db.ID p = "p1" /\
    db.Description p = "Hi there" /\
    db.YouTubeLinks p = json.referenceMarshal links /\
    db.DetailsCached p = true /\
    (forall links' : list string,
       json.referenceMarshal links = json.referenceMarshal links' ->
       json.referenceUnmarshal (json.referenceMarshal links') = (links', true) ->
       json.referenceUnmarshal (db.YouTubeLinks p) = (links', true)).
Proof.
  intros d links.
  assert (H : is_Some (db.posts d !! "p1")) by (vm_compute; eauto).
  split; [exact H|].
  exact (@SavePostDetails_GetPost_roundtrip json.reference d "p1" "Hi there"
           (json.referenceMarshal links) H).
Defined.

(** ** The next link of a page *)

(** C3, as the code has it.  [HasMore] tells that the response has a
    non-empty next link, whatever the link is worth: for a link that does
    not parse or has no [page[cursor]] value the page has [HasMore] and an
    empty [NextCursor].  Without a next link the page has neither. *)
Theorem pageOfResponse_HasMore_is_next_present {parser : url.Parser}
    (patreonResp : models.PatreonResponse) :
  let page := api.pageOfResponse patreonResp in
  let next := models.LinksNext patreonResp in
  (models.HasMore page = true <-> next <> "") /\
  (next = "" -> models.NextCursor page = "") /\
  (url.Parse next = None -> models.NextCursor page = "") /\
  (forall u, next <> "" -> url.Parse next = Some u ->
     models.NextCursor page = url.Get (url.Query u) "page[cursor]") /\
  models.Posts page = map models.FromPostData (models.Data patreonResp).
Proof.
  cbn. unfold api.extractCursorFromURL.
  destruct (String.eqb_spec (models.LinksNext patreonResp) "") as [He|Hne]; cbn.
  - repeat split; try (intros; congruence).
  - repeat split; try (intros; congruence).
    + intros ->. reflexivity.
    + intros u _ ->. reflexivity.
Qed.

(** C3 as stated fails: a next link without a cursor, and one that does not
    parse, both give [HasMore] with no cursor to go on with. *)
Lemma HasMore_with_unusable_next :
  let noCursor :=
    {| models.Data := [];
       models.LinksNext := "https://www.patreon.com/api/campaigns/1/posts?page%5Bcount%5D=20" |} in
  let unparseable :=
    {| models.Data := []; models.LinksNext := String "010" "https://www.patreon.com/" |} in
  let page1 := @api.pageOfResponse url.referenceParse noCursor in
  let page2 := @api.pageOfResponse url.referenceParse unparseable in
  (models.HasMore page1 = true /\ models.NextCursor page1 = "") /\
  (url.referenceParse (models.LinksNext unparseable) = None /\
   models.HasMore page2 = true /\ models.NextCursor page2 = "").
Proof. vm_compute. repeat split; reflexivity. Qed.

(** ** The batch workflow *)

Ltac world :=
  unfold env.bind, env.ret, env.emit, env.history, env.query, env.exec,
    cli.randomDelay, client.FetchPosts, client.FetchPostDetails, client.now in *;
  cbn [fst snd env.log env.database] in *.

Section BatchFacts.
Import models env.
Context {parser : url.Parser} {codec : JSON} (remote : Remote).

Lemma postsCursors_app l1 l2 :
  postsCursors (l1 ++ l2) = postsCursors l1 ++ postsCursors l2.
Proof. unfold postsCursors. apply omap_app. Qed.

Lemma detailFetches_app l1 l2 :
  detailFetches (l1 ++ l2) = detailFetches l1 ++ detailFetches l2.
Proof. unfold detailFetches. apply omap_app. Qed.

Lemma quiet_nil ids : quiet ids [].
Proof. split; [reflexivity|]. intros id H. apply not_elem_of_nil in H. destruct H. Qed.

Lemma quiet_weaken ids id0 new : quiet ids new -> quiet (id0 :: ids) new.
Proof. intros [H1 H2]. split; [exact H1|]. intros id H. right. auto. Qed.

Lemma quiet_fetch ids id0 mn mx new :
  quiet ids new ->
  quiet (id0 :: ids) (([EvFetchPostDetails id0] ++ [EvSleep mn mx]) ++ new).
Proof.
  intros [H1 H2]. split.
  - rewrite !postsCursors_app, H1. reflexivity.
  - intros id. rewrite !detailFetches_app. cbn.
    intros H. apply elem_of_cons in H as [->|H]; [left|right; auto].
Qed.

Lemma fetchDetails_quiet post mn mx k ids :
  (forall links w, exists new, log (snd (k links w)) = log w ++ new /\ quiet ids new) ->
  forall links w, exists new,
    log (snd (cli.fetchDetails remote post mn mx links k w)) = log w ++ new /\
    quiet (ID post :: ids) new.
Proof.
  intros Hk links w. unfold cli.fetchDetails. world. cbn.
  destruct (api.liftExchange _ _) as [e|details]; cbn.
  - edestruct Hk as (new & -> & Hn). cbn.
    exists (([EvFetchPostDetails (ID post)] ++ [EvSleep mn mx]) ++ new).
    split; [rewrite <- !app_assoc; reflexivity|]. apply quiet_fetch, Hn.
  - edestruct Hk as (new & -> & Hn). cbn.
    exists (([EvFetchPostDetails (ID post)] ++ [EvSleep mn mx]) ++ new).
    split; [rewrite <- !app_assoc; reflexivity|]. apply quiet_fetch, Hn.
Qed.

(** Processing the posts of a page fetches no page, and details of these
    posts only. *)
Lemma processPosts_quiet posts filterDate mn mx : forall links w,
  exists new,
    log (snd (cli.processPosts remote posts filterDate mn mx links w)) = log w ++ new /\
    quiet (map ID posts) new.
Proof.
  induction posts as [|post rest IH]; intros links w; cbn [cli.processPosts map].
  - exists []. world. rewrite app_nil_r. split; [reflexivity|apply quiet_nil].
  - destruct (negb (IsZero filterDate) && Before (PublishedAt post) filterDate).
    { exists []. world. rewrite app_nil_r. split; [reflexivity|apply quiet_nil]. }
    unfold env.bind at 1. unfold env.query.
    destruct (db.GetPost (ID post) (database w)) as [c|];
      [destruct (db.DetailsCached c)|].
    + destruct (IH (cli.cachedLinks c links) w) as (new & Hl & Hq).
      exists new. split; [exact Hl|apply quiet_weaken, Hq].
    + apply fetchDetails_quiet, IH.
    + apply fetchDetails_quiet, IH.
Qed.

Lemma processPosts_no_page_fetch posts filterDate mn mx links w :
  exists new,
    log (snd (cli.processPosts remote posts filterDate mn mx links w)) = log w ++ new /\
    postsCursors new = [].
Proof.
  destruct (processPosts_quiet posts filterDate mn mx links w) as (new & H & Hq & _).
  eauto.
Qed.

(** The page fetches of [pageLoop]: the first with the cursor given, the
    later ones with cursors that are not empty. *)
Lemma pageLoop_cursors campaignID filterDate mn mx fuel : forall cursor links w,
  exists rest,
    postsCursors (log (snd (cli.pageLoop remote fuel campaignID filterDate mn mx
                              cursor links w)))
    = postsCursors (log w) ++ match fuel with O => [] | S _ => cursor :: rest end /\
    Forall (fun c => c <> "") rest.
Proof.
  induction fuel as [|fuel IH]; intros cursor links w; cbn [cli.pageLoop].
  - exists []. world. rewrite app_nil_r. auto.
  - world. cbn. destruct (api.liftExchange _ _) as [e|page]; cbn.
    + exists []. rewrite postsCursors_app. auto.
    + match goal with
      | |- context [cli.processPosts ?r ?ps ?fd ?a ?b ?l ?w1] =>
          destruct (processPosts_no_page_fetch ps fd a b l w1) as (new & Hlog & Hnew);
          destruct (cli.processPosts r ps fd a b l w1) as [[returned links'] w2] eqn:Hp
      end.
      cbn in Hlog.
      assert (Hw2 : postsCursors (log w2) = postsCursors (log w) ++ [cursor]).
      { rewrite Hlog, !postsCursors_app, Hnew. cbn. rewrite !app_nil_r. reflexivity. }
      destruct returned; [exists []; cbn; auto|].
      destruct (negb (HasMore page) || String.eqb (NextCursor page) "") eqn:Hstop;
        [exists []; cbn; auto|].
      apply orb_false_elim in Hstop as [_ Hne].
      destruct (IH (NextCursor page) links' w2) as (rest & Hrest & Hall).
      rewrite Hrest, Hw2, <- app_assoc. cbn.
      destruct fuel; [exists []; auto|].
      exists (NextCursor page :: rest). split; [reflexivity|].
      constructor; [|exact Hall]. intros Heq. rewrite Heq in Hne. discriminate.
Qed.

(** A page without a usable continuation is the last one fetched. *)
Lemma pageLoop_last_page campaignID filterDate mn mx fuel cursor links w page :
  fst (client.FetchPosts remote campaignID 50 cursor w) = inr page ->
  HasMore page = false \/ NextCursor page = "" ->
  exists links',
    fst (cli.pageLoop remote (S fuel) campaignID filterDate mn mx cursor links w)
      = Some (links', None) /\
    postsCursors (log (snd (cli.pageLoop remote (S fuel) campaignID filterDate mn mx
                              cursor links w)))
      = postsCursors (log w) ++ [cursor].
Proof.
  intros Hfetch Hlast. cbn [cli.pageLoop]. world. cbn in *. rewrite Hfetch. cbn.
  match goal with
  | |- context [cli.processPosts ?r ?ps ?fd ?a ?b ?l ?w1] =>
      destruct (processPosts_no_page_fetch ps fd a b l w1) as (new & Hlog & Hnew);
      destruct (cli.processPosts r ps fd a b l w1) as [[returned links'] w2] eqn:Hp
  end.
  cbn in Hlog.
  assert (Hw2 : postsCursors (log w2) = postsCursors (log w) ++ [cursor]).
  { rewrite Hlog, !postsCursors_app, Hnew. cbn. rewrite !app_nil_r. reflexivity. }
  exists links'. destruct returned; [cbn; auto|].
  assert (Hstop : negb (HasMore page) || String.eqb (NextCursor page) "" = true).
  { destruct Hlast as [->| ->]; [reflexivity|]. apply orb_true_r. }
  rewrite Hstop. cbn. auto.
Qed.

Lemma fetchDetails_ext post mn mx k1 k2 (f : bool * list string * World -> bool * list string * World) :
  (forall links w, k1 links w = f (k2 links w)) ->
  forall links w,
    cli.fetchDetails remote post mn mx links k1 w
    = f (cli.fetchDetails remote post mn mx links k2 w).
Proof.
  intros Hk links w. unfold cli.fetchDetails. world. cbn.
  destruct (api.liftExchange _ _) as [e|details]; cbn; apply Hk.
Qed.

(** The loop over a page returns at the first post before the cutoff: the
    posts after it play no part. *)
Lemma processPosts_returns_at_cutoff filterDate mn mx post suf pre :
  IsZero filterDate = false ->
  Before (PublishedAt post) filterDate = true ->
  Forall (fun p => Before (PublishedAt p) filterDate = false) pre ->
  forall links w,
    cli.processPosts remote (pre ++ post :: suf) filterDate mn mx links w
    = (let '(_, links', w') := cli.processPosts remote pre filterDate mn mx links w in
       (true, links', w')).
Proof.
  intros Hz Hb. induction pre as [|p pre IH]; intros Hpre links w.
  - cbn. rewrite Hz, Hb. reflexivity.
  - inversion Hpre as [|? ? Hp Hpre']; subst.
    cbn [app cli.processPosts]. rewrite Hp, andb_false_r.
    unfold env.bind, env.query.
    set (f := fun r : bool * list string * World =>
                let '(_, links', w') := r in (true, links', w')).
    assert (Hk : forall links w,
               cli.processPosts remote (pre ++ post :: suf) filterDate mn mx links w
               = f (cli.processPosts remote pre filterDate mn mx links w))
      by (intros; apply IH, Hpre').
    destruct (db.GetPost (ID p) (database w)) as [c|];
      [destruct (db.DetailsCached c)|].
    + apply Hk.
    + apply (fetchDetails_ext p mn mx _ _ f Hk).
    + apply (fetchDetails_ext p mn mx _ _ f Hk).
Qed.

(** C2, as the code has it.  With a cutoff that is not the zero time, a
    page whose first post before the cutoff is [post] ends the scan of the
    campaign: the loop returns what the posts before [post] gave, in the
    world they left, so no later post of the page is looked at and no
    further page is fetched. *)
Theorem cutoff_stops_campaign (fuel : nat) (campaignID : string) (filterDate : Time)
    (mn mx : Z) (cursor : string) (links : list string) (w : World)
    (page : PostsPage) (pre : list Post) (post : Post) (suf : list Post) :
  IsZero filterDate = false ->
  fst (client.FetchPosts remote campaignID 50 cursor w) = inr page ->
  Posts page = pre ++ post :: suf ->
  Forall (fun p => Before (PublishedAt p) filterDate = false) pre ->
  Before (PublishedAt post) filterDate = true ->
  let w1 := snd (cli.randomDelay mn mx (snd (client.FetchPosts remote campaignID 50 cursor w))) in
  let r := cli.processPosts remote pre filterDate mn mx links w1 in
  cli.pageLoop remote (S fuel) campaignID filterDate mn mx cursor links w
    = (Some (snd (fst r), None), snd r) /\
  exists new, log (snd r) = log w ++ new /\
    postsCursors new = [cursor] /\
    forall id, id ∈ detailFetches new -> id ∈ map ID pre.
Proof.
  intros Hz Hfetch Hposts Hpre Hb w1 r. split.
  - cbn [cli.pageLoop]. subst r w1. world. cbn in *. rewrite Hfetch. cbn.
    rewrite Hposts, (processPosts_returns_at_cutoff _ mn mx post suf pre Hz Hb Hpre).
    destruct (cli.processPosts remote pre filterDate mn mx links _) as [[b l] w2].
    reflexivity.
  - subst r.
    destruct (processPosts_quiet pre filterDate mn mx links w1) as (new & Hl & Hq & Hd).
    subst w1. world. cbn in Hl.
    exists ([EvFetchPosts campaignID 50 cursor] ++ [EvSleep mn mx] ++ new).
    split; [cbn; rewrite Hl, <- !app_assoc; reflexivity|].
    split; [rewrite !postsCursors_app, Hq; reflexivity|].
    intros id Hid. rewrite !detailFetches_app in Hid. apply Hd. exact Hid.
Qed.

(** C10.  The scan of a campaign fetches its first page with the empty
    cursor and every later page with a cursor that is not empty; a page
    that has no more pages or no next cursor is the last one fetched, and
    so is the page of a response whose next link gives no cursor. *)
Theorem pagination_ends_without_cursor (fuel : nat) (campaignID : string)
    (filterDate : Time) (mn mx : Z) :
  (forall w, exists rest,
     postsCursors (log (snd (cli.extractLinksFromCampaign remote (S fuel) campaignID
                               filterDate mn mx w)))
     = postsCursors (log w) ++ "" :: rest /\
     Forall (fun c => c <> "") rest) /\
  (forall cursor links w page,
     fst (client.FetchPosts remote campaignID 50 cursor w) = inr page ->
     HasMore page = false \/ NextCursor page = "" ->
     exists links',
       fst (cli.pageLoop remote (S fuel) campaignID filterDate mn mx cursor links w)
         = Some (links', None) /\
       postsCursors (log (snd (cli.pageLoop remote (S fuel) campaignID filterDate mn mx
                                 cursor links w)))
         = postsCursors (log w) ++ [cursor]) /\
  (forall cursor links w resp,
     listPosts remote (log w) (api.postsRequest campaignID 50 cursor) = api.Decoded resp ->
     api.extractCursorFromURL (LinksNext resp) = "" ->
     postsCursors (log (snd (cli.pageLoop remote (S fuel) campaignID filterDate mn mx
                               cursor links w)))
       = postsCursors (log w) ++ [cursor]).
Proof.
  split; [|split].
  - intros w. apply (pageLoop_cursors campaignID filterDate mn mx (S fuel) "" [] w).
  - intros cursor links w page Hf Hl.
    apply (pageLoop_last_page campaignID filterDate mn mx fuel cursor links w page Hf Hl).
  - intros cursor links w resp Hr Hc.
    destruct (pageLoop_last_page campaignID filterDate mn mx fuel cursor links w
                (api.pageOfResponse resp)) as (l & _ & H).
    + world. cbn. rewrite Hr. reflexivity.
    + right. exact Hc.
    + exact H.
Qed.

End BatchFacts.

(** Scenario B: cutoff 2024-01-01, first page dated 2024-06-01 and
    2023-12-01, and a remote with a second page. *)
Lemma cutoff_scenario_B :
  let remote := twoPages [samplePostData "p1" (time.Date 2024 6 1);
                          samplePostData "p2" (time.Date 2023 12 1)] in
  let cutoff := time.Date 2024 1 1 in
  let out := @cli.pageLoop url.referenceParse json.reference remote 5 "1" cutoff
               1000 3000 "" [] emptyWorld in
  time.Parse "2024-01-01" = Some cutoff /\
  fst out = Some (["https://www.youtube.com/watch?v=dQw4w9WgXcQ"], None) /\
  postsCursors (env.log (snd out)) = [""] /\
  detailFetches (env.log (snd out)) = ["p1"].
Proof.
  intros remote cutoff out.
  set (p1 := models.FromPostData (samplePostData "p1" (time.Date 2024 6 1))).
  set (p2 := models.FromPostData (samplePostData "p2" (time.Date 2023 12 1))).
  set (page := @api.pageOfResponse url.referenceParse
                 {| models.Data := [samplePostData "p1" (time.Date 2024 6 1);
                                    samplePostData "p2" (time.Date 2023 12 1)];
                    models.LinksNext :=
                      "https://www.patreon.com/api/campaigns/1/posts?page%5Bcursor%5D=c2" |}).
  assert (Hz : models.IsZero cutoff = false) by reflexivity.
  assert (Hf : fst (@client.FetchPosts url.referenceParse remote "1" 50 "" emptyWorld)
               = inr page) by reflexivity.
  assert (Hp : models.Posts page = [p1] ++ p2 :: []) by reflexivity.
  assert (Hpre : Forall (fun p => models.Before (models.PublishedAt p) cutoff = false) [p1])
    by (constructor; [reflexivity|constructor]).
  assert (Hb : models.Before (models.PublishedAt p2) cutoff = true) by reflexivity.
  destruct (@cutoff_stops_campaign url.referenceParse json.reference remote
              4 "1" cutoff 1000 3000 "" [] emptyWorld page [p1] p2 []
              Hz Hf Hp Hpre Hb) as [Hrun _].
  split; [reflexivity|].
  unfold out. rewrite Hrun. vm_compute. repeat split; reflexivity.
Defined.

(** C2 as stated fails for the cutoff 0001-01-01, the zero time, which the
    loop takes for no cutoff: a post of the year before is processed and
    the second page is fetched. *)
Lemma zero_cutoff_does_not_stop :
  let remote := twoPages [samplePostData "old" (time.Date 0 12 31)] in
  let out := @cli.ExtractYouTubeLinks url.referenceParse json.reference remote 5
               oneCampaign "0001-01-01" emptyWorld in
  (exists cutoff, time.Parse "0001-01-01" = Some cutoff /\
                  models.Before (time.Date 0 12 31) cutoff = true) /\
  postsCursors (env.log (snd out)) = [""; "c2"] /\
  detailFetches (env.log (snd out)) = ["old"].
Proof.
  split; [exists 0; split; reflexivity|]. vm_compute. split; reflexivity.
Qed.

(** ** The interactive browser *)

Section BrowserFacts.
Import models env ui.
Context {parser : url.Parser} {codec : JSON} (remote : Remote).
Variable inputUpdate : string -> string -> string.

Lemma index_Some_len {A : Type} (l : list A) (i : Z) (x : A) :
  index l i = Some x -> 0 <= i < len l.
Proof.
  unfold index, len. destruct (Z.ltb_spec i 0) as [|Hi]; [discriminate|].
  intros H. apply lookup_lt_Some in H. lia.
Qed.

Lemma index_insert {A : Type} (l : list A) (i : Z) (x y : A) :
  index l i = Some x -> index (<[Z.to_nat i := y]> l) i = Some y.
Proof.
  unfold index. destruct (Z.ltb_spec i 0) as [|Hi]; [discriminate|].
  intros H. apply list_lookup_insert_eq. apply lookup_lt_Some in H. exact H.
Qed.

(** C9.  In the Details state with a store, the key [R] clears the details
    of the selected post in the store and marks the post uncached in the
    list before the fetch command is handed back (the log has no request
    yet): the post under the cursor now has the flag [DetailsCached] false
    and its other fields as before, and the other posts of the list are
    as they were.  When the fetch then fails, [Update] moves to the Error
    state and leaves store and list as they are, so the details stay
    cleared and the post stays marked uncached. *)
Theorem forced_refresh_is_not_atomic (m : Model) (w : World) (post : Post) :
  state m = stateDetails ->
  hasDatabase m = true ->
  index (posts m) (cursor m) = Some post ->
  exists m1 w1,
    Update remote inputUpdate m (KeyMsg "R") w
      = (Some (m1, CmdFetchPostDetails (ID post)), w1) /\
    database w1 = db.ClearPostDetails (ID post) (database w) /\
    log w1 = log w /\
    state m1 = stateLoading /\
    posts m1 = <[Z.to_nat (cursor m) := setDetailsCached false post]> (posts m) /\
    index (posts m1) (cursor m1) = Some (setDetailsCached false post) /\
    (exists marked,
       index (posts m1) (cursor m1) = Some marked /\
       DetailsCached marked = false /\
       ID marked = ID post /\ Type_ marked = Type_ post /\
       PostType marked = PostType post /\ Title marked = Title post /\
       PatreonURL marked = PatreonURL post /\
       CurrentUserCanView marked = CurrentUserCanView post /\
       PublishedAt marked = PublishedAt post) /\
    (forall i, i <> cursor m -> index (posts m1) i = index (posts m) i) /\
    db.IsPostDetailsCached (ID post) (database w1) = false /\
    (forall p, db.GetPost (ID post) (database w1) = Some p ->
       db.Description p = "" /\ db.YouTubeLinks p = "" /\ db.DetailsCached p = false) /\
    (forall e,
       fst (fetchPostDetails remote (ID post) w1) = PostDetailsFetchedMsg None (Some e) ->
       let w2 := snd (fetchPostDetails remote (ID post) w1) in
       exists m2,
         Update remote inputUpdate m1 (PostDetailsFetchedMsg None (Some e)) w2
           = (Some (m2, CmdNil), w2) /\
         state m2 = stateError /\ err m2 = Some e /\
         posts m2 = posts m1 /\
         (exists marked,
            index (posts m2) (cursor m2) = Some marked /\
            DetailsCached marked = false /\ ID marked = ID post) /\
         database w2 = db.ClearPostDetails (ID post) (database w) /\
         db.IsPostDetailsCached (ID post) (database w2) = false).
Proof.
  intros Hs Hdb Hi.
  pose proof (index_Some_len _ _ _ Hi) as Hlen.
  assert (Hpos : (0 <? len (posts m)) = true) by (apply Z.ltb_lt; lia).
  assert (Hcached : forall d, db.IsPostDetailsCached (ID post)
                                (db.ClearPostDetails (ID post) d) = false).
  { intros d. unfold db.IsPostDetailsCached, db.ClearPostDetails. cbn.
    rewrite lookup_alter_eq. destruct (db.posts d !! ID post); reflexivity. }
  eexists _, _. split.
  { unfold Update, globalKeys. cbn. world. cbn. rewrite Hs. cbn.
    unfold handleDetailsKeys. cbn. world. cbn. rewrite Hpos, Hi, Hdb. cbn.
    reflexivity. }
  assert (Hat : index (<[Z.to_nat (cursor m) := setDetailsCached false post]> (posts m))
                  (cursor m) = Some (setDetailsCached false post))
    by (apply index_insert with post, Hi).
  cbn. split; [reflexivity|]. split; [reflexivity|]. split; [reflexivity|].
  split; [reflexivity|]. split; [exact Hat|].
  split.
  { exists (setDetailsCached false post). split; [exact Hat|].
    repeat split; reflexivity. }
  split.
  { intros i Hne. unfold index in *.
    destruct (i <? 0) eqn:Hneg; [reflexivity|].
    destruct (cursor m <? 0) eqn:Hc; [discriminate|].
    apply Z.ltb_ge in Hneg, Hc.
    apply list_lookup_insert_ne. lia. }
  split; [apply Hcached|]. split.
  { intros p. unfold db.GetPost, db.ClearPostDetails. cbn.
    rewrite lookup_alter_eq. destruct (db.posts (database w) !! ID post); cbn;
      [|discriminate].
    intros [= <-]. cbn. auto. }
  intros e Hmsg.
  destruct (api.liftExchange _ _) as [e0|details]; cbn in *; [|discriminate].
  eexists. split; [reflexivity|]. cbn.
  split; [reflexivity|]. split; [congruence|]. split; [reflexivity|].
  split.
  { exists (setDetailsCached false post). split; [exact Hat|].
    split; reflexivity. }
  split; [reflexivity|]. apply Hcached.
Qed.

Lemma wrapInt_small z : - 2 ^ 63 <= z < 2 ^ 63 -> wrapInt z = z.
Proof.
  intros Hz. unfold wrapInt.
  rewrite Z.mod_small by lia. lia.
Qed.

Lemma last_snoc_default (l : list string) (x : string) :
  default "" (last (l ++ [x])) = x.
Proof. rewrite last_snoc. reflexivity. Qed.

Lemma len_app_pos (l : list string) (x : string) : (0 <? len (l ++ [x])) = true.
Proof. apply Z.ltb_lt. unfold len. rewrite length_app. cbn. lia. Qed.

Lemma pageCursor_eq (m : Model) (page : Z) (h : list string) :
  currentPage m = page -> cursorHistory m = h ->
  pageCursor m = if (1 <? page) && (0 <? len h) then default "" (last h) else "".
Proof. intros <- <-. reflexivity. Qed.

(** The paging keys are not among the keys handled before the state. *)
Lemma globalKeys_paging (m : Model) (w : World) (key : string) :
  In key ["n"; "l"; "right"; "p"; "h"; "left"] ->
  globalKeys remote m key w = (None, w).
Proof.
  intros Hk. unfold globalKeys.
  assert (H1 : keyIs key ["ctrl+c"; "esc"] = false)
    by (repeat (destruct Hk as [<-|Hk]; [reflexivity|]); destruct Hk).
  assert (H2 : keyIs key ["q"] = false)
    by (repeat (destruct Hk as [<-|Hk]; [reflexivity|]); destruct Hk).
  assert (H3 : keyIs key ["c"; "y"] = false)
    by (repeat (destruct Hk as [<-|Hk]; [reflexivity|]); destruct Hk).
  assert (H4 : keyIs key ["x"] = false)
    by (repeat (destruct Hk as [<-|Hk]; [reflexivity|]); destruct Hk).
  assert (H5 : keyIs key ["X"] = false)
    by (repeat (destruct Hk as [<-|Hk]; [reflexivity|]); destruct Hk).
  assert (H6 : keyIs key ["["] = false)
    by (repeat (destruct Hk as [<-|Hk]; [reflexivity|]); destruct Hk).
  assert (H7 : keyIs key ["]"] = false)
    by (repeat (destruct Hk as [<-|Hk]; [reflexivity|]); destruct Hk).
  rewrite H1, H2, H3, H4, H5, H6, H7. reflexivity.
Qed.

Lemma handleListKeys_forward (m : Model) (w : World) (forward : string) :
  In forward ["n"; "l"; "right"] ->
  hasMorePages m = true ->
  nextCursor m <> "" ->
  1 <= currentPage m < 2 ^ 63 - 1 ->
  handleListKeys m forward w = (Some (forwarded m, CmdFetchPosts (nextCursor m)), w).
Proof.
  intros Hf Hmore Hnext Hpage.
  assert (Hne : String.eqb (nextCursor m) "" = false)
    by (apply String.eqb_neq; exact Hnext).
  assert (Hw : wrapInt (currentPage m + 1) = currentPage m + 1)
    by (apply wrapInt_small; lia).
  unfold handleListKeys.
  assert (H1 : keyIs forward ["up"; "k"] = false)
    by (destruct Hf as [<-|[<-|[<-|[]]]]; reflexivity).
  assert (H2 : keyIs forward ["down"; "j"] = false)
    by (destruct Hf as [<-|[<-|[<-|[]]]]; reflexivity).
  assert (H3 : keyIs forward ["enter"] = false)
    by (destruct Hf as [<-|[<-|[<-|[]]]]; reflexivity).
  assert (H4 : keyIs forward ["r"] = false)
    by (destruct Hf as [<-|[<-|[<-|[]]]]; reflexivity).
  assert (H5 : keyIs forward ["R"] = false)
    by (destruct Hf as [<-|[<-|[<-|[]]]]; reflexivity).
  assert (H6 : keyIs forward ["n"; "l"; "right"] = true)
    by (destruct Hf as [<-|[<-|[<-|[]]]]; reflexivity).
  rewrite H1, H2, H3, H4, H5, H6, Hmore, Hne. cbn [negb andb].
  unfold forwarded.
  destruct (currentPage m =? 1);
    cbn [currentPage cursorHistory nextCursor set_cursorHistory set_currentPage
         set_state set_loadingMsg];
    rewrite Hw; reflexivity.
Qed.

Lemma handleListKeys_backward (m : Model) (w : World) (backward : string) :
  In backward ["p"; "h"; "left"] ->
  1 < currentPage m ->
  cursorHistory m <> [] ->
  handleListKeys m backward w
    = (Some (backed m,
             CmdFetchPosts (default "" (last (removelast (cursorHistory m))))), w).
Proof.
  intros Hb Hp Hh.
  assert (Hgt : (1 <? currentPage m) = true) by (apply Z.ltb_lt; lia).
  assert (Hlen : (0 <? len (cursorHistory m)) = true).
  { apply Z.ltb_lt. unfold len. destruct (cursorHistory m); [congruence|cbn; lia]. }
  unfold handleListKeys.
  assert (H1 : keyIs backward ["up"; "k"] = false)
    by (destruct Hb as [<-|[<-|[<-|[]]]]; reflexivity).
  assert (H2 : keyIs backward ["down"; "j"] = false)
    by (destruct Hb as [<-|[<-|[<-|[]]]]; reflexivity).
  assert (H3 : keyIs backward ["enter"] = false)
    by (destruct Hb as [<-|[<-|[<-|[]]]]; reflexivity).
  assert (H4 : keyIs backward ["r"] = false)
    by (destruct Hb as [<-|[<-|[<-|[]]]]; reflexivity).
  assert (H5 : keyIs backward ["R"] = false)
    by (destruct Hb as [<-|[<-|[<-|[]]]]; reflexivity).
  assert (H6 : keyIs backward ["n"; "l"; "right"] = false)
    by (destruct Hb as [<-|[<-|[<-|[]]]]; reflexivity).
  assert (H7 : keyIs backward ["p"; "h"; "left"] = true)
    by (destruct Hb as [<-|[<-|[<-|[]]]]; reflexivity).
  rewrite H1, H2, H3, H4, H5, H6, H7, Hgt, Hlen. cbn [andb].
  unfold backed.
  cbn [currentPage cursorHistory set_cursorHistory set_currentPage
       set_state set_loadingMsg].
  destruct (removelast (cursorHistory m)) as [|c l] eqn:Hr; [reflexivity|].
  replace (0 <? len (c :: l)) with true; [reflexivity|].
  symmetry. apply Z.ltb_lt. unfold len. cbn [length]. lia.
Qed.

Lemma Update_forward (m : Model) (w : World) (forward : string) :
  In forward ["n"; "l"; "right"] ->
  state m = stateList ->
  hasMorePages m = true ->
  nextCursor m <> "" ->
  1 <= currentPage m < 2 ^ 63 - 1 ->
  Update remote inputUpdate m (KeyMsg forward) w
    = (Some (forwarded (set_statusMessage StatusNone m), CmdFetchPosts (nextCursor m)), w).
Proof.
  intros Hf Hs Hmore Hnext Hpage. unfold Update, env.bind.
  rewrite globalKeys_paging
    by (cbn in Hf |- *; destruct Hf as [<-|[<-|[<-|[]]]]; auto 10).
  unfold env.ret.
  change (state (set_statusMessage StatusNone m)) with (state m). rewrite Hs.
  apply (handleListKeys_forward (set_statusMessage StatusNone m)); assumption.
Qed.

Lemma Update_arrived (m : Model) (w : World) posts' next' more' total' :
  Update remote inputUpdate m (PostsFetchedMsg posts' next' more' total' None) w
    = (Some (arrived w posts' next' more' total' m, CmdNil), w).
Proof.
  unfold Update, arrived. world. cbn. destruct (hasDatabase m); reflexivity.
Qed.

Lemma Update_backward (m : Model) (w : World) (backward : string) :
  In backward ["p"; "h"; "left"] ->
  state m = stateList ->
  1 < currentPage m ->
  cursorHistory m <> [] ->
  Update remote inputUpdate m (KeyMsg backward) w
    = (Some (backed (set_statusMessage StatusNone m),
             CmdFetchPosts (default "" (last (removelast (cursorHistory m))))), w).
Proof.
  intros Hb Hs Hp Hh. unfold Update, env.bind.
  rewrite globalKeys_paging
    by (cbn in Hb |- *; destruct Hb as [<-|[<-|[<-|[]]]]; auto 10).
  unfold env.ret.
  change (state (set_statusMessage StatusNone m)) with (state m). rewrite Hs.
  apply (handleListKeys_backward (set_statusMessage StatusNone m)); assumption.
Qed.

(** C6.  In the List state, on a page numbered from 1, a page-forward key
    (taken when there are more pages and a next cursor), the arrival of the
    page it fetched, and a page-backward key right after: the second fetch
    asks for the cursor of the page shown before the forward step, and the
    page number is the one before the forward step. *)
Theorem forward_then_backward_restores (m : Model) (w : World)
    (forward backward : string)
    (posts' : list Post) (next' : string) (more' : bool) (total' : Z) :
  In forward ["n"; "l"; "right"] ->
  In backward ["p"; "h"; "left"] ->
  state m = stateList ->
  hasMorePages m = true ->
  nextCursor m <> "" ->
  1 <= currentPage m < 2 ^ 63 - 1 ->
  exists m1 m2 m3,
    Update remote inputUpdate m (KeyMsg forward) w
      = (Some (m1, CmdFetchPosts (nextCursor m)), w) /\
    currentPage m1 = currentPage m + 1 /\
    pageCursor m1 = nextCursor m /\
    Update remote inputUpdate m1 (PostsFetchedMsg posts' next' more' total' None) w
      = (Some (m2, CmdNil), w) /\
    state m2 = stateList /\
    Update remote inputUpdate m2 (KeyMsg backward) w
      = (Some (m3, CmdFetchPosts (pageCursor m)), w) /\
    currentPage m3 = currentPage m /\
    pageCursor m3 = pageCursor m.
Proof.
  intros Hf Hb Hs Hmore Hnext Hpage.
  set (h1 := if currentPage m =? 1 then cursorHistory m ++ [""] else cursorHistory m).
  set (m1 := forwarded (set_statusMessage StatusNone m)).
  set (m2 := arrived w posts' next' more' total' m1).
  assert (Hh2 : cursorHistory m2 = h1 ++ [nextCursor m]) by reflexivity.
  assert (Hp2 : currentPage m2 = currentPage m + 1) by reflexivity.
  assert (Hgt : (1 <? currentPage m + 1) = true) by (apply Z.ltb_lt; lia).
  assert (Hcur : default "" (last h1) = pageCursor m).
  { unfold pageCursor. subst h1. destruct (Z.eqb_spec (currentPage m) 1) as [He|Hn1].
    - rewrite last_snoc_default, He. reflexivity.
    - replace (1 <? currentPage m) with true by (symmetry; apply Z.ltb_lt; lia).
      cbn. destruct (cursorHistory m) as [|c l]; [reflexivity|].
      replace (0 <? len (c :: l)) with true; [reflexivity|].
      symmetry. apply Z.ltb_lt. unfold len. cbn. lia. }
  exists m1, m2, (backed (set_statusMessage StatusNone m2)).
  split; [apply Update_forward; assumption|].
  split; [reflexivity|]. split.
  { unfold pageCursor. cbn. fold h1. rewrite Hgt, len_app_pos, last_snoc_default.
    reflexivity. }
  split; [apply Update_arrived|]. split; [reflexivity|]. split.
  { rewrite <- Hcur, <- (removelast_last h1 (nextCursor m)), <- Hh2.
    apply Update_backward; [exact Hb|reflexivity|rewrite Hp2; lia|].
    rewrite Hh2. intros Hnil. apply app_eq_nil in Hnil as [_ [=]]. }
  assert (Hp3 : currentPage (backed (set_statusMessage StatusNone m2)) = currentPage m)
    by (cbn; lia).
  assert (Hh3 : cursorHistory (backed (set_statusMessage StatusNone m2)) = h1)
    by (cbn; fold h1; apply removelast_last).
  split; [exact Hp3|].
  rewrite (pageCursor_eq _ _ _ Hp3 Hh3).
  destruct (1 <? currentPage m) eqn:Hp; cbn [andb].
  - subst h1. destruct (Z.eqb_spec (currentPage m) 1) as [He|Hn1];
      [rewrite He in Hp; discriminate|].
    unfold pageCursor. rewrite Hp. reflexivity.
  - unfold pageCursor. rewrite Hp. reflexivity.
Qed.

(** *** The clipboard and the cursors *)

Lemma len_nonneg {A : Type} (l : list A) : 0 <= len l.
Proof. unfold len. lia. Qed.

Lemma len_app {A : Type} (l1 l2 : list A) : len (l1 ++ l2) = len l1 + len l2.
Proof. unfold len. rewrite length_app. lia. Qed.

Lemma len_snoc {A : Type} (l : list A) (x : A) : len (l ++ [x]) = len l + 1.
Proof. unfold len. rewrite length_app. cbn [length]. lia. Qed.

Lemma len_cons {A : Type} (x : A) (l : list A) : len (x :: l) = len l + 1.
Proof. unfold len. cbn [length]. lia. Qed.

Lemma len_map {A B : Type} (f : A -> B) (l : list A) : len (map f l) = len l.
Proof. unfold len. rewrite length_map. reflexivity. Qed.

Lemma len_insert {A : Type} (l : list A) (i : nat) (x : A) : len (<[i := x]> l) = len l.
Proof. unfold len. rewrite length_insert. reflexivity. Qed.

Lemma len_markCached id ps : len (markCached id ps) = len ps.
Proof.
  induction ps as [|p ps IH]; [reflexivity|]. cbn [markCached].
  destruct (String.eqb (ID p) id); [reflexivity|].
  rewrite !len_cons, IH. reflexivity.
Qed.

Lemma index_is_Some {A : Type} (l : list A) (i : Z) :
  0 <= i < len l -> exists x, index l i = Some x.
Proof.
  intros Hi. unfold index, len in *.
  destruct (Z.ltb_spec i 0) as [|_]; [lia|].
  destruct (lookup_lt_is_Some_2 l (Z.to_nat i)) as [x Hx]; [lia|]. eauto.
Qed.

Lemma removeAt_is_Some {A : Type} (l : list A) (i : Z) :
  0 <= i < len l -> exists l', removeAt l i = Some l'.
Proof.
  intros Hi. unfold removeAt.
  replace ((0 <=? i) && (i + 1 <=? len l)) with true; [eauto|].
  symmetry. apply andb_true_intro. split; [apply Z.leb_le|apply Z.leb_le]; lia.
Qed.

Lemma removeAt_Some {A : Type} (l l' : list A) (i : Z) :
  removeAt l i = Some l' ->
  0 <= i < len l /\ len l' = len l - 1 /\
  l' = take (Z.to_nat i) l ++ drop (S (Z.to_nat i)) l /\
  (NoDup l -> NoDup l').
Proof.
  unfold removeAt. destruct ((0 <=? i) && (i + 1 <=? len l)) eqn:Hb; [|discriminate].
  apply andb_prop in Hb as [H0 H1]. apply Z.leb_le in H0, H1.
  intros [= <-]. replace (Z.to_nat (i + 1)) with (S (Z.to_nat i)) by lia.
  split; [lia|]. split; [|split; [reflexivity|]].
  - unfold len in *. rewrite length_app, length_take, length_drop. lia.
  - intros Hnd. apply (sublist_NoDup _ l); [exact Hnd|].
    rewrite <- (take_drop (Z.to_nat i) l) at 3.
    apply sublist_app; [reflexivity|].
    replace (S (Z.to_nat i)) with (Z.to_nat i + 1)%nat by lia.
    rewrite <- drop_drop. apply sublist_drop.
Qed.

Lemma contains_true l x : contains l x = true <-> x ∈ l.
Proof.
  unfold contains. rewrite existsb_exists. split.
  - intros (y & Hy & He). apply String.eqb_eq in He. subst. apply list_elem_of_In, Hy.
  - intros Hx. exists x. split; [apply list_elem_of_In, Hx|apply String.eqb_refl].
Qed.

Lemma contains_false l x : contains l x = false <-> x ∉ l.
Proof.
  rewrite <- contains_true. destruct (contains l x); split; congruence.
Qed.

Lemma NoDup_snoc (l : list string) (x : string) :
  NoDup l -> x ∉ l -> NoDup (l ++ [x]).
Proof.
  intros Hl Hx. apply NoDup_app. split; [exact Hl|]. split.
  - intros y Hy Hy'. apply list_elem_of_singleton in Hy'. subst. exact (Hx Hy).
  - apply NoDup_singleton.
Qed.

(** The loop of the key [A] keeps the clipboard free of duplicates, keeps
    what it had as a prefix, and counts what it appends. *)
Lemma fold_addNew links : forall clip added,
  NoDup clip ->
  let r := fold_left addNew links (clip, added) in
  NoDup (fst r) /\ len clip <= len (fst r) /\
  len (fst r) = len clip + (snd r - added) /\
  (forall x, x ∈ fst r <-> x ∈ clip \/ x ∈ links).
Proof.
  induction links as [|link links IH]; intros clip added Hnd; cbn [fold_left].
  - cbn. split; [exact Hnd|]. split; [lia|]. split; [lia|].
    intros x. rewrite elem_of_nil. tauto.
  - change (addNew (clip, added) link)
      with (if contains clip link then (clip, added) else (clip ++ [link], added + 1)).
    destruct (contains clip link) eqn:Hc.
    + destruct (IH clip added Hnd) as (H1 & H2 & H3 & H4).
      split; [exact H1|]. split; [exact H2|]. split; [exact H3|].
      intros x. rewrite H4, elem_of_cons. apply contains_true in Hc.
      split; [tauto|]. intros [H|[->|H]]; auto.
    + apply contains_false in Hc.
      destruct (IH (clip ++ [link]) (added + 1) (NoDup_snoc _ _ Hnd Hc))
        as (H1 & H2 & H3 & H4).
      rewrite len_snoc in H2, H3.
      split; [exact H1|]. split; [lia|]. split; [lia|].
      intros x. rewrite H4, elem_of_app, list_elem_of_singleton, elem_of_cons. tauto.
Qed.

(** Projections of assignments. *)
Ltac model_simpl :=
  cbn [state posts cursor hasDatabase input err width height campaignID loadingMsg
    postDetails cachedDetails clipboardLinks clipboardCursor linkCursor
    statusMessage currentPage nextCursor cursorHistory totalPosts hasMorePages
    set_state set_posts set_cursor set_input set_err set_width set_height
    set_campaignID set_loadingMsg set_postDetails set_cachedDetails
    set_clipboardLinks set_clipboardCursor set_linkCursor set_statusMessage
    set_currentPage set_nextCursor set_cursorHistory set_totalPosts set_hasMorePages] in *.

Ltac wf_open := unfold wellFormed, inRange, linksOf in *; model_simpl.

Lemma wellFormed_NewModel b : wellFormed (NewModel b).
Proof.
  unfold wellFormed, inRange, NewModel, linksOf. cbn.
  split; [constructor|]. lia.
Qed.

(** The keys handled before the state keep the invariant, do not panic,
    and leave the store alone. *)
Lemma globalKeys_wellFormed (m : Model) (key : string) (w : World) :
  wellFormed m ->
  match globalKeys remote m key w with
  | (Some (Some (m', _)), w') => wellFormed m' /\ database w' = database w
  | (Some None, _) => False
  | (None, w') => w' = w
  end.
Proof.
  intros Hwf. unfold globalKeys. world.
  destruct (keyIs key ["ctrl+c"; "esc"]);
    [destruct (isInput m); cbn; auto|].
  destruct (keyIs key ["q"]); [destruct (isInput m); cbn; auto|].
  destruct (keyIs key ["c"; "y"]).
  { destruct (inListOrDetails m); [|reflexivity].
    destruct (0 <? len (clipboardLinks m)); cbn.
    - destruct (clipboardWriteAll remote _ _); cbn;
        (split; [exact Hwf|reflexivity]).
    - split; [exact Hwf|reflexivity]. }
  destruct (keyIs key ["x"]).
  { destruct (inListOrDetails m); cbn [andb]; [|reflexivity].
    destruct (Z.ltb_spec 0 (len (clipboardLinks m))) as [Hpos|]; [|reflexivity].
    destruct Hwf as (Hnd & Hcc & Hrest).
    destruct (removeAt_is_Some (clipboardLinks m) (clipboardCursor m)) as [l' Hl'];
      [unfold inRange in Hcc; lia|].
    rewrite Hl'. apply removeAt_Some in Hl' as (Hi & Hlen & _ & Hnd').
    model_simpl.
    destruct ((len l' <=? clipboardCursor m) && (0 <? clipboardCursor m)) eqn:Hb;
      (split; [|reflexivity]); wf_open;
      (split; [apply Hnd', Hnd|]); (split; [|exact Hrest]).
    - apply andb_prop in Hb as [Hb1 Hb2]. apply Z.leb_le in Hb1.
      apply Z.ltb_lt in Hb2. lia.
    - apply andb_false_iff in Hb as [Hb|Hb];
        [apply Z.leb_gt in Hb|apply Z.ltb_ge in Hb]; lia. }
  destruct (keyIs key ["X"]).
  { destruct (inListOrDetails m); [|reflexivity]. split; [|reflexivity].
    wf_open. split; [constructor|]. split; [lia|]. apply Hwf. }
  destruct (keyIs key ["["]).
  { destruct (inListOrDetails m); cbn [andb]; [|reflexivity].
    destruct (Z.ltb_spec 0 (clipboardCursor m)); [|reflexivity].
    split; [|reflexivity]. wf_open. destruct Hwf as (Hnd & Hcc & Hrest).
    split; [exact Hnd|]. split; [lia|exact Hrest]. }
  destruct (keyIs key ["]"]).
  { destruct (inListOrDetails m); cbn [andb]; [|reflexivity].
    destruct (Z.ltb_spec (clipboardCursor m) (len (clipboardLinks m) - 1)); [|reflexivity].
    split; [|reflexivity]. wf_open. destruct Hwf as (Hnd & Hcc & Hrest).
    split; [exact Hnd|]. split; [lia|exact Hrest]. }
  reflexivity.
Qed.

Lemma yields_intro (P : Model -> Prop) m c w : P m -> yields P (Some (m, c), w).
Proof. intros H. exists m, c, w. auto. Qed.

Lemma handleListKeys_wellFormed (m : Model) (key : string) (w : World) :
  wellFormed m -> yields wellFormed (handleListKeys m key w).
Proof.
  intros Hwf. pose proof (len_nonneg (posts m)) as Hlp.
  unfold handleListKeys. world.
  destruct (keyIs key ["up"; "k"]).
  { apply yields_intro. destruct (Z.ltb_spec 0 (cursor m)); [|exact Hwf].
    wf_open. intuition lia. }
  destruct (keyIs key ["down"; "j"]).
  { apply yields_intro. destruct (Z.ltb_spec (cursor m) (len (posts m) - 1)); [|exact Hwf].
    wf_open. intuition lia. }
  destruct (keyIs key ["enter"]).
  { destruct (Z.ltb_spec 0 (len (posts m))) as [Hpos|]; [|apply yields_intro, Hwf].
    destruct (index_is_Some (posts m) (cursor m)) as [post Hpost];
      [destruct Hwf as (_ & _ & Hc & _); unfold inRange in Hc; lia|].
    rewrite Hpost.
    destruct (hasDatabase m && DetailsCached post); [|apply yields_intro, Hwf].
    cbn. destruct (db.GetPost (ID post) (database w)) as [c|];
      [|apply yields_intro, Hwf].
    destruct (db.DetailsCached c); [|apply yields_intro, Hwf].
    apply yields_intro. wf_open. cbn [dYouTubeLinks].
    pose proof (len_nonneg
      (if negb (String.eqb (db.YouTubeLinks c) "")
       then fst (Unmarshal (db.YouTubeLinks c)) else [])).
    intuition lia. }
  destruct (keyIs key ["r"]); [apply yields_intro, Hwf|].
  destruct (keyIs key ["R"]); [apply yields_intro, Hwf|].
  destruct (keyIs key ["n"; "l"; "right"]).
  { destruct (hasMorePages m && negb (String.eqb (nextCursor m) ""));
      [|apply yields_intro, Hwf].
    apply yields_intro. destruct (currentPage m =? 1); exact Hwf. }
  destruct (keyIs key ["p"; "h"; "left"]).
  { destruct ((1 <? currentPage m) && (0 <? len (cursorHistory m)));
      apply yields_intro, Hwf. }
  destruct (keyIs key ["esc"]); apply yields_intro, Hwf.
Qed.

Lemma handleDetailsKeys_wellFormed (m : Model) (key : string) (w : World) :
  wellFormed m -> yields wellFormed (handleDetailsKeys m key w).
Proof.
  intros Hwf. pose proof (len_nonneg (linksOf m)) as Hll.
  unfold handleDetailsKeys. world.
  destruct (keyIs key ["esc"; "backspace"]).
  { apply yields_intro. wf_open. intuition lia. }
  destruct (keyIs key ["R"]).
  { destruct (Z.ltb_spec 0 (len (posts m))) as [Hpos|]; [|apply yields_intro, Hwf].
    destruct (index_is_Some (posts m) (cursor m)) as [post Hpost];
      [destruct Hwf as (_ & _ & Hc & _); unfold inRange in Hc; lia|].
    rewrite Hpost. destruct (hasDatabase m); cbn; apply yields_intro; [|exact Hwf].
    wf_open. rewrite len_insert. exact Hwf. }
  destruct (keyIs key ["up"; "k"]).
  { destruct (bool_decide (is_Some (postDetails m)) && (0 <? len (linksOf m))
              && (0 <? linkCursor m)) eqn:Hb; apply yields_intro; [|exact Hwf].
    apply andb_prop in Hb as [_ Hb]. apply Z.ltb_lt in Hb.
    wf_open. intuition lia. }
  destruct (keyIs key ["down"; "j"]).
  { destruct (bool_decide (is_Some (postDetails m)) && (0 <? len (linksOf m))
              && (linkCursor m <? len (linksOf m) - 1)) eqn:Hb;
      apply yields_intro; [|exact Hwf].
    apply andb_prop in Hb as [_ Hb]. apply Z.ltb_lt in Hb.
    wf_open. intuition lia. }
  destruct (keyIs key ["a"; "enter"]).
  { destruct (bool_decide (is_Some (postDetails m)) && (0 <? len (linksOf m))) eqn:Hb;
      [|apply yields_intro, Hwf].
    apply andb_prop in Hb as [_ Hb]. apply Z.ltb_lt in Hb.
    destruct (index_is_Some (linksOf m) (linkCursor m)) as [link Hlink];
      [destruct Hwf as (_ & _ & _ & Hc); unfold inRange in Hc; lia|].
    rewrite Hlink. destruct (contains (clipboardLinks m) link) eqn:Hc;
      apply yields_intro; [exact Hwf|].
    apply contains_false in Hc. destruct Hwf as (Hnd & Hcc & Hrest).
    wf_open.
    split; [apply NoDup_snoc; assumption|]. split; [|exact Hrest].
    rewrite len_snoc. lia. }
  destruct (keyIs key ["A"]).
  { destruct (bool_decide (is_Some (postDetails m)) && (0 <? len (linksOf m)));
      [|apply yields_intro, Hwf].
    destruct Hwf as (Hnd & Hcc & Hrest).
    destruct (fold_addNew (linksOf m) (clipboardLinks m) 0 Hnd) as (H1 & H2 & _).
    destruct (fold_left addNew (linksOf m) (clipboardLinks m, 0)) as [clip added].
    cbn [fst] in H1, H2.
    destruct (0 <? added); apply yields_intro;
      wf_open;
      (split; [exact H1|]); (split; [lia|exact Hrest]). }
  apply yields_intro, Hwf.
Qed.

Lemma handleErrorKeys_wellFormed (m : Model) (key : string) (w : World) :
  wellFormed m -> yields wellFormed (handleErrorKeys m key w).
Proof.
  intros Hwf. unfold handleErrorKeys. world.
  destruct (keyIs key ["r"]); [apply yields_intro, Hwf|].
  destruct (keyIs key ["esc"]); apply yields_intro, Hwf.
Qed.

(** Every message keeps the invariant, and [Update] does not panic on a
    model that has it. *)
Lemma Update_wellFormed (m : Model) (msg : Msg) (w : World) :
  wellFormed m -> yields wellFormed (Update remote inputUpdate m msg w).
Proof.
  intros Hwf. unfold Update. destruct msg as [key|wd ht|ps next more total e|details e| |].
  - assert (Hwf' : wellFormed (set_statusMessage StatusNone m)) by exact Hwf.
    unfold env.bind.
    pose proof (globalKeys_wellFormed (set_statusMessage StatusNone m) key w Hwf') as Hg.
    destruct (globalKeys remote (set_statusMessage StatusNone m) key w)
      as [[[[m' c]|]|] w'].
    + apply yields_intro, Hg.
    + destruct Hg.
    + subst w'.
      destruct (state (set_statusMessage StatusNone m)).
      * destruct (keyIs key ["enter"] && negb (String.eqb (input _) ""));
          apply yields_intro, Hwf.
      * apply yields_intro, Hwf'.
      * apply handleListKeys_wellFormed, Hwf'.
      * apply handleDetailsKeys_wellFormed, Hwf'.
      * apply handleErrorKeys_wellFormed, Hwf'.
  - apply yields_intro, Hwf.
  - destruct e as [e|]; [apply yields_intro, Hwf|]. world. cbn.
    destruct Hwf as (Hnd & Hcc & Hc & Hl).
    destruct (hasDatabase m); cbn; apply yields_intro;
      unfold wellFormed, inRange in *; model_simpl;
      pose proof (len_nonneg ps); rewrite ?len_map; intuition lia.
  - destruct e as [e|]; [apply yields_intro, Hwf|]. world.
    destruct Hwf as (Hnd & Hcc & Hc & Hl).
    destruct details as [d|]; model_simpl; [destruct (hasDatabase m)|]; cbn;
      apply yields_intro;
      unfold wellFormed, inRange, linksOf in *; model_simpl;
      rewrite ?len_markCached;
      match goal with |- context [len ?l] => pose proof (len_nonneg l) end;
      intuition lia.
  - apply yields_intro, Hwf.
  - destruct (state m); apply yields_intro, Hwf.
Qed.

Lemma run_wellFormed (msgs : list Msg) : forall (m : Model) (w : World),
  wellFormed m ->
  exists m' w', run remote inputUpdate msgs m w = (Some m', w') /\ wellFormed m'.
Proof.
  induction msgs as [|msg msgs IH]; intros m w Hwf; cbn [run].
  - exists m, w. auto.
  - unfold env.bind.
    destruct (Update_wellFormed m msg w Hwf) as (m1 & c & w1 & -> & Hwf1).
    apply IH, Hwf1.
Qed.

(** The adding keys are not among the keys handled before the state. *)
Lemma globalKeys_adding (m : Model) (w : World) (key : string) :
  In key ["a"; "enter"; "A"] ->
  globalKeys remote m key w = (None, w).
Proof.
  intros Hk. unfold globalKeys.
  assert (H1 : keyIs key ["ctrl+c"; "esc"] = false)
    by (repeat (destruct Hk as [<-|Hk]; [reflexivity|]); destruct Hk).
  assert (H2 : keyIs key ["q"] = false)
    by (repeat (destruct Hk as [<-|Hk]; [reflexivity|]); destruct Hk).
  assert (H3 : keyIs key ["c"; "y"] = false)
    by (repeat (destruct Hk as [<-|Hk]; [reflexivity|]); destruct Hk).
  assert (H4 : keyIs key ["x"] = false)
    by (repeat (destruct Hk as [<-|Hk]; [reflexivity|]); destruct Hk).
  assert (H5 : keyIs key ["X"] = false)
    by (repeat (destruct Hk as [<-|Hk]; [reflexivity|]); destruct Hk).
  assert (H6 : keyIs key ["["] = false)
    by (repeat (destruct Hk as [<-|Hk]; [reflexivity|]); destruct Hk).
  assert (H7 : keyIs key ["]"] = false)
    by (repeat (destruct Hk as [<-|Hk]; [reflexivity|]); destruct Hk).
  rewrite H1, H2, H3, H4, H5, H6, H7. reflexivity.
Qed.

(** One adding key in the Details state: the clipboard stays free of
    duplicates and keeps what it had; a link it has is not added again. *)
Lemma Update_add (m : Model) (w : World) (key : string) m' c w' :
  In key ["a"; "enter"; "A"] ->
  state m = stateDetails ->
  NoDup (clipboardLinks m) ->
  Update remote inputUpdate m (KeyMsg key) w = (Some (m', c), w') ->
  NoDup (clipboardLinks m') /\ state m' = stateDetails /\
  (forall x, x ∈ clipboardLinks m -> x ∈ clipboardLinks m') /\
  (forall x, x ∈ clipboardLinks m' -> x ∈ clipboardLinks m \/ x ∈ linksOf m) /\
  (forall link, In key ["a"; "enter"] ->
     index (linksOf m) (linkCursor m) = Some link ->
     link ∈ clipboardLinks m -> clipboardLinks m' = clipboardLinks m).
Proof.
  intros Hk Hs Hnd. unfold Update, env.bind.
  rewrite (globalKeys_adding _ _ _ Hk). unfold env.ret.
  change (state (set_statusMessage StatusNone m)) with (state m). rewrite Hs.
  unfold handleDetailsKeys.
  assert (H1 : keyIs key ["esc"; "backspace"] = false)
    by (destruct Hk as [<-|[<-|[<-|[]]]]; reflexivity).
  assert (H2 : keyIs key ["R"] = false)
    by (destruct Hk as [<-|[<-|[<-|[]]]]; reflexivity).
  assert (H3 : keyIs key ["up"; "k"] = false)
    by (destruct Hk as [<-|[<-|[<-|[]]]]; reflexivity).
  assert (H4 : keyIs key ["down"; "j"] = false)
    by (destruct Hk as [<-|[<-|[<-|[]]]]; reflexivity).
  rewrite H1, H2, H3, H4.
  change (linksOf (set_statusMessage StatusNone m)) with (linksOf m).
  model_simpl.
  destruct (keyIs key ["a"; "enter"]) eqn:Ha.
  - destruct (bool_decide (is_Some (postDetails m)) && (0 <? len (linksOf m)));
      [|intros [= <- _ _]; model_simpl; repeat split; auto].
    destruct (index (linksOf m) (linkCursor m)) as [link|] eqn:Hl; [|discriminate].
    destruct (contains (clipboardLinks m) link) eqn:Hc.
    + intros [= <- _ _]. model_simpl. repeat split; auto.
    + intros [= <- _ _]. model_simpl. apply contains_false in Hc.
      split; [apply NoDup_snoc; assumption|]. split; [exact Hs|].
      split; [intros x Hx; apply elem_of_app; auto|]. split.
      * intros x Hx. apply elem_of_app in Hx as [Hx|Hx]; [auto|].
        apply list_elem_of_singleton in Hx. subst x. right.
        unfold index in Hl. destruct (linkCursor m <? 0); [discriminate|].
        eapply list_elem_of_lookup_2, Hl.
      * intros link' _ [= ->] Hin. contradiction.
  - assert (HA : keyIs key ["A"] = true).
    { destruct Hk as [<-|[<-|[<-|[]]]]; try discriminate Ha. reflexivity. }
    rewrite HA.
    destruct (bool_decide (is_Some (postDetails m)) && (0 <? len (linksOf m)));
      [|intros [= <- _ _]; model_simpl; repeat split; auto;
        intros link Hin; destruct Hin as [<-|[<-|[]]]; discriminate Ha].
    destruct (fold_addNew (linksOf m) (clipboardLinks m) 0 Hnd) as (F1 & _ & _ & F4).
    destruct (fold_left addNew (linksOf m) (clipboardLinks m, 0)) as [clip added].
    cbn [fst] in F1, F4.
    assert (Hres : NoDup clip /\ state m = stateDetails /\
                   (forall x, x ∈ clipboardLinks m -> x ∈ clip) /\
                   (forall x, x ∈ clip -> x ∈ clipboardLinks m \/ x ∈ linksOf m)).
    { split; [exact F1|]. split; [exact Hs|].
      split; intros x Hx; apply F4; auto. }
    destruct (0 <? added); intros [= <- _ _]; model_simpl;
      (split; [apply Hres|]); (split; [apply Hres|]); (split; [apply Hres|]);
      (split; [apply Hres|]);
      intros link Hin; destruct Hin as [<-|[<-|[]]]; discriminate Ha.
Qed.

Lemma run_adds (keys : list string) : forall (m : Model) (w : World) m' w',
  Forall (fun key => In key ["a"; "enter"; "A"]) keys ->
  state m = stateDetails ->
  NoDup (clipboardLinks m) ->
  run remote inputUpdate (map KeyMsg keys) m w = (Some m', w') ->
  NoDup (clipboardLinks m') /\
  (forall x, x ∈ clipboardLinks m -> x ∈ clipboardLinks m').
Proof.
  induction keys as [|key keys IH]; intros m w m' w' Hk Hs Hnd; cbn [map run].
  - intros [= <- _]. auto.
  - inversion Hk as [|? ? Hkey Hkeys]; subst. unfold env.bind.
    destruct (Update remote inputUpdate m (KeyMsg key) w) as [[[m1 c]|] w1] eqn:Hu;
      [|discriminate].
    destruct (Update_add m w key m1 c w1 Hkey Hs Hnd Hu) as (Hnd1 & Hs1 & Hin1 & _).
    intros Hrun. destruct (IH m1 w1 m' w' Hkeys Hs1 Hnd1 Hrun) as [Hnd' Hin'].
    auto.
Qed.

(** The key [x] on a clipboard with the cursor on one of its links. *)
Lemma Update_remove (m : Model) (w : World) :
  inListOrDetails m = true ->
  0 <= clipboardCursor m < len (clipboardLinks m) ->
  exists m',
    Update remote inputUpdate m (KeyMsg "x") w = (Some (m', CmdNil), w) /\
    clipboardLinks m' = take (Z.to_nat (clipboardCursor m)) (clipboardLinks m)
                        ++ drop (S (Z.to_nat (clipboardCursor m))) (clipboardLinks m) /\
    len (clipboardLinks m') = len (clipboardLinks m) - 1 /\
    clipboardCursor m' =
      (if (len (clipboardLinks m) - 1 <=? clipboardCursor m) && (0 <? clipboardCursor m)
       then clipboardCursor m - 1 else clipboardCursor m) /\
    0 <= clipboardCursor m' /\
    (clipboardCursor m' <= len (clipboardLinks m') - 1 \/
     len (clipboardLinks m') = 0 /\ clipboardCursor m' = 0).
Proof.
  intros Hst Hcc.
  destruct (removeAt_is_Some (clipboardLinks m) (clipboardCursor m) Hcc) as [l' Hl'].
  pose proof (removeAt_Some _ _ _ Hl') as (_ & Hlen & Heq & _).
  assert (Hpos : (0 <? len (clipboardLinks m)) = true) by (apply Z.ltb_lt; lia).
  unfold Update, env.bind, globalKeys.
  change (keyIs "x" ["ctrl+c"; "esc"]) with false.
  change (keyIs "x" ["q"]) with false.
  change (keyIs "x" ["c"; "y"]) with false.
  change (keyIs "x" ["x"]) with true.
  cbn iota.
  change (inListOrDetails (set_statusMessage StatusNone m)) with (inListOrDetails m).
  model_simpl. rewrite Hst, Hpos, Hl'. cbn [andb]. unfold env.ret. model_simpl.
  rewrite Hlen.
  destruct ((len (clipboardLinks m) - 1 <=? clipboardCursor m)
            && (0 <? clipboardCursor m)) eqn:Hb;
    (eexists; split; [reflexivity|]); model_simpl;
    (split; [exact Heq|]); (split; [exact Hlen|]); (split; [reflexivity|]);
    rewrite Hlen.
  - apply andb_prop in Hb as [Hb1 Hb2]. apply Z.leb_le in Hb1.
    apply Z.ltb_lt in Hb2. lia.
  - apply andb_false_iff in Hb as [Hb|Hb];
      [apply Z.leb_gt in Hb|apply Z.ltb_ge in Hb]; lia.
Qed.

(** C5.  Adding keys (one link or all) keep a duplicate-free clipboard
    free of duplicates, and a link the clipboard has is skipped.  The key
    [x] on a clipboard that is not empty takes the link at the cursor out:
    the length goes down by one and the cursor stays within the new
    sequence, or is 0 when it is empty.  The invariant (no duplicates, the
    three cursors in range) holds at the start and after every message, and
    [Update] never panics on a model that has it. *)
Theorem clipboard_invariant :
  (forall (keys : list string) (m : Model) (w : World) m' w',
     Forall (fun key => In key ["a"; "enter"; "A"]) keys ->
     state m = stateDetails ->
     NoDup (clipboardLinks m) ->
     run remote inputUpdate (map KeyMsg keys) m w = (Some m', w') ->
     NoDup (clipboardLinks m')) /\
  (forall (m : Model) (w : World) (key link : string) m' c w',
     In key ["a"; "enter"] ->
     state m = stateDetails ->
     index (linksOf m) (linkCursor m) = Some link ->
     link ∈ clipboardLinks m ->
     Update remote inputUpdate m (KeyMsg key) w = (Some (m', c), w') ->
     clipboardLinks m' = clipboardLinks m) /\
  (forall (m : Model) (w : World),
     wellFormed m ->
     inListOrDetails m = true ->
     clipboardLinks m <> [] ->
     exists m',
       Update remote inputUpdate m (KeyMsg "x") w = (Some (m', CmdNil), w) /\
       clipboardLinks m' = take (Z.to_nat (clipboardCursor m)) (clipboardLinks m)
                           ++ drop (S (Z.to_nat (clipboardCursor m))) (clipboardLinks m) /\
       len (clipboardLinks m') = len (clipboardLinks m) - 1 /\
       0 <= clipboardCursor m' /\
       (clipboardCursor m' <= len (clipboardLinks m') - 1 \/
        len (clipboardLinks m') = 0 /\ clipboardCursor m' = 0)) /\
  (forall b, wellFormed (NewModel b)) /\
  (forall (msgs : list Msg) (m : Model) (w : World),
     wellFormed m ->
     exists m' w', run remote inputUpdate msgs m w = (Some m', w') /\ wellFormed m').
Proof.
  split; [|split; [|split; [|split]]].
  - intros keys m w m' w' Hk Hs Hnd Hrun.
    apply (run_adds keys m w m' w' Hk Hs Hnd Hrun).
  - intros m w key link m' c w' Hk Hs Hi Hin Hu.
    revert Hu. unfold Update, env.bind.
    rewrite globalKeys_adding by (destruct Hk as [<-|[<-|[]]]; cbn; auto).
    unfold env.ret.
    change (state (set_statusMessage StatusNone m)) with (state m). rewrite Hs.
    unfold handleDetailsKeys.
    assert (H1 : keyIs key ["esc"; "backspace"] = false)
      by (destruct Hk as [<-|[<-|[]]]; reflexivity).
    assert (H2 : keyIs key ["R"] = false)
      by (destruct Hk as [<-|[<-|[]]]; reflexivity).
    assert (H3 : keyIs key ["up"; "k"] = false)
      by (destruct Hk as [<-|[<-|[]]]; reflexivity).
    assert (H4 : keyIs key ["down"; "j"] = false)
      by (destruct Hk as [<-|[<-|[]]]; reflexivity).
    assert (H5 : keyIs key ["a"; "enter"] = true)
      by (destruct Hk as [<-|[<-|[]]]; reflexivity).
    rewrite H1, H2, H3, H4, H5.
    change (linksOf (set_statusMessage StatusNone m)) with (linksOf m).
    model_simpl. rewrite Hi.
    apply contains_true in Hin. rewrite Hin.
    destruct (bool_decide (is_Some (postDetails m)) && (0 <? len (linksOf m)));
      intros [= <- _ _]; reflexivity.
  - intros m w Hwf Hst Hne.
    assert (Hcc : 0 <= clipboardCursor m < len (clipboardLinks m)).
    { destruct Hwf as (_ & [H0 Hc] & _).
      assert (0 < len (clipboardLinks m)); [|lia].
      destruct (clipboardLinks m); [congruence|rewrite len_cons].
      pose proof (len_nonneg l). lia. }
    destruct (Update_remove m w Hst Hcc) as (m' & Hu & Heq & Hlen & _ & H0 & Hr).
    exists m'. auto.
  - apply wellFormed_NewModel.
  - intros msgs m w Hwf. apply run_wellFormed, Hwf.
Qed.

End BrowserFacts.

(** A remote that cannot be reached, for the failure of a forced refresh. *)
Lemma forced_refresh_witness :
  let m := browsing ui.stateDetails in
  let w := storedWorld in
  db.IsPostDetailsCached "p1" (env.database w) = true /\
  (exists shown, ui.index (ui.posts m) (ui.cursor m) = Some shown /\
     models.DetailsCached shown = true) /\
  exists m1 w1,
    @ui.Update json.reference unreachable (fun v _ => v) m (ui.KeyMsg "R") w
      = (Some (m1, ui.CmdFetchPostDetails "p1"), w1) /\
    ui.state m1 = ui.stateLoading /\
    (exists marked, ui.index (ui.posts m1) (ui.cursor m1) = Some marked /\
       models.DetailsCached marked = false /\ models.ID marked = "p1") /\
    db.IsPostDetailsCached "p1" (env.database w1) = false /\
    fst (ui.fetchPostDetails unreachable "p1" w1)
      = ui.PostDetailsFetchedMsg None (Some api.ErrExecute) /\
    exists m2,
      @ui.Update json.reference unreachable (fun v _ => v) m1
        (ui.PostDetailsFetchedMsg None (Some api.ErrExecute))
        (snd (ui.fetchPostDetails unreachable "p1" w1))
      = (Some (m2, ui.CmdNil), snd (ui.fetchPostDetails unreachable "p1" w1)) /\
      ui.state m2 = ui.stateError /\
      db.IsPostDetailsCached "p1"
        (env.database (snd (ui.fetchPostDetails unreachable "p1" w1))) = false.
Proof.
  intros m w. split; [vm_compute; reflexivity|].
  split; [eexists; split; reflexivity|].
  destruct (@forced_refresh_is_not_atomic json.reference unreachable (fun v _ => v)
              m w (ui.setDetailsCached true
                     (models.FromPostData (samplePostData "p1" 5)))
              eq_refl eq_refl eq_refl)
    as (m1 & w1 & Hu & Hdb & _ & Hs & _ & _ & Hmark & _ & Hc & _ & Hfail).
  exists m1, w1. split; [exact Hu|]. split; [exact Hs|].
  split.
  { destruct Hmark as (marked & Hi & Hd & Hid & _). exists marked. auto. }
  split; [exact Hc|].
  assert (Hmsg : fst (ui.fetchPostDetails unreachable "p1" w1)
                 = ui.PostDetailsFetchedMsg None (Some api.ErrExecute)) by reflexivity.
  split; [exact Hmsg|].
  destruct (Hfail api.ErrExecute Hmsg) as (m2 & Hu2 & Hs2 & _ & _ & _ & _ & Hc2).
  exists m2. auto.
Defined.

Lemma forward_then_backward_witness :
  let m := browsing ui.stateList in
  exists m1 m2 m3,
    @ui.Update json.reference unreachable (fun v _ => v) m (ui.KeyMsg "n") emptyWorld
      = (Some (m1, ui.CmdFetchPosts "c2"), emptyWorld) /\
    ui.currentPage m1 = 2 /\
    @ui.Update json.reference unreachable (fun v _ => v) m1
      (ui.PostsFetchedMsg [] "c3" true 0 None) emptyWorld
      = (Some (m2, ui.CmdNil), emptyWorld) /\
    @ui.Update json.reference unreachable (fun v _ => v) m2 (ui.KeyMsg "p") emptyWorld
      = (Some (m3, ui.CmdFetchPosts ""), emptyWorld) /\
    ui.currentPage m3 = 1 /\ ui.pageCursor m3 = "".
Proof.
  intros m.
  assert (Hf : In "n" ["n"; "l"; "right"]) by (left; reflexivity).
  assert (Hb : In "p" ["p"; "h"; "left"]) by (left; reflexivity).
  assert (Hn : ui.nextCursor m <> "") by discriminate.
  assert (Hp : 1 <= ui.currentPage m < 2 ^ 63 - 1) by (cbn; lia).
  destruct (@forward_then_backward_restores json.reference unreachable (fun v _ => v)
              m emptyWorld "n" "p" [] "c3" true 0 Hf Hb eq_refl eq_refl Hn Hp)
    as (m1 & m2 & m3 & H1 & H2 & _ & H3 & _ & H4 & H5 & H6).
  exists m1, m2, m3.
  split; [exact H1|]. split; [exact H2|]. split; [exact H3|].
  split; [exact H4|]. split; [exact H5|exact H6].
Defined.

(** ** Markup stripping *)

Section StripFacts.
Import regexp.

(** *** Candidates and their rests *)

Lemma rests_seq first next :
  rests (seqCandidates first next)
  = flat_map (fun t => rests (next t)) (rests first).
Proof.
  unfold rests, seqCandidates.
  induction first as [|[[m g] t] first IH]; cbn [flat_map map]; [reflexivity|].
  rewrite map_app, IH. f_equal. rewrite map_map.
  apply map_ext. intros [[m2 g2] t2]. reflexivity.
Qed.

Lemma flat_map_option {A B : Type} (f : A -> list B) (o : option A) :
  flat_map f (option_list o) = match o with Some t => f t | None => [] end.
Proof. destruct o; cbn; [apply app_nil_r|reflexivity]. Qed.

Lemma head_option_app {A : Type} (o : option A) (l : list A) :
  head (option_list o ++ l) = match o with Some x => Some x | None => head l end.
Proof. destruct o; reflexivity. Qed.

Lemma candidates_cat r1 r2 s :
  candidates (Cat r1 r2) s = seqCandidates (candidates r1 s) (candidates r2).
Proof. reflexivity. Qed.

Lemma rests_lit c s :
  rests (candidates (Lit c) s)
  = match s with
    | c' :: r => if Ascii.eqb c c' then [r] else []
    | [] => []
    end.
Proof.
  cbn [candidates]. destruct s as [|c' r]; [reflexivity|].
  destruct (Ascii.eqb c c'); reflexivity.
Qed.

Lemma rests_lit_cat c r2 s :
  rests (candidates (Cat (Lit c) r2) s)
  = match s with
    | c' :: r => if Ascii.eqb c c' then rests (candidates r2 r) else []
    | [] => []
    end.
Proof.
  rewrite candidates_cat, rests_seq, rests_lit.
  destruct s as [|c' r]; [reflexivity|].
  destruct (Ascii.eqb c c'); [|reflexivity].
  cbn [flat_map]. apply app_nil_r.
Qed.

Lemma rests_star p s : rests (candidates (Star p) s) = map snd (starGreedy p s).
Proof. cbn [candidates]. unfold rests. rewrite map_map. reflexivity. Qed.

Lemma rests_starLazy p s :
  rests (candidates (StarLazy p) s) = map snd (starLazy p s).
Proof. cbn [candidates]. unfold rests. rewrite map_map. reflexivity. Qed.

Lemma starts_isPrefix (p : bytes) : forall s,
  isPrefix p s = if spec.starts p s then Some (skipn (length p) s) else None.
Proof.
  induction p as [|a p IH]; intros s; cbn [isPrefix spec.starts length skipn];
    [reflexivity|].
  destruct s as [|b s]; [reflexivity|].
  destruct (Ascii.eqb a b); [apply IH|reflexivity].
Qed.

(** *** The letters of the tag names *)

Lemma readsAs_plain c :
  foldOrbit c = [[c]] -> spec.capital c = c -> c <> "s"%char -> readsAs c.
Proof.
  intros Ho Hcap Hs s. cbn [candidates]. rewrite Ho. cbn [flat_map].
  unfold spec.letter. rewrite Hcap.
  destruct s as [|a t]; [reflexivity|]. cbn [isPrefix].
  rewrite (Ascii.eqb_sym a c), orb_diag.
  destruct (Ascii.eqb_spec c a) as [->|Hne]; [reflexivity|].
  destruct (Ascii.eqb_spec c "s") as [->|]; [congruence|reflexivity].
Qed.

Lemma readsAs_cased c u :
  foldOrbit c = [[c]; [u]] -> spec.capital c = u -> c <> u -> c <> "s"%char ->
  readsAs c.
Proof.
  intros Ho Hcap Hcu Hs s. cbn [candidates]. rewrite Ho. cbn [flat_map].
  unfold spec.letter. rewrite Hcap.
  destruct s as [|a t]; [reflexivity|]. cbn [isPrefix].
  rewrite (Ascii.eqb_sym a c), (Ascii.eqb_sym a u).
  destruct (Ascii.eqb_spec c a) as [->|Hne].
  - destruct (Ascii.eqb_spec u a) as [->|]; [congruence|reflexivity].
  - destruct (Ascii.eqb_spec u a) as [->|]; [reflexivity|].
    destruct (Ascii.eqb_spec c "s") as [->|]; [congruence|reflexivity].
Qed.

Lemma readsAs_s : readsAs "s".
Proof.
  intros s. cbn [candidates].
  replace (foldOrbit "s") with [["s"%char]; ["S"%char]; ["197"%char; "191"%char]]
    by (vm_compute; reflexivity).
  cbn [flat_map]. unfold spec.letter.
  replace (spec.capital "s") with "S"%char by (vm_compute; reflexivity).
  destruct s as [|a t]; [reflexivity|].
  rewrite (starts_isPrefix ["197"%char; "191"%char] (a :: t)).
  cbn [isPrefix length]. rewrite (Ascii.eqb_sym a "s"), (Ascii.eqb_sym a "S").
  destruct (Ascii.eqb_spec "s" a) as [<-|Hs]; [reflexivity|].
  destruct (Ascii.eqb_spec "S" a) as [<-|HS]; [reflexivity|].
  cbn [orb andb app]. change (Ascii.eqb "s" "s") with true. cbn [andb].
  destruct (spec.starts _ _); reflexivity.
Qed.

Lemma readsAs_names :
  Forall readsAs (list_ascii_of_string "<script") /\
  Forall readsAs (list_ascii_of_string "</script>") /\
  Forall readsAs (list_ascii_of_string "<style") /\
  Forall readsAs (list_ascii_of_string "</style>").
Proof.
  assert (Hlt : readsAs "<") by (apply readsAs_plain; [reflexivity|reflexivity|discriminate]).
  assert (Hsl : readsAs "/") by (apply readsAs_plain; [reflexivity|reflexivity|discriminate]).
  assert (Hgt : readsAs ">") by (apply readsAs_plain; [reflexivity|reflexivity|discriminate]).
  assert (Hc : readsAs "c")
    by (apply (readsAs_cased "c" "C"); [reflexivity|reflexivity|discriminate|discriminate]).
  assert (Hr : readsAs "r")
    by (apply (readsAs_cased "r" "R"); [reflexivity|reflexivity|discriminate|discriminate]).
  assert (Hi : readsAs "i")
    by (apply (readsAs_cased "i" "I"); [reflexivity|reflexivity|discriminate|discriminate]).
  assert (Hp : readsAs "p")
    by (apply (readsAs_cased "p" "P"); [reflexivity|reflexivity|discriminate|discriminate]).
  assert (Ht : readsAs "t")
    by (apply (readsAs_cased "t" "T"); [reflexivity|reflexivity|discriminate|discriminate]).
  assert (Hy : readsAs "y")
    by (apply (readsAs_cased "y" "Y"); [reflexivity|reflexivity|discriminate|discriminate]).
  assert (Hl : readsAs "l")
    by (apply (readsAs_cased "l" "L"); [reflexivity|reflexivity|discriminate|discriminate]).
  assert (He : readsAs "e")
    by (apply (readsAs_cased "e" "E"); [reflexivity|reflexivity|discriminate|discriminate]).
  pose proof readsAs_s as Hs.
  cbn [list_ascii_of_string]. repeat split; repeat constructor; assumption.
Qed.

(** A word under [(?i)] has at most one candidate, that of the
    specification. *)
Lemma rests_folds (w : bytes) :
  Forall readsAs w ->
  forall s, rests (candidates (folds w) s) = option_list (spec.word w s).
Proof.
  induction w as [|c w IH]; intros Hf s; [reflexivity|].
  inversion Hf as [|? ? Hc Hw]; subst.
  destruct w as [|c' w'].
  - cbn [folds spec.word]. rewrite Hc. destruct (spec.letter c s); reflexivity.
  - change (folds (c :: c' :: w')) with (Cat (Fold c) (folds (c' :: w'))).
    rewrite candidates_cat, rests_seq, Hc.
    change (spec.word (c :: c' :: w') s)
      with (match spec.letter c s with
            | Some t => spec.word (c' :: w') t
            | None => None
            end).
    rewrite flat_map_option.
    destruct (spec.letter c s) as [t|]; [|reflexivity].
    apply IH, Hw.
Qed.

(** *** The repetitions *)

(** After the longest run of bytes other than [>] a [>] has to follow:
    the shorter runs end before a byte that is not [>]. *)
Lemma greedy_then_gt (g : bytes -> list bytes) (s : bytes) :
  flat_map (fun t => match t with
                     | c :: r => if Ascii.eqb ">" c then g r else []
                     | [] => []
                     end)
           (map snd (starGreedy api.notGt s))
  = match spec.afterGt s with
    | Some r => g r
    | None => []
    end.
Proof.
  induction s as [|c t IH]; [reflexivity|].
  cbn [starGreedy spec.afterGt]. unfold api.notGt at 1.
  rewrite (Ascii.eqb_sym c ">").
  destruct (Ascii.eqb ">" c) eqn:Hc; cbn [negb].
  - cbn [map flat_map snd]. rewrite Hc. apply app_nil_r.
  - rewrite map_app, map_map. cbn [map snd].
    rewrite flat_map_app. cbn [flat_map]. rewrite Hc, ?app_nil_r.
    exact IH.
Qed.

(** The lazy repetition stops at the first place where the closing word
    stands. *)
Lemma lazy_then_word (w : bytes) (s : bytes) :
  head (flat_map (fun t => option_list (spec.word w t))
                 (map snd (starLazy api.anyChar s)))
  = spec.afterWord w s.
Proof.
  induction s as [|c t IH].
  - cbn [starLazy map flat_map snd spec.afterWord].
    rewrite head_option_app. destruct (spec.word w []); reflexivity.
  - cbn [starLazy]. change (api.anyChar c) with true. cbn iota.
    cbn [map flat_map snd]. rewrite map_map. cbn [snd].
    cbn [spec.afterWord]. rewrite head_option_app.
    destruct (spec.word w (c :: t)) as [r|]; [reflexivity|].
    exact IH.
Qed.

(** *** The three expressions *)

(** The first candidate of the expression of a block is the block of the
    specification. *)
Lemma block_candidates (name : string) (s : bytes) :
  Forall readsAs (list_ascii_of_string ("<" +:+ name)) ->
  Forall readsAs (list_ascii_of_string ("</" +:+ name +:+ ">")) ->
  head (rests (candidates
                 (Cat (foldlit ("<" +:+ name))
                    (Cat (Star api.notGt)
                       (Cat (Lit ">")
                          (Cat (StarLazy api.anyChar)
                               (foldlit ("</" +:+ name +:+ ">")))))) s))
  = spec.block name s.
Proof.
  intros Hopen Hclose. unfold spec.block, foldlit.
  set (opening := list_ascii_of_string ("<" +:+ name)) in *.
  set (closing := list_ascii_of_string ("</" +:+ name +:+ ">")) in *.
  rewrite candidates_cat, rests_seq, (rests_folds opening Hopen), flat_map_option.
  destruct (spec.word opening s) as [s1|]; [|reflexivity].
  rewrite candidates_cat, rests_seq, rests_star.
  rewrite (flat_map_ext _
             (fun t => match t with
                       | c :: r =>
                           if Ascii.eqb ">" c
                           then rests (seqCandidates (candidates (StarLazy api.anyChar) r)
                                         (candidates (folds closing)))
                           else []
                       | [] => []
                       end)).
  2:{ intros t. exact (rests_lit_cat ">" _ t). }
  rewrite (greedy_then_gt
             (fun r => rests (seqCandidates (candidates (StarLazy api.anyChar) r)
                                (candidates (folds closing))))).
  destruct (spec.afterGt s1) as [s2|]; [|reflexivity].
  rewrite rests_seq, rests_starLazy.
  rewrite (flat_map_ext _ (fun t => option_list (spec.word closing t))).
  2:{ intros t. apply rests_folds, Hclose. }
  apply lazy_then_word.
Qed.

Lemma tag_candidates (s : bytes) :
  head (rests (candidates api.htmlTagRe s)) = spec.tag s.
Proof.
  unfold api.htmlTagRe. cbn [api.cat]. rewrite rests_lit_cat. unfold spec.tag.
  destruct s as [|a r]; [reflexivity|]. rewrite (Ascii.eqb_sym a "<").
  destruct (Ascii.eqb "<" a); cbn [andb]; [|destruct r; reflexivity].
  rewrite candidates_cat, rests_seq.
  destruct r as [|c t]; [reflexivity|].
  cbn [candidates].
  unfold api.notGt at 1. destruct (Ascii.eqb c ">"); cbn [negb]; [reflexivity|].
  unfold rests at 2. rewrite map_map. cbn [snd].
  rewrite (flat_map_ext _
             (fun t => match t with
                       | c' :: r' => if Ascii.eqb ">" c' then [r'] else []
                       | [] => []
                       end)).
  2:{ intros t'. apply rests_lit. }
  rewrite (greedy_then_gt (fun r' => [r'])).
  destruct (spec.afterGt t); reflexivity.
Qed.

(** *** No candidate is empty *)

Lemma cat_nonempty r1 r2 :
  (forall s m g t, In (m, g, t) (candidates r1 s) -> m <> []) ->
  forall s m g t, In (m, g, t) (candidates (Cat r1 r2) s) -> m <> [].
Proof.
  intros H1 s m g t Hin. cbn [candidates] in Hin.
  apply seqCandidates_in in Hin
    as (m1 & g1 & t1 & m2 & g2 & t2 & Hin1 & _ & [= -> _ _]).
  apply H1 in Hin1. destruct m1; [congruence|discriminate].
Qed.

Lemma fold_nonempty c s m g t : In (m, g, t) (candidates (Fold c) s) -> m <> [].
Proof.
  cbn [candidates]. rewrite in_flat_map. intros (enc & Henc & Hin).
  destruct (isPrefix enc s); [|destruct Hin].
  destruct Hin as [[= <- _ _]|[]].
  unfold foldOrbit in Henc. cbn [In] in Henc.
  destruct Henc as [<-|Henc]; [discriminate|].
  apply in_app_or in Henc as [Henc|Henc].
  - destruct (Ascii.eqb _ _); [destruct Henc|].
    destruct Henc as [<-|[]]. discriminate.
  - destruct (Ascii.eqb (toLower c) "s");
      [|destruct (Ascii.eqb (toLower c) "k")];
      [destruct Henc as [<-|[]]; discriminate
      |destruct Henc as [<-|[]]; discriminate
      |destruct Henc].
Qed.

Lemma folds_nonempty c w s m g t :
  In (m, g, t) (candidates (folds (c :: w)) s) -> m <> [].
Proof.
  destruct w as [|c' w'].
  - apply fold_nonempty.
  - change (folds (c :: c' :: w')) with (Cat (Fold c) (folds (c' :: w'))).
    apply cat_nonempty. intros s0 m0 g0 t0. apply fold_nonempty.
Qed.

Lemma lit_nonempty c s m g t : In (m, g, t) (candidates (Lit c) s) -> m <> [].
Proof.
  cbn [candidates]. destruct s as [|c' r]; [intros []|].
  destruct (Ascii.eqb c c'); [|intros []].
  intros [[= <- _ _]|[]]. discriminate.
Qed.

(** *** Replacing against the reading of the specification *)

Lemma replaceAll_skip r repl (m t : bytes) :
  replaceAll r repl (m ++ t) (length m) = replaceAll r repl t 0.
Proof.
  induction m as [|c m IH]; cbn [app length replaceAll]; [|exact IH].
  destruct t; reflexivity.
Qed.

Lemma replaceAll_replaceEach r repl (item : bytes -> option bytes) :
  (forall s, head (rests (candidates r s)) = item s) ->
  (forall s m g t, In (m, g, t) (candidates r s) -> m <> []) ->
  forall fuel s, (length s <= fuel)%nat ->
    replaceAll r repl s 0 = spec.replaceEach item repl fuel s.
Proof.
  intros Hitem Hne. induction fuel as [|fuel IH]; intros s Hlen.
  - destruct s; [reflexivity|cbn in Hlen; lia].
  - destruct s as [|c tl]; [reflexivity|].
    cbn [replaceAll spec.replaceEach]. rewrite <- Hitem.
    destruct (candidates r (c :: tl)) as [|[[m g] t] cs] eqn:Hc.
    + cbn [rests map head]. f_equal. apply IH. cbn in Hlen. lia.
    + cbn [rests map head snd].
      assert (Hin : In (m, g, t) (candidates r (c :: tl)))
        by (rewrite Hc; left; reflexivity).
      pose proof (candidates_split _ _ _ _ _ Hin) as Hs.
      pose proof (Hne _ _ _ _ Hin) as Hm.
      destruct m as [|c0 m]; [congruence|].
      injection Hs as <- ->.
      replace (length (c :: m) - 1)%nat with (length m) by (cbn; lia).
      rewrite replaceAll_skip. f_equal. apply IH.
      cbn in Hlen. rewrite length_app in Hlen. lia.
Qed.

Lemma ReplaceAllString_blocks (name html : string) :
  Forall readsAs (list_ascii_of_string ("<" +:+ name)) ->
  Forall readsAs (list_ascii_of_string ("</" +:+ name +:+ ">")) ->
  ReplaceAllString
    (api.cat [foldlit ("<" +:+ name); Star api.notGt; Lit ">";
              StarLazy api.anyChar; foldlit ("</" +:+ name +:+ ">")]) html ""
  = spec.dropBlocks name html.
Proof.
  intros Hopen Hclose.
  unfold ReplaceAllString, spec.dropBlocks, spec.replaceAllOf. f_equal.
  apply replaceAll_replaceEach; [| |apply le_n].
  - intros s. apply block_candidates; assumption.
  - cbn [api.cat]. apply cat_nonempty. intros s m g t.
    unfold foldlit. change (list_ascii_of_string ("<" +:+ name))
      with ("<"%char :: list_ascii_of_string name).
    apply folds_nonempty.
Qed.

Lemma ReplaceAllString_tags (html : string) :
  ReplaceAllString api.htmlTagRe html "" = spec.dropTags html.
Proof.
  unfold ReplaceAllString, spec.dropTags, spec.replaceAllOf. f_equal.
  apply replaceAll_replaceEach; [exact tag_candidates| |apply le_n].
  unfold api.htmlTagRe. cbn [api.cat]. apply cat_nonempty.
  intros s m g t. apply lit_nonempty.
Qed.

Lemma strings_replaceAll_skip old new (m t : bytes) :
  strings.replaceAll old new (m ++ t) (length m) = strings.replaceAll old new t 0.
Proof.
  induction m as [|c m IH]; cbn [app length strings.replaceAll]; [|exact IH].
  destruct t; reflexivity.
Qed.

Lemma strings_ReplaceAll_literally (text old new : string) :
  old <> "" ->
  strings.ReplaceAll text old new = spec.replaceAllOf (spec.literally old) new text.
Proof.
  intros Hold. unfold strings.ReplaceAll, spec.replaceAllOf, spec.literally. f_equal.
  set (p := list_ascii_of_string old).
  assert (Hp : p <> []) by (destruct old; [congruence|discriminate]).
  generalize (list_ascii_of_string new). intros repl.
  generalize (list_ascii_of_string text). intros s.
  assert (H : forall fuel s, (length s <= fuel)%nat ->
            strings.replaceAll p repl s 0
            = spec.replaceEach
                (fun s => if spec.starts p s then Some (skipn (length p) s) else None)
                repl fuel s); [|apply H, le_n].
  induction fuel as [|fuel IH]; intros s0 Hlen.
  - destruct s0; [reflexivity|cbn in Hlen; lia].
  - destruct s0 as [|c tl]; [reflexivity|].
    cbn [strings.replaceAll spec.replaceEach].
    rewrite (starts_isPrefix p (c :: tl)).
    destruct (spec.starts p (c :: tl)) eqn:Hs.
    + assert (Hpre : isPrefix p (c :: tl) = Some (skipn (length p) (c :: tl)))
        by (rewrite starts_isPrefix, Hs; reflexivity).
      apply isPrefix_Some in Hpre.
      destruct p as [|c0 p']; [congruence|].
      cbn [length skipn] in *. injection Hpre as <- Htl.
      replace (S (length p') - 1)%nat with (length p') by lia.
      rewrite Htl at 1.
      rewrite strings_replaceAll_skip. f_equal. apply IH.
      cbn in Hlen. rewrite Htl, length_app in Hlen. lia.
    + f_equal. apply IH. cbn in Hlen. lia.
Qed.

(** *** White space runs *)

Lemma blank_perlSpace c : spec.blank c = api.perlSpace c.
Proof. destruct c as [[] [] [] [] [] [] [] []]; reflexivity. Qed.

Lemma starGreedy_head p s :
  exists m rest tl, starGreedy p s = (m, rest) :: tl /\ length m = runLength p s.
Proof.
  induction s as [|c s IH]; cbn [starGreedy runLength].
  - exists [], [], []. auto.
  - destruct (p c); [|exists [], (c :: s), []; auto].
    destruct IH as (m & rest & tl & -> & Hl). cbn.
    exists (c :: m), rest. eexists. split; [reflexivity|]. cbn. congruence.
Qed.

(** At a white space byte the expression [\s+] takes the whole run. *)
Lemma whitespaceRe_candidates c t :
  api.perlSpace c = true ->
  exists m g rest tl,
    candidates api.whitespaceRe (c :: t) = (m, g, rest) :: tl /\
    (length m - 1 = runLength api.perlSpace t)%nat.
Proof.
  intros Hc. unfold api.whitespaceRe. cbn [candidates]. rewrite Hc.
  destruct (starGreedy_head api.perlSpace t) as (m & rest & tl & -> & Hl).
  cbn. exists (c :: m), [], rest. eexists. split; [reflexivity|]. cbn. lia.
Qed.

Lemma whitespaceRe_no_candidate c t :
  api.perlSpace c = false -> candidates api.whitespaceRe (c :: t) = [].
Proof. intros Hc. unfold api.whitespaceRe. cbn [candidates]. rewrite Hc. reflexivity. Qed.

(** Replacing [\s+] by a space is collapsing the runs. *)
Lemma replaceAll_whitespace s :
  replaceAll api.whitespaceRe [" "%char] s 0 = spec.collapse false s /\
  replaceAll api.whitespaceRe [" "%char] s (runLength api.perlSpace s)
    = spec.collapse true s.
Proof.
  induction s as [|c s [IH0 IH1]]; [split; reflexivity|].
  cbn [replaceAll spec.collapse runLength]. rewrite blank_perlSpace.
  destruct (api.perlSpace c) eqn:Hc.
  - split; [|exact IH1].
    destruct (whitespaceRe_candidates c s Hc) as (m & g & rest & tl & -> & Hl).
    rewrite Hl, IH1. reflexivity.
  - rewrite (whitespaceRe_no_candidate c s Hc), IH0. split; reflexivity.
Qed.

Lemma ReplaceAllString_whitespace (text : string) :
  ReplaceAllString api.whitespaceRe text " " = spec.collapseSpaces text.
Proof.
  unfold ReplaceAllString, spec.collapseSpaces. f_equal.
  apply (proj1 (replaceAll_whitespace _)).
Qed.

Lemma collapse_singleSpaced s : forall b,
  spec.singleSpaced b (spec.collapse b s) = true.
Proof.
  induction s as [|c s IH]; intros b; cbn [spec.collapse]; [reflexivity|].
  destruct (spec.blank c) eqn:Hc.
  - destruct b; [apply IH|]. cbn [spec.singleSpaced].
    change (spec.blank " ") with true. cbn. apply IH.
  - cbn [spec.singleSpaced]. rewrite Hc. apply IH.
Qed.

Lemma singleSpaced_weaken s b : spec.singleSpaced b s = true -> spec.singleSpaced false s = true.
Proof.
  destruct s as [|c s]; [reflexivity|]. cbn [spec.singleSpaced].
  destruct (spec.blank c); [|auto]. destruct b; [|auto].
  rewrite andb_false_r. discriminate.
Qed.

Lemma singleSpaced_suffix pre s b :
  spec.singleSpaced b (pre ++ s) = true -> spec.singleSpaced false s = true.
Proof.
  revert b. induction pre as [|c pre IH]; intros b; cbn [app].
  - apply singleSpaced_weaken.
  - cbn [spec.singleSpaced]. destruct (spec.blank c).
    + intros H. apply andb_prop in H as [_ H]. eapply IH, H.
    + apply IH.
Qed.

Lemma singleSpaced_prefix s suf : forall b,
  spec.singleSpaced b (s ++ suf) = true -> spec.singleSpaced b s = true.
Proof.
  induction s as [|c s IH]; intros b; cbn [app spec.singleSpaced]; [reflexivity|].
  destruct (spec.blank c).
  - intros H. apply andb_prop in H as [H1 H]. rewrite H1. cbn. eapply IH, H.
  - apply IH.
Qed.

(** *** Trimming *)

Lemma stripOneOf_Some (encs : list bytes) (s t : bytes) :
  strings.stripOneOf encs s = Some t -> exists enc, In enc encs /\ s = enc ++ t.
Proof.
  induction encs as [|enc encs IH]; cbn [strings.stripOneOf]; [discriminate|].
  destruct (isPrefix enc s) as [t'|] eqn:Hp.
  - intros [= ->]. exists enc. split; [left; reflexivity|]. apply isPrefix_Some, Hp.
  - intros H. destruct (IH H) as (enc' & Hin & Hs). exists enc'. split; [right|]; auto.
Qed.

Lemma stripOneOf_None (encs : list bytes) (s : bytes) :
  strings.stripOneOf encs s = None ->
  forall enc, In enc encs -> spec.starts enc s = false.
Proof.
  induction encs as [|enc encs IH]; cbn [strings.stripOneOf]; [intros _ ? []|].
  rewrite starts_isPrefix.
  destruct (spec.starts enc s) eqn:Hs; [discriminate|].
  intros H enc' [<-|Hin]; [exact Hs|]. apply IH; assumption.
Qed.

Lemma stripOneOf_None_prefix (encs : list bytes) (s suf : bytes) :
  strings.stripOneOf encs (s ++ suf) = None -> strings.stripOneOf encs s = None.
Proof.
  induction encs as [|enc encs IH]; cbn [strings.stripOneOf]; [reflexivity|].
  destruct (isPrefix enc (s ++ suf)) eqn:Hp; [discriminate|].
  rewrite (isPrefix_None_prefix _ _ _ Hp). exact IH.
Qed.

Lemma dropSpace_Some (encs : list bytes) (s t : bytes) :
  strings.dropSpace encs s = Some t ->
  exists r, trimmedRune encs r /\ s = r ++ t.
Proof.
  destruct s as [|c s]; cbn [strings.dropSpace]; [discriminate|].
  destruct (strings.asciiSpace c) eqn:Hc.
  - intros [= ->]. exists [c]. split; [right; exists c; auto|reflexivity].
  - intros H. destruct (stripOneOf_Some _ _ _ H) as (enc & Hin & Hs).
    exists enc. split; [left; exact Hin|exact Hs].
Qed.

Lemma dropSpace_None (encs : list bytes) (s : bytes) :
  Forall (fun enc => enc <> []) encs ->
  strings.dropSpace encs s = None ->
  forall r, trimmedRune encs r -> spec.starts r s = false.
Proof.
  intros Hne Hd r Hr. destruct s as [|a t].
  - destruct Hr as [Hin|(c & -> & _)]; [|reflexivity].
    rewrite Forall_forall in Hne.
    specialize (Hne r (proj2 (list_elem_of_In _ _) Hin)).
    destruct r; [congruence|reflexivity].
  - cbn [strings.dropSpace] in Hd.
    destruct (strings.asciiSpace a) eqn:Ha; [discriminate|].
    destruct Hr as [Hin|(c & -> & Hc)].
    + apply (stripOneOf_None encs); assumption.
    + cbn [spec.starts]. destruct (Ascii.eqb_spec c a) as [->|]; [congruence|reflexivity].
Qed.

Lemma dropSpace_None_prefix (encs : list bytes) (s suf : bytes) :
  strings.dropSpace encs (s ++ suf) = None -> strings.dropSpace encs s = None.
Proof.
  destruct s as [|c s]; cbn [app]; [reflexivity|]. cbn [strings.dropSpace].
  destruct (strings.asciiSpace c); [discriminate|].
  apply (stripOneOf_None_prefix encs (c :: s) suf).
Qed.

(** Trimming on the left takes white space runes off and stops before a
    byte that starts none. *)
Lemma trimLeft_spec (encs : list bytes) :
  Forall (fun enc => enc <> []) encs ->
  forall fuel s, (length s <= fuel)%nat ->
    (exists runes, Forall (trimmedRune encs) runes /\
       s = concat runes ++ strings.trimLeft encs fuel s) /\
    strings.dropSpace encs (strings.trimLeft encs fuel s) = None.
Proof.
  intros Hne. induction fuel as [|fuel IH]; intros s Hlen.
  - destruct s; [|cbn in Hlen; lia]. cbn.
    split; [exists []; split; [constructor|reflexivity]|reflexivity].
  - cbn [strings.trimLeft]. destruct (strings.dropSpace encs s) as [t|] eqn:Hd.
    + destruct (dropSpace_Some encs s t Hd) as (r & Hr & ->).
      assert (Hrne : r <> []).
      { destruct Hr as [Hin|(c & -> & _)]; [|discriminate].
        rewrite Forall_forall in Hne. apply Hne, list_elem_of_In, Hin. }
      destruct (IH t) as [(runes & Hrunes & Hp') Hn].
      { rewrite length_app in Hlen. destruct r; [congruence|]. cbn in Hlen. lia. }
      split; [|exact Hn]. exists (r :: runes). split; [constructor; assumption|].
      cbn [concat]. rewrite <- app_assoc, <- Hp'. reflexivity.
    + split; [exists []; split; [constructor|reflexivity]|exact Hd].
Qed.

Lemma unicodeSpaces_nonempty : Forall (fun enc => enc <> []) strings.unicodeSpaces.
Proof. unfold strings.unicodeSpaces. cbn. repeat constructor; discriminate. Qed.

Lemma unicodeSpaces_rev_nonempty :
  Forall (fun enc => enc <> []) (map (@rev ascii) strings.unicodeSpaces).
Proof. unfold strings.unicodeSpaces. cbn. repeat constructor; discriminate. Qed.

(** The runes of the program and those of the specification are the
    same. *)
Lemma asciiSpace_white c : strings.asciiSpace c = true -> In [c] spec.whiteRunes.
Proof.
  destruct c as [[] [] [] [] [] [] [] []]; intros H; try discriminate H;
    vm_compute; tauto.
Qed.

Lemma unicodeSpaces_white r : In r strings.unicodeSpaces -> In r spec.whiteRunes.
Proof.
  intros H. vm_compute in H.
  repeat (destruct H as [<-|H]; [vm_compute; tauto|]). destruct H.
Qed.

Lemma white_cases r :
  In r spec.whiteRunes -> trimmedRune strings.unicodeSpaces r.
Proof.
  intros H. unfold spec.whiteRunes in H. cbn [In] in H.
  repeat (destruct H as [<-|H];
          [first [right; eexists; split; [reflexivity|reflexivity]
                 |left; vm_compute; tauto]|]).
  destruct H.
Qed.

Lemma trimmedRune_white r :
  trimmedRune strings.unicodeSpaces r -> In r spec.whiteRunes.
Proof.
  intros [Hin|(c & -> & Hc)]; [apply unicodeSpaces_white, Hin|apply asciiSpace_white, Hc].
Qed.

Lemma trimmedRune_rev r :
  trimmedRune (map (@rev ascii) strings.unicodeSpaces) r -> In (rev r) spec.whiteRunes.
Proof.
  intros [Hin|(c & -> & Hc)]; [|apply asciiSpace_white, Hc].
  apply in_map_iff in Hin as (enc & <- & Hin). rewrite rev_involutive.
  apply unicodeSpaces_white, Hin.
Qed.

Lemma rev_concat (runes : list bytes) :
  rev (concat runes) = concat (map (@rev ascii) (rev runes)).
Proof.
  induction runes as [|r runes IH]; [reflexivity|].
  cbn [concat rev]. rewrite rev_app_distr, IH, map_app, concat_app.
  cbn. rewrite app_nil_r. reflexivity.
Qed.

(** [TrimSpace] gives its argument without the white space at its ends. *)
Lemma TrimSpace_spec (text : string) : spec.trimOf text (strings.TrimSpace text).
Proof.
  unfold spec.trimOf, strings.TrimSpace, strings.TrimRightSpace, strings.TrimLeftSpace.
  rewrite !list_ascii_of_string_of_list_ascii.
  set (s := list_ascii_of_string text).
  destruct (trimLeft_spec _ unicodeSpaces_nonempty (length s) s (le_n _))
    as [(runes & Hrunes & Hpre) Hl].
  set (l := strings.trimLeft strings.unicodeSpaces (length s) s) in *.
  destruct (trimLeft_spec _ unicodeSpaces_rev_nonempty (length l) (rev l))
    as [(runes' & Hrunes' & Hsuf) Hr]; [rewrite length_rev; lia|].
  set (r := strings.trimLeft (map (@rev ascii) strings.unicodeSpaces) (length l) (rev l)) in *.
  assert (Hlr : l = rev r ++ rev (concat runes')).
  { rewrite <- (rev_involutive l), Hsuf, rev_app_distr. reflexivity. }
  split; [|split].
  - exists (concat runes), (rev (concat runes')). split; [|split].
    + rewrite <- Hlr. exact Hpre.
    + exists runes. split; [|reflexivity].
      eapply Forall_impl; [exact Hrunes|]. apply trimmedRune_white.
    + exists (map (@rev ascii) (rev runes')). split; [|apply rev_concat].
      apply Forall_forall. intros x Hx. apply list_elem_of_In in Hx.
      apply in_map_iff in Hx as (y & <- & Hy). apply in_rev in Hy.
      rewrite Forall_forall in Hrunes'.
      apply trimmedRune_rev, Hrunes', list_elem_of_In, Hy.
  - unfold spec.whiteAtHead.
    destruct (existsb _ _) eqn:E; [|reflexivity].
    apply existsb_exists in E as (x & Hx & Hs).
    rewrite (dropSpace_None strings.unicodeSpaces (rev r) unicodeSpaces_nonempty) in Hs;
      [discriminate| |apply white_cases, Hx].
    apply (dropSpace_None_prefix _ (rev r) (rev (concat runes'))).
    rewrite <- Hlr. exact Hl.
  - unfold spec.whiteAtEnd. rewrite rev_involutive.
    destruct (existsb _ _) eqn:E; [|reflexivity].
    apply existsb_exists in E as (x & Hx & Hs).
    rewrite (dropSpace_None _ r unicodeSpaces_rev_nonempty Hr) in Hs; [discriminate|].
    destruct (white_cases x Hx) as [Hin|(c & -> & Hc)].
    + left. apply in_map, Hin.
    + right. exists c. auto.
Qed.

End StripFacts.

(** The program's expressions and library calls, stage by stage, against
    the stages of the specification. *)
Lemma stripHTML_by_stages (html : string) :
  api.stripHTML html
  = strings.TrimSpace
      (spec.collapseSpaces
         (spec.decodeEntities
            (spec.dropTags
               (spec.dropBlocks "style" (spec.dropBlocks "script" html))))).
Proof.
  destruct readsAs_names as (Hs1 & Hs2 & Hy1 & Hy2).
  unfold api.stripHTML.
  change api.scriptTagRe
    with (api.cat [regexp.foldlit ("<" +:+ "script"); regexp.Star api.notGt;
                   regexp.Lit ">"; regexp.StarLazy api.anyChar;
                   regexp.foldlit ("</" +:+ "script" +:+ ">")]).
  change api.styleTagRe
    with (api.cat [regexp.foldlit ("<" +:+ "style"); regexp.Star api.notGt;
                   regexp.Lit ">"; regexp.StarLazy api.anyChar;
                   regexp.foldlit ("</" +:+ "style" +:+ ">")]).
  rewrite (ReplaceAllString_blocks "script" html Hs1 Hs2).
  rewrite (ReplaceAllString_blocks "style" _ Hy1 Hy2).
  rewrite ReplaceAllString_tags.
  rewrite !strings_ReplaceAll_literally by discriminate.
  rewrite ReplaceAllString_whitespace. reflexivity.
Qed.


(** The stages of the specification on sample texts. *)
Example spec_stages_sample :
  spec.dropBlocks "script" "a<SCRIPT type=x>var t = '<b>';</script> b<script>" = "a b<script>" /\
  spec.dropBlocks "style" "x<style>p{}</STYLE>y" = "xy" /\
  spec.dropTags "<p>Hi <b>there</b></p> <> 1 < 2" = "Hi there <> 1 < 2" /\
  spec.decodeEntities "&lt;a&gt;&amp;amp;&#39;&nbsp;&copy;" = "<a>&amp;' &copy;" /\
  spec.collapseSpaces (String "009" " a " +:+ String "010" " b ") = " a b " /\
  spec.trimOf " a b  " "a b".
Proof.
  do 5 (split; [vm_compute; reflexivity|]).
  unfold spec.trimOf. split; [|split; vm_compute; reflexivity].
  exists [" "%char], [" "%char; " "%char]. split; [reflexivity|].
  split; [exists [[" "%char]]|exists [[" "%char]; [" "%char]]];
    (split; [|reflexivity]); repeat constructor; vm_compute; tauto.
Qed.

(** The order of the stages matters: a tag spelled with entities survives,
    an entity spelled with [&amp;] is decoded twice, a script block goes
    with its content whatever the case of its name. *)
Example stripHTML_order :
  api.stripHTML "&lt;b&gt;bold&lt;/b&gt;" = "<b>bold</b>" /\
  api.stripHTML "&amp;lt;" = "<" /\
  api.stripHTML "a<SCRIPT type=x>var t = '<b>';</script> b" = "a b" /\
  api.stripHTML "  x <style>p{}</STYLE>  y  " = "x y".
Proof. vm_compute. repeat split; reflexivity. Qed.

(** A session: a campaign is entered, its page arrives, a post is opened,
    all its links are added, one of them is added again, the clipboard
    cursor moves down and the link under it is removed. *)
Lemma clipboard_session :
  let typed := fun (v key : string) => v +:+ key in
  let details :=
    {| models.dID := "p1"; models.dTitle := "p1"; models.dContent := "";
       models.dDescription := ""; models.dPostType := "";
       models.dPublishedAt := 0;
       models.dYouTubeLinks := ["https://www.youtube.com/watch?v=aaaaaaaaaaa";
                                 "https://www.youtube.com/watch?v=bbbbbbbbbbb"] |} in
  let msgs :=
    [ui.KeyMsg "1"; ui.KeyMsg "enter";
     ui.PostsFetchedMsg [models.FromPostData (samplePostData "p1" 5)] "c2" true 0 None;
     ui.KeyMsg "enter"; ui.PostDetailsFetchedMsg (Some details) None;
     ui.KeyMsg "A"; ui.KeyMsg "a"; ui.KeyMsg "]"; ui.KeyMsg "x"] in
  exists m' w',
    @ui.run json.reference unreachable typed msgs (ui.NewModel true) emptyWorld
      = (Some m', w') /\
    wellFormed m' /\
    ui.clipboardLinks m' = ["https://www.youtube.com/watch?v=aaaaaaaaaaa"] /\
    ui.clipboardCursor m' = 0.
Proof.
  intros typed details msgs.
  destruct (@clipboard_invariant json.reference unreachable typed)
    as (_ & _ & _ & Hnew & Hrun).
  destruct (Hrun msgs (ui.NewModel true) emptyWorld (Hnew true)) as (m' & w' & Hr & Hwf).
  exists m', w'. split; [exact Hr|]. split; [exact Hwf|].
  assert (Hc : fst (@ui.run json.reference unreachable typed msgs (ui.NewModel true)
                      emptyWorld)
               = Some m') by (rewrite Hr; reflexivity).
  vm_compute in Hc. injection Hc as <-. split; reflexivity.
Defined.

(** * Further properties of the code *)

Import aux2.

(** ** The store *)

Section StoreExtras.
Import db.

Lemma alter_absent {A : Type} (f : A -> A) (k : string) (m : gmap string A) :
  m !! k = None -> alter f k m = m.
Proof.
  intros Hk. apply map_eq. intros i. rewrite lookup_alter.
  destruct (decide (k = i)) as [->|]; [rewrite Hk|]; reflexivity.
Qed.

(** X1.  [ClearPostDetails] resets the details of the row and nothing
    else: the flag becomes false, [GetPost] shows an empty description and
    link string with every summary field as before, other rows and the
    campaigns are untouched, and an absent id leaves the store as it is. *)
Theorem ClearPostDetails_resets_details_only (postID : string) (d : Database) :
  IsPostDetailsCached postID (ClearPostDetails postID d) = false /\
  (forall p, GetPost postID d = Some p ->
     exists q, GetPost postID (ClearPostDetails postID d) = Some q /\
       Description q = "" /\ YouTubeLinks q = "" /\ DetailsCached q = false /\
       ID q = ID p /\ CampaignID q = CampaignID p /\ Type_ q = Type_ p /\
       PostType q = PostType p /\ Title q = Title p /\
       PatreonURL q = PatreonURL p /\
       CurrentUserCanView q = CurrentUserCanView p /\
       PublishedAt q = PublishedAt p /\ CachedAt q = CachedAt p) /\
  (GetPost postID d = None -> ClearPostDetails postID d = d) /\
  (forall id, id <> postID ->
     GetPost id (ClearPostDetails postID d) = GetPost id d) /\
  campaigns (ClearPostDetails postID d) = campaigns d.
Proof.
  unfold IsPostDetailsCached, GetPost, ClearPostDetails. cbn.
  rewrite lookup_alter_eq.
  split; [destruct (posts d !! postID); reflexivity|].
  split; [|split; [|split; [|reflexivity]]].
  - intros p. destruct (posts d !! postID) as [r|]; cbn; [|discriminate].
    intros [= <-]. eexists. split; [reflexivity|]. cbn. repeat split.
  - destruct (posts d !! postID) as [r|] eqn:Hr; cbn; [discriminate|].
    intros _. destruct d as [cs ps]. cbn in *. f_equal. apply alter_absent, Hr.
  - intros id Hne. rewrite lookup_alter_ne by congruence. reflexivity.
Qed.

(** X2.  [SavePostDetails] for an id that has no row changes nothing. *)
Theorem SavePostDetails_absent_is_noop (postID description_ youtubeLinks : string)
    (d : Database) :
  posts d !! postID = None ->
  SavePostDetails postID description_ youtubeLinks d = d /\
  GetPost postID (SavePostDetails postID description_ youtubeLinks d) = None /\
  IsPostDetailsCached postID (SavePostDetails postID description_ youtubeLinks d) = false.
Proof.
  intros Hr.
  assert (Heq : SavePostDetails postID description_ youtubeLinks d = d).
  { unfold SavePostDetails. destruct d as [cs ps]. cbn in *. f_equal.
    apply alter_absent, Hr. }
  rewrite Heq. unfold GetPost, IsPostDetailsCached. rewrite Hr. auto.
Qed.

Lemma SavePostDetails_absent_witness :
  posts empty !! "p1" = None /\
  SavePostDetails "p1" "text" "null" empty = empty /\
  GetPost "p1" (SavePostDetails "p1" "text" "null" empty) = None /\
  IsPostDetailsCached "p1" (SavePostDetails "p1" "text" "null" empty) = false.
Proof.
  assert (H : posts empty !! "p1" = None) by reflexivity.
  split; [exact H|]. exact (SavePostDetails_absent_is_noop "p1" "text" "null" empty H).
Defined.

(** X3.  A second [SavePost] of the same post gives the store of a single
    one at the later time; the table gains the id of the post and no
    other. *)
Theorem SavePost_twice (t1 t2 : models.Time) (post : CachedPost) (d : Database) :
  SavePost t2 post (SavePost t1 post d) = SavePost t2 post d /\
  dom (posts (SavePost t1 post d)) = {[ID post]} ∪ dom (posts d).
Proof.
  split.
  - unfold SavePost. cbn. rewrite lookup_insert_eq, insert_insert_eq.
    destruct (posts d !! ID post); reflexivity.
  - unfold SavePost. cbn. apply dom_insert_L.
Qed.

(** X4.  [SaveCampaign] keeps the last name and time given for an id, and
    touches neither the other campaigns nor the posts. *)
Theorem SaveCampaign_last_wins (t1 t2 : models.Time) (id name1 name2 : string)
    (d : Database) :
  SaveCampaign t2 id name2 (SaveCampaign t1 id name1 d) = SaveCampaign t2 id name2 d /\
  campaigns (SaveCampaign t2 id name2 d) !! id
    = Some {| name := name2; campaign_cached_at := t2 |} /\
  (forall id', id' <> id ->
     campaigns (SaveCampaign t2 id name2 d) !! id' = campaigns d !! id') /\
  posts (SaveCampaign t2 id name2 d) = posts d.
Proof.
  unfold SaveCampaign. cbn. rewrite insert_insert_eq, lookup_insert_eq.
  repeat split. intros id' Hne. rewrite lookup_insert_ne by congruence. reflexivity.
Qed.

(** X5.  [ClearCampaignCache] removes the campaign and exactly the posts
    stored under it: a post of the campaign is gone, a post of another
    campaign is read as before, and the other campaigns stay. *)
Theorem ClearCampaignCache_removes_campaign (campaignID : string) (d : Database) :
  campaigns (ClearCampaignCache campaignID d) !! campaignID = None /\
  (forall id', id' <> campaignID ->
     campaigns (ClearCampaignCache campaignID d) !! id' = campaigns d !! id') /\
  (forall id p, GetPost id d = Some p ->
     GetPost id (ClearCampaignCache campaignID d)
     = if decide (CampaignID p = campaignID) then None else Some p) /\
  (forall id, GetPost id d = None ->
     GetPost id (ClearCampaignCache campaignID d) = None).
Proof.
  unfold ClearCampaignCache, GetPost. cbn.
  split; [apply lookup_delete_eq|]. split.
  { intros id' Hne. apply lookup_delete_ne. congruence. }
  split.
  - intros id p. destruct (posts d !! id) as [r|] eqn:Hr; cbn; [|discriminate].
    intros [= <-]. cbn. destruct (decide (campaign_id r = campaignID)) as [He|Hne].
    + rewrite map_lookup_filter_None_2; [reflexivity|].
      right. intros r' Hr'. cbn. rewrite Hr in Hr'. injection Hr' as <-. auto.
    + rewrite (map_lookup_filter_Some_2 _ _ id r Hr); [reflexivity|exact Hne].
  - intros id. destruct (posts d !! id) as [r|] eqn:Hr; cbn; [discriminate|].
    intros _. rewrite map_lookup_filter_None_2; [reflexivity|]. left. exact Hr.
Qed.

(** X6.  In every store built by the operations of the package, details
    marked as cached are present: the invariant holds for the empty store
    and every operation keeps it. *)
Theorem cachedHasDetails_invariant :
  cachedHasDetails empty /\
  (forall now id name_ d, cachedHasDetails d -> cachedHasDetails (SaveCampaign now id name_ d)) /\
  (forall now post d, cachedHasDetails d -> cachedHasDetails (SavePost now post d)) /\
  (forall id desc links d, cachedHasDetails d ->
     cachedHasDetails (SavePostDetails id desc links d)) /\
  (forall id d, cachedHasDetails d -> cachedHasDetails (ClearPostDetails id d)) /\
  (forall id d, cachedHasDetails d -> cachedHasDetails (ClearCampaignCache id d)).
Proof.
  unfold cachedHasDetails.
  split; [intros id r H; unfold empty in H; cbn in H; rewrite lookup_empty in H;
          discriminate|].
  split; [intros now id name_ d Hd; exact Hd|].
  split; [|split; [|split]].
  - intros now post d Hd id r. unfold SavePost. cbn.
    destruct (decide (ID post = id)) as [<-|Hne].
    + rewrite lookup_insert_eq. intros [= <-].
      destruct (posts d !! ID post) as [old|] eqn:Ho; cbn; [|discriminate].
      apply (Hd _ _ Ho).
    + rewrite lookup_insert_ne by exact Hne. apply Hd.
  - intros id0 desc links d Hd id r. unfold SavePostDetails. cbn.
    rewrite lookup_alter. destruct (decide (id0 = id)) as [<-|Hne]; [|apply Hd].
    destruct (posts d !! id0) as [old|]; cbn; [|discriminate].
    intros [= <-]. cbn. eauto.
  - intros id0 d Hd id r. unfold ClearPostDetails. cbn.
    rewrite lookup_alter. destruct (decide (id0 = id)) as [<-|Hne]; [|apply Hd].
    destruct (posts d !! id0) as [old|]; cbn; [|discriminate].
    intros [= <-]. cbn. discriminate.
  - intros id0 d Hd id r. unfold ClearCampaignCache. cbn.
    intros Hr. apply map_lookup_filter_Some_1_1 in Hr. apply (Hd _ _ Hr).
Qed.

End StoreExtras.

Section PageExtras.
Import pages.

(** X7.  The page table: [GetPage] after [SavePage] gives the page saved,
    whatever the key held before; other keys are untouched; [ClearPage]
    removes its key only, and [ClearCampaignPages] every cursor of its
    campaign and no page of another. *)
Theorem page_table_roundtrip (now : models.Time)
    (campaignID cursor postsJSON nextCursor : string) (hasMore : bool) (t : Table) :
  GetPage campaignID cursor (SavePage now campaignID cursor postsJSON nextCursor hasMore t)
    = Some {| CampaignID := campaignID; Cursor := cursor; PostsJSON := postsJSON;
              NextCursor := nextCursor; HasMore := hasMore; CachedAt := now |} /\
  (forall c k, (c, k) <> (campaignID, cursor) ->
     GetPage c k (SavePage now campaignID cursor postsJSON nextCursor hasMore t)
     = GetPage c k t) /\
  GetPage campaignID cursor (ClearPage campaignID cursor t) = None /\
  (forall c k, (c, k) <> (campaignID, cursor) ->
     GetPage c k (ClearPage campaignID cursor t) = GetPage c k t) /\
  (forall k, GetPage campaignID k (ClearCampaignPages campaignID t) = None) /\
  (forall c k, c <> campaignID ->
     GetPage c k (ClearCampaignPages campaignID t) = GetPage c k t).
Proof.
  unfold GetPage, SavePage, ClearPage, ClearCampaignPages.
  split; [rewrite lookup_insert_eq; reflexivity|].
  split; [intros c k Hne; rewrite lookup_insert_ne by congruence; reflexivity|].
  split; [rewrite lookup_delete_eq; reflexivity|].
  split; [intros c k Hne; rewrite lookup_delete_ne by congruence; reflexivity|].
  split.
  - intros k. rewrite map_lookup_filter_None_2; [reflexivity|].
    right. intros r _. cbn. auto.
  - intros c k Hne. destruct (t !! (c, k)) as [r|] eqn:Hr.
    + rewrite (map_lookup_filter_Some_2 _ _ (c, k) r Hr); [reflexivity|exact Hne].
    + rewrite map_lookup_filter_None_2; [reflexivity|]. left. exact Hr.
Qed.

End PageExtras.

(** ** Delays *)

(** X8.  The configured delays: the minimum is at least 1000 ms and is the
    configured one from 1000 on; the maximum is 3000 ms when none is
    configured (zero or less), whatever the minimum is, and otherwise the
    configured one raised to the minimum. *)
Theorem request_delay_bounds (c : cli.Config) :
  1000 <= cli.GetRequestDelayMinMs c /\
  (1000 <= cli.RequestDelayMinMs c ->
     cli.GetRequestDelayMinMs c = cli.RequestDelayMinMs c) /\
  (cli.RequestDelayMaxMs c <= 0 -> cli.GetRequestDelayMaxMs c = 3000) /\
  (0 < cli.RequestDelayMaxMs c ->
     cli.GetRequestDelayMaxMs c
     = Z.max (cli.RequestDelayMaxMs c) (cli.GetRequestDelayMinMs c)) /\
  0 < cli.GetRequestDelayMaxMs c.
Proof.
  unfold cli.GetRequestDelayMaxMs, cli.GetRequestDelayMinMs.
  destruct (Z.ltb_spec (cli.RequestDelayMinMs c) 1000);
    destruct (Z.leb_spec (cli.RequestDelayMaxMs c) 0);
    repeat split; try lia;
    try (intros _;
         match goal with
         | |- context [?a <? ?b] => destruct (Z.ltb_spec a b); lia
         end);
    match goal with
    | |- context [?a <? ?b] => destruct (Z.ltb_spec a b); lia
    end.
Qed.

Lemma int64_small z : - 2 ^ 63 <= z < 2 ^ 63 -> delay.int64 z = z.
Proof.
  intros H. unfold delay.int64. rewrite Z.mod_small; lia.
Qed.

(** X9.  A pause of the batch workflow, taken with delays configured up
    to 9223372036854 ms (the largest number of milliseconds a
    [time.Duration] holds) and a random source that keeps the contract of
    [rand.Intn]: [rand.Intn] does not panic, and the duration slept is at
    least the minimum delay, so at least 1000 ms, less than the maximum
    when the maximum exceeds the minimum, and the minimum itself
    otherwise.  One millisecond above the bound the product with
    [time.Millisecond] wraps to a negative duration. *)
Theorem randomDelay_bounds (intn : Z -> Z) (c : cli.Config) :
  (forall n, 0 < n -> 0 <= intn n < n) ->
  cli.RequestDelayMinMs c <= 9223372036854 ->
  cli.RequestDelayMaxMs c <= 9223372036854 ->
  let mn := cli.GetRequestDelayMinMs c in
  let mx := cli.GetRequestDelayMaxMs c in
  (exists ns,
     delay.randomDelay intn mn mx = Some ns /\
     1000 * delay.Millisecond <= mn * delay.Millisecond <= ns /\
     (mn < mx -> ns < mx * delay.Millisecond) /\
     (mx <= mn -> ns = mn * delay.Millisecond)) /\
  delay.randomDelay intn 9223372036855 9223372036855 = Some (-9223372036854551616).
Proof.
  intros Hintn Hmin Hmax mn mx. split; [|reflexivity].
  destruct (request_delay_bounds c) as (Hlo & _ & _ & _ & Hpos).
  fold mn in Hlo. fold mx in Hpos.
  assert (Hmn : mn <= 9223372036854).
  { unfold mn, cli.GetRequestDelayMinMs.
    destruct (cli.RequestDelayMinMs c <? 1000); lia. }
  assert (Hmx : mx <= 9223372036854).
  { unfold mx, cli.GetRequestDelayMaxMs.
    destruct (cli.RequestDelayMaxMs c <=? 0); [lia|].
    destruct (cli.RequestDelayMaxMs c <? cli.GetRequestDelayMinMs c);
      [exact Hmn|exact Hmax]. }
  unfold delay.randomDelay, delay.Millisecond.
  destruct (Z.leb_spec mx mn) as [Hle|Hlt].
  - exists (mn * 1000000). rewrite int64_small by lia.
    split; [reflexivity|]. repeat split; lia.
  - cbn zeta. rewrite (int64_small (mx - mn)) by lia.
    destruct (Z.leb_spec (mx - mn) 0) as [Hn|Hn]; [lia|].
    pose proof (Hintn (mx - mn) Hn) as Hr.
    rewrite (int64_small (mn + intn (mx - mn))) by lia.
    exists ((mn + intn (mx - mn)) * 1000000). rewrite int64_small by lia.
    split; [reflexivity|]. repeat split; lia.
Qed.

Lemma randomDelay_bounds_witness :
  let c := oneCampaign in
  let intn := fun n => n / 2 in
  (forall n, 0 < n -> 0 <= intn n < n) /\
  delay.randomDelay intn (cli.GetRequestDelayMinMs c) (cli.GetRequestDelayMaxMs c)
  = Some 2000000000 /\
  exists ns,
    delay.randomDelay intn (cli.GetRequestDelayMinMs c) (cli.GetRequestDelayMaxMs c)
    = Some ns /\
    1000 * delay.Millisecond <= cli.GetRequestDelayMinMs c * delay.Millisecond <= ns.
Proof.
  intros c intn.
  assert (H : forall n, 0 < n -> 0 <= intn n < n).
  { intros n Hn. unfold intn. split; [apply Z.div_pos; lia|].
    apply Z.div_lt; lia. }
  split; [exact H|]. split; [reflexivity|].
  assert (Hmin : cli.RequestDelayMinMs c <= 9223372036854) by (cbn; lia).
  assert (Hmax : cli.RequestDelayMaxMs c <= 9223372036854) by (cbn; lia).
  destruct (randomDelay_bounds intn c H Hmin Hmax) as ((ns & Hns & Hb & _) & _).
  exists ns. split; [exact Hns|exact Hb].
Defined.

(** ** More on the batch workflow *)

Section BatchExtras.
Import models env.
Context {parser : url.Parser} {codec : JSON} (remote : Remote).
Variable ids : list string.
Variables mn mx : Z.

Lemma batchStep_refl w : batchStep ids mn mx w w.
Proof.
  split; [exists []; rewrite app_nil_r; auto|]. auto.
Qed.

Lemma batchStep_trans w1 w2 w3 :
  batchStep ids mn mx w1 w2 -> batchStep ids mn mx w2 w3 -> batchStep ids mn mx w1 w3.
Proof.
  intros ((n1 & Hl1 & Hf1) & Hd1 & Hc1 & Hr1) ((n2 & Hl2 & Hf2) & Hd2 & Hc2 & Hr2).
  split; [|split; [|split]].
  - exists (n1 ++ n2). rewrite Hl2, Hl1, app_assoc. split; [reflexivity|].
    apply Forall_app; auto.
  - congruence.
  - congruence.
  - intros id r Hr Hc. apply Hr2; [apply Hr1; assumption|exact Hc].
Qed.

(** A stretch that logs batch events and at most saves the details of a
    post that is not cached. *)
Lemma batchStep_intro w w' evs :
  log w' = log w ++ evs ->
  Forall (batchEvent ids mn mx) evs ->
  (database w' = database w \/
   exists id desc links,
     db.IsPostDetailsCached id (database w) = false /\
     database w' = db.SavePostDetails id desc links (database w)) ->
  batchStep ids mn mx w w'.
Proof.
  intros Hl He Hd. split; [exists evs; auto|].
  destruct Hd as [->|(id & desc & links & Hnc & ->)]; [auto|]. cbn.
  split; [apply dom_alter_L|]. split; [reflexivity|].
  intros id' r Hr Hc. rewrite lookup_alter.
  destruct (decide (id = id')) as [->|Hne]; [|exact Hr].
  unfold db.IsPostDetailsCached in Hnc. rewrite Hr in Hnc. congruence.
Qed.

Lemma fetchDetails_batchStep post k links w :
  db.IsPostDetailsCached (ID post) (database w) = false ->
  (forall links' w', batchStep ids mn mx w' (snd (k links' w'))) ->
  batchStep ids mn mx w (snd (cli.fetchDetails remote post mn mx links k w)).
Proof.
  intros Hnc Hk. unfold cli.fetchDetails. world. cbn.
  destruct (api.liftExchange _ _) as [e|details]; cbn.
  - eapply batchStep_trans; [|apply Hk].
    apply (batchStep_intro _ _ [EvFetchPostDetails (ID post); EvSleep mn mx]);
      [cbn; rewrite <- app_assoc; reflexivity|repeat constructor|left; reflexivity].
  - eapply batchStep_trans; [|apply Hk].
    apply (batchStep_intro _ _ [EvFetchPostDetails (ID post); EvSleep mn mx]);
      [cbn; rewrite <- app_assoc; reflexivity|repeat constructor|].
    right. exists (ID post), (dDescription details), (Marshal (dYouTubeLinks details)).
    auto.
Qed.

Lemma processPosts_batchStep posts filterDate : forall links w,
  batchStep ids mn mx w (snd (cli.processPosts remote posts filterDate mn mx links w)).
Proof.
  induction posts as [|post rest IH]; intros links w; cbn [cli.processPosts].
  - apply batchStep_refl.
  - destruct (negb (IsZero filterDate) && Before (PublishedAt post) filterDate);
      [apply batchStep_refl|].
    unfold env.bind at 1. unfold env.query.
    destruct (db.GetPost (ID post) (database w)) as [c|] eqn:Hg.
    + destruct (db.DetailsCached c) eqn:Hc; [apply IH|].
      apply fetchDetails_batchStep; [|exact IH].
      unfold db.GetPost in Hg. unfold db.IsPostDetailsCached.
      destruct (db.posts (database w) !! ID post) as [r|]; [|reflexivity].
      cbn in Hg. injection Hg as <-. exact Hc.
    + apply fetchDetails_batchStep; [|exact IH].
      unfold db.GetPost in Hg. unfold db.IsPostDetailsCached.
      destruct (db.posts (database w) !! ID post); [discriminate|reflexivity].
Qed.

Lemma pageLoop_batchStep campaignID filterDate fuel :
  In campaignID ids ->
  forall cursor links w,
  batchStep ids mn mx w
    (snd (cli.pageLoop remote fuel campaignID filterDate mn mx cursor links w)).
Proof.
  intros Hid.
  induction fuel as [|fuel IH]; intros cursor links w; cbn [cli.pageLoop].
  - apply batchStep_refl.
  - world. cbn. destruct (api.liftExchange _ _) as [e|page]; cbn.
    + apply (batchStep_intro _ _ [EvFetchPosts campaignID 50 cursor]);
        [reflexivity|repeat constructor; exact Hid|left; reflexivity].
    + match goal with
      | |- context [cli.processPosts ?r ?ps ?fd ?a ?b ?l ?w1] =>
          pose proof (processPosts_batchStep ps fd l w1) as Hp;
          destruct (cli.processPosts r ps fd a b l w1) as [[returned links'] w2]
      end.
      cbn in Hp.
      assert (Hw2 : batchStep ids mn mx w w2).
      { eapply batchStep_trans; [|exact Hp].
        apply (batchStep_intro _ _ [EvFetchPosts campaignID 50 cursor; EvSleep mn mx]);
          [cbn; rewrite <- app_assoc; reflexivity|repeat constructor; exact Hid
          |left; reflexivity]. }
      destruct returned; [exact Hw2|].
      destruct (negb (HasMore page) || String.eqb (NextCursor page) ""); [exact Hw2|].
      eapply batchStep_trans; [exact Hw2|apply IH].
Qed.

Lemma campaignLoop_batchStep filterDate fuel cs :
  (forall c, In c cs -> In (cli.ID c) ids) ->
  forall st w,
  batchStep ids mn mx w
    (snd (cli.campaignLoop remote fuel cs filterDate mn mx st w)).
Proof.
  induction cs as [|c cs IH]; intros Hcs st w; cbn [cli.campaignLoop].
  - apply batchStep_refl.
  - unfold env.bind at 1. unfold cli.extractLinksFromCampaign.
    assert (Hid : In (cli.ID c) ids) by (apply Hcs; left; reflexivity).
    assert (Hrest : forall c', In c' cs -> In (cli.ID c') ids)
      by (intros c' Hc'; apply Hcs; right; exact Hc').
    specialize (IH Hrest).
    pose proof (pageLoop_batchStep (cli.ID c) filterDate fuel Hid "" [] w) as Hp.
    destruct (cli.pageLoop remote fuel (cli.ID c) filterDate mn mx "" [] w)
      as [[[links [e|]]|] w1]; cbn in Hp.
    + eapply batchStep_trans; [exact Hp|apply IH].
    + world. eapply batchStep_trans; [exact Hp|].
      eapply batchStep_trans; [|apply IH].
      apply (batchStep_intro _ _ [EvSleep mn mx]);
        [reflexivity|repeat constructor|left; reflexivity].
    + exact Hp.
Qed.

(** The merge of the links of the campaigns keeps them distinct. *)
Lemma fold_mergeLinks_NoDup links : forall st,
  NoDup (snd st) ->
  (forall l, default false (fst st !! l) = true <-> l ∈ snd st) ->
  NoDup (snd (fold_left cli.mergeLinks links st)) /\
  (forall l, default false (fst (fold_left cli.mergeLinks links st) !! l) = true
             <-> l ∈ snd (fold_left cli.mergeLinks links st)).
Proof.
  induction links as [|link links IH]; intros [seen all] Hnd Hs; cbn [fold_left];
    [auto|].
  apply IH.
  - unfold cli.mergeLinks. cbn in *.
    destruct (default false (seen !! link)) eqn:Hd; cbn; [exact Hnd|].
    apply NoDup_app. split; [exact Hnd|]. split; [|apply NoDup_singleton].
    intros x Hx Hx'. apply list_elem_of_singleton in Hx'. subst x.
    apply Hs in Hx. congruence.
  - unfold cli.mergeLinks. cbn in *.
    destruct (default false (seen !! link)) eqn:Hd; cbn; [exact Hs|].
    intros l. rewrite elem_of_app, list_elem_of_singleton.
    destruct (decide (link = l)) as [->|Hne].
    + rewrite lookup_insert_eq. cbn. tauto.
    + rewrite lookup_insert_ne by exact Hne. rewrite Hs.
      split; [tauto|]. intros [H|H]; [exact H|congruence].
Qed.

Lemma campaignLoop_NoDup filterDate fuel cs : forall st w links,
  NoDup (snd st) ->
  (forall l, default false (fst st !! l) = true <-> l ∈ snd st) ->
  fst (cli.campaignLoop remote fuel cs filterDate mn mx st w) = Some links ->
  NoDup links.
Proof.
  induction cs as [|c cs IH]; intros st w links Hnd Hs; cbn [cli.campaignLoop].
  - cbn. intros [= <-]. exact Hnd.
  - unfold env.bind at 1.
    destruct (cli.extractLinksFromCampaign remote fuel (cli.ID c) filterDate mn mx w)
      as [[[ls [e|]]|] w1].
    + apply IH; assumption.
    + world. destruct (fold_mergeLinks_NoDup ls st Hnd Hs) as [Hnd' Hs'].
      apply IH; assumption.
    + cbn. discriminate.
Qed.

End BatchExtras.

(** X10.  The batch workflow fails before any request when no campaign is
    configured, and when the cutoff given is not a date of the layout
    [2006-01-02] (as every text that is not ten bytes long): the world is
    left as it is. *)
Theorem batch_fails_fast {parser : url.Parser} {codec : JSON} (remote : env.Remote)
    (fuel : nat) (cfg : cli.Config) (afterDate : string) (w : env.World) :
  (cli.Campaigns cfg = [] ->
     cli.ExtractYouTubeLinks remote fuel cfg afterDate w
     = (Some (inl cli.NoCampaigns), w)) /\
  (cli.Campaigns cfg <> [] -> afterDate <> "" -> time.Parse afterDate = None ->
     cli.ExtractYouTubeLinks remote fuel cfg afterDate w
     = (Some (inl (cli.InvalidDate afterDate)), w)) /\
  (String.length afterDate <> 10%nat -> time.Parse afterDate = None).
Proof.
  split; [|split].
  - intros Hc. unfold cli.ExtractYouTubeLinks. rewrite Hc. reflexivity.
  - intros Hc Hne Hp. unfold cli.ExtractYouTubeLinks.
    destruct (cli.Campaigns cfg) as [|c cs]; [congruence|]. cbn [length Nat.eqb].
    apply String.eqb_neq in Hne. rewrite Hne, Hp. reflexivity.
  - intros Hlen. unfold time.Parse.
    rewrite <- (string_of_list_ascii_of_string afterDate) in Hlen.
    rewrite length_string_of_list_ascii in Hlen.
    destruct (list_ascii_of_string afterDate)
      as [|a0 [|a1 [|a2 [|a3 [|a4 [|a5 [|a6 [|a7 [|a8 [|a9 [|a10 l]]]]]]]]]]];
      try reflexivity.
    cbn in Hlen. congruence.
Qed.

(** X11.  The links the batch workflow prints are pairwise distinct. *)
Theorem batch_links_distinct {parser : url.Parser} {codec : JSON} (remote : env.Remote)
    (fuel : nat) (cfg : cli.Config) (afterDate : string) (w : env.World)
    (links : list string) :
  fst (cli.ExtractYouTubeLinks remote fuel cfg afterDate w) = Some (inr links) ->
  NoDup links.
Proof.
  unfold cli.ExtractYouTubeLinks.
  destruct (length (cli.Campaigns cfg) =? 0)%nat; [discriminate|].
  destruct (if String.eqb afterDate "" then Some 0 else time.Parse afterDate)
    as [filterDate|]; [|discriminate].
  unfold env.bind, env.ret.
  destruct (cli.campaignLoop remote fuel (cli.Campaigns cfg) filterDate
              (cli.GetRequestDelayMinMs cfg) (cli.GetRequestDelayMaxMs cfg) (∅, []) w)
    as [[ls|] w1] eqn:Hloop; cbn; [|discriminate].
  intros [= <-].
  apply (campaignLoop_NoDup remote (cli.GetRequestDelayMinMs cfg)
           (cli.GetRequestDelayMaxMs cfg) filterDate fuel (cli.Campaigns cfg) (∅, []) w).
  - constructor.
  - intros l. cbn. rewrite lookup_empty. cbn. split; [discriminate|].
    intros H. apply not_elem_of_nil in H. destruct H.
  - rewrite Hloop. reflexivity.
Qed.

Lemma batch_links_distinct_witness :
  let remote := twoPages [samplePostData "p1" (time.Date 2024 6 1);
                          samplePostData "p2" (time.Date 2024 5 1)] in
  let out := @cli.ExtractYouTubeLinks url.referenceParse json.reference remote 5
               oneCampaign "2024-01-01" emptyWorld in
  fst out = Some (inr ["https://www.youtube.com/watch?v=dQw4w9WgXcQ"]) /\
  NoDup ["https://www.youtube.com/watch?v=dQw4w9WgXcQ"].
Proof.
  intros remote out.
  assert (H : fst out = Some (inr ["https://www.youtube.com/watch?v=dQw4w9WgXcQ"]))
    by (vm_compute; reflexivity).
  split; [exact H|].
  exact (@batch_links_distinct url.referenceParse json.reference remote 5
           oneCampaign "2024-01-01" emptyWorld _ H).
Defined.

(** X12.  What the batch workflow does to the world.  It never inserts or
    deletes a row: the stored post ids and the campaigns are the same
    after as before, so on an empty posts table the store is unchanged; a
    row whose details are cached is left as it is.  The events it adds to
    the log are requests for a page of 50 posts of a configured campaign,
    requests for the details of a post and pauses with the configured
    delays; the system clipboard is never written. *)
Theorem batch_store_effect {parser : url.Parser} {codec : JSON} (remote : env.Remote)
    (fuel : nat) (cfg : cli.Config) (afterDate : string) (w : env.World) :
  let w' := snd (cli.ExtractYouTubeLinks remote fuel cfg afterDate w) in
  dom (db.posts (env.database w')) = dom (db.posts (env.database w)) /\
  db.campaigns (env.database w') = db.campaigns (env.database w) /\
  (forall id r, db.posts (env.database w) !! id = Some r ->
     db.details_cached r = true ->
     db.posts (env.database w') !! id = Some r) /\
  (db.posts (env.database w) = ∅ -> env.database w' = env.database w) /\
  exists new, env.log w' = env.log w ++ new /\
    forall e, In e new ->
      match e with
      | env.EvFetchPosts campaignID count _ =>
          In campaignID (map cli.ID (cli.Campaigns cfg)) /\ count = 50
      | env.EvFetchPostDetails _ => True
      | env.EvSleep minMs maxMs =>
          minMs = cli.GetRequestDelayMinMs cfg /\ maxMs = cli.GetRequestDelayMaxMs cfg
      | env.EvClipboardWrite _ => False
      end.
Proof.
  intros w'.
  assert (Hstep : batchStep (map cli.ID (cli.Campaigns cfg))
                    (cli.GetRequestDelayMinMs cfg)
                    (cli.GetRequestDelayMaxMs cfg) w w').
  { subst w'. unfold cli.ExtractYouTubeLinks.
    destruct (length (cli.Campaigns cfg) =? 0)%nat; [apply batchStep_refl|].
    destruct (if String.eqb afterDate "" then Some 0 else time.Parse afterDate)
      as [filterDate|]; [|apply batchStep_refl].
    unfold env.bind, env.ret.
    pose proof (campaignLoop_batchStep remote (map cli.ID (cli.Campaigns cfg))
                  (cli.GetRequestDelayMinMs cfg)
                  (cli.GetRequestDelayMaxMs cfg) filterDate fuel (cli.Campaigns cfg)
                  (fun c Hc => in_map cli.ID _ c Hc) (∅, []) w) as Hl.
    destruct (cli.campaignLoop _ _ _ _ _ _ _ _) as [r w1]. exact Hl. }
  destruct Hstep as ((new & Hlog & Hnew) & Hdom & Hcs & Hrows).
  split; [exact Hdom|]. split; [exact Hcs|]. split; [exact Hrows|].
  split.
  - intros Hempty. rewrite Hempty, dom_empty_L in Hdom. apply dom_empty_inv_L in Hdom.
    destruct (env.database w') as [cs' ps'], (env.database w) as [cs ps]. cbn in *.
    congruence.
  - exists new. split; [exact Hlog|]. intros e He.
    rewrite Forall_forall in Hnew. apply (Hnew e), list_elem_of_In, He.
Qed.

(** ** More on link extraction *)

Lemma list_ascii_of_string_app (a b : string) :
  list_ascii_of_string (a +:+ b) = list_ascii_of_string a ++ list_ascii_of_string b.
Proof. induction a as [|c a IH]; [reflexivity|]. exact (f_equal (cons c) IH). Qed.

Section ExtractExtras.
Import regexp.

(** A literal matches its own text. *)
Lemma lits_candidates l : forall s m g t,
  In (m, g, t) (candidates (lits l) s) -> m = l.
Proof.
  induction l as [|c l IH]; intros s m g t; cbn [lits].
  - cbn. intros [[= <- _ _]|[]]. reflexivity.
  - destruct l as [|c' l'].
    + cbn [candidates]. destruct s as [|c0 s]; [intros []|].
      destruct (Ascii.eqb_spec c c0) as [->|]; [|intros []].
      intros [[= <- _ _]|[]]. reflexivity.
    + cbn [candidates]. intros Hin.
      apply seqCandidates_in in Hin
        as (m1 & g1 & t1 & m2 & g2 & t2 & H1 & H2 & [= -> _ _]).
      rewrite (IH _ _ _ _ H2).
      cbn [candidates] in H1. destruct s as [|c0 s]; [destruct H1|].
      destruct (Ascii.eqb_spec c c0) as [->|]; [|destruct H1].
      destruct H1 as [[= <- _ _]|[]]. reflexivity.
Qed.

Lemma scheme_candidates s m g t :
  In (m, g, t) (candidates api.scheme s) ->
  m = list_ascii_of_string "https://" \/ m = list_ascii_of_string "http://".
Proof.
  unfold api.scheme. cbn [candidates]. intros Hin.
  apply seqCandidates_in in Hin
    as (m1 & g1 & t1 & m2 & g2 & t2 & H1 & H2 & [= -> _ _]).
  apply (lits_candidates (list_ascii_of_string "http")) in H1. subst m1.
  apply seqCandidates_in in H2
    as (m3 & g3 & t3 & m4 & g4 & t4 & H3 & H4 & [= -> _ _]).
  apply (lits_candidates (list_ascii_of_string "://")) in H4. subst m4.
  apply in_app_or in H3 as [H3|[[= <- _ _]|[]]]; [|right; reflexivity].
  cbn [candidates] in H3. destruct t1 as [|c0 t1]; [destruct H3|].
  destruct (Ascii.eqb_spec "s" c0) as [<-|]; [|destruct H3].
  destruct H3 as [[= <- _ _]|[]]. left. reflexivity.
Qed.

Lemma www_candidates s m g t :
  In (m, g, t) (candidates api.www s) ->
  m = list_ascii_of_string "www." \/ m = [].
Proof.
  unfold api.www. cbn [candidates]. intros Hin.
  apply in_app_or in Hin as [Hin|[[= <- _ _]|[]]]; [|right; reflexivity].
  apply (lits_candidates (list_ascii_of_string "www.")) in Hin. left. exact Hin.
Qed.

Lemma videoID_candidates s m g t :
  In (m, g, t) (candidates api.videoID s) -> g = [m].
Proof.
  unfold api.videoID. cbn [candidates]. intros Hin.
  apply in_map_iff in Hin as ([[m' g'] t'] & [= <- <- _] & Hin).
  apply (repeat_class_candidates api.idChar 11) in Hin as (_ & _ & ->).
  reflexivity.
Qed.

Lemma lit_groupless host : groupless (lit host) = true.
Proof.
  unfold lit. generalize (list_ascii_of_string host). intros l.
  induction l as [|c [|c' l'] IH]; cbn; auto.
Qed.

(** The text matched by a pattern is one of the shapes followed by the id
    captured. *)
Lemma pattern_candidates r s m g t :
  In r api.youtubePatterns ->
  In (m, g, t) (candidates r s) ->
  exists shape id,
    In shape urlShapes /\ g = [id] /\ m = list_ascii_of_string shape ++ id.
Proof.
  intros Hr Hin.
  assert (Hlong : forall host,
    In (m, g, t) (candidates (api.cat [api.scheme; api.www; lit host; api.videoID]) s) ->
    exists a b id,
      (a = "https://" \/ a = "http://") /\ (b = "www." \/ b = "") /\ g = [id] /\
      m = list_ascii_of_string (a +:+ b +:+ host) ++ id).
  { intros host H. cbn [api.cat candidates] in H.
    apply seqCandidates_in in H
      as (m1 & g1 & t1 & m2 & g2 & t2 & H1 & H2 & [= -> -> _]).
    apply seqCandidates_in in H2
      as (m3 & g3 & t3 & m4 & g4 & t4 & H3 & H4 & [= -> -> _]).
    apply seqCandidates_in in H4
      as (m5 & g5 & t5 & m6 & g6 & t6 & H5 & H6 & [= -> -> _]).
    rewrite (groupless_no_groups api.scheme eq_refl _ _ _ _ H1).
    rewrite (groupless_no_groups api.www eq_refl _ _ _ _ H3).
    rewrite (groupless_no_groups (lit host) (lit_groupless host) _ _ _ _ H5).
    rewrite (videoID_candidates _ _ _ _ H6).
    apply lits_candidates in H5. subst m5.
    apply scheme_candidates in H1. apply www_candidates in H3.
    exists (string_of_list_ascii m1), (string_of_list_ascii m3), m6.
    split; [destruct H1 as [-> | ->]; auto|].
    split; [destruct H3 as [-> | ->]; auto|].
    split; [reflexivity|].
    rewrite !list_ascii_of_string_app, !list_ascii_of_string_of_list_ascii.
    rewrite <- !app_assoc. reflexivity. }
  assert (Hshape : forall a b host,
    (a = "https://" \/ a = "http://") -> (b = "www." \/ b = "") ->
    In ("https://www." +:+ host) urlShapes -> In ("https://" +:+ host) urlShapes ->
    In ("http://www." +:+ host) urlShapes -> In ("http://" +:+ host) urlShapes ->
    In (a +:+ b +:+ host) urlShapes).
  { intros a b host [-> | ->] [-> | ->] H1 H2 H3 H4; assumption. }
  unfold api.youtubePatterns in Hr. cbn [In] in Hr.
  destruct Hr as [<-|[<-|[<-|[<-|[<-|[]]]]]].
  - destruct (Hlong _ Hin) as (a & b & id & Ha & Hb & -> & ->).
    eexists _, id. split; [|split; reflexivity].
    apply Hshape; auto; vm_compute; auto 25.
  - destruct (Hlong _ Hin) as (a & b & id & Ha & Hb & -> & ->).
    eexists _, id. split; [|split; reflexivity].
    apply Hshape; auto; vm_compute; auto 25.
  - cbn [api.cat candidates] in Hin.
    apply seqCandidates_in in Hin
      as (m1 & g1 & t1 & m2 & g2 & t2 & H1 & H2 & [= -> -> _]).
    apply seqCandidates_in in H2
      as (m5 & g5 & t5 & m6 & g6 & t6 & H5 & H6 & [= -> -> _]).
    rewrite (groupless_no_groups api.scheme eq_refl _ _ _ _ H1).
    rewrite (groupless_no_groups (lit "youtu.be/") (lit_groupless _) _ _ _ _ H5).
    rewrite (videoID_candidates _ _ _ _ H6).
    apply lits_candidates in H5. subst m5.
    apply scheme_candidates in H1. destruct H1 as [-> | ->].
    + exists "https://youtu.be/", m6. split; [vm_compute; auto 25|]. split; reflexivity.
    + exists "http://youtu.be/", m6. split; [vm_compute; auto 25|]. split; reflexivity.
  - destruct (Hlong _ Hin) as (a & b & id & Ha & Hb & -> & ->).
    eexists _, id. split; [|split; reflexivity].
    apply Hshape; auto; vm_compute; auto 25.
  - destruct (Hlong _ Hin) as (a & b & id & Ha & Hb & -> & ->).
    eexists _, id. split; [|split; reflexivity].
    apply Hshape; auto; vm_compute; auto 25.
Qed.

(** Every match of [findAll] is a candidate at some place of the text. *)
Lemma findAll_occurs r s : forall skip match_,
  In match_ (findAll r s skip) ->
  exists pre m g t,
    s = pre ++ m ++ t /\ In (m, g, t) (candidates r (m ++ t)) /\ match_ = m :: g.
Proof.
  induction s as [|c s IH]; intros skip match_; cbn [findAll]; [intros []|].
  assert (Hlater : forall k, In match_ (findAll r s k) ->
            exists pre m g t, c :: s = pre ++ m ++ t /\
              In (m, g, t) (candidates r (m ++ t)) /\ match_ = m :: g).
  { intros k Hk. destruct (IH k _ Hk) as (pre & m & g & t & -> & Hc & ->).
    exists (c :: pre), m, g, t. auto. }
  destruct skip as [|k]; [|apply Hlater].
  destruct (candidates r (c :: s)) as [|[[m g] t] cs] eqn:Hc; [apply Hlater|].
  intros [<-|Hin]; [|eapply Hlater, Hin].
  assert (Hin : In (m, g, t) (candidates r (c :: s))) by (rewrite Hc; left; reflexivity).
  pose proof (candidates_split _ _ _ _ _ Hin) as Hs.
  exists [], m, g, t. rewrite <- Hs. auto.
Qed.

End ExtractExtras.

Lemma string_of_list_ascii_app (a b : bytes) :
  string_of_list_ascii (a ++ b) = string_of_list_ascii a +:+ string_of_list_ascii b.
Proof. induction a as [|c a IH]; [reflexivity|]. exact (f_equal (String c) IH). Qed.

Lemma string_append_assoc (a b c : string) : (a +:+ b) +:+ c = a +:+ b +:+ c.
Proof. induction a as [|x a IH]; [reflexivity|]. exact (f_equal (String x) IH). Qed.

Lemma ExtractYouTubeLinks_scanned (content : string) :
  api.ExtractYouTubeLinks content
  = map spec.canonical (spec.firstSeen (spec.scannedIDs content)).
Proof.
  unfold api.ExtractYouTubeLinks.
  destruct (fold_patterns_tracks content api.youtubePatterns (∅, []) [])
    as [Hl _]; [auto| |].
  - split; [reflexivity|]. intros id. cbn [fst]. rewrite lookup_empty. cbn.
    split; [discriminate|]. intros H. apply not_elem_of_nil in H. destruct H.
  - rewrite Hl, fold_noteID_nil. reflexivity.
Qed.

(** X13.  No link is made up: the id of every link returned stands in the
    text right after one of the eighteen URL prefixes of the five
    patterns. *)
Theorem extracted_links_occur (content link : string) :
  link ∈ api.ExtractYouTubeLinks content ->
  exists shape id pre rest,
    In shape urlShapes /\ spec.validID id /\
    link = spec.canonical id /\
    content = pre +:+ shape +:+ id +:+ rest.
Proof.
  rewrite ExtractYouTubeLinks_scanned. intros Hin.
  apply list_elem_of_fmap in Hin as (id & -> & Hid).
  apply firstSeen_subset in Hid.
  pose proof (scannedIDs_valid _ _ Hid) as Hvalid.
  unfold spec.scannedIDs in Hid.
  apply list_elem_of_In, in_flat_map in Hid as (r & Hr & Hm).
  apply in_map_iff in Hm as (match_ & <- & Hm).
  unfold regexp.FindAllStringSubmatch in Hm.
  apply in_map_iff in Hm as (raw & <- & Hraw).
  apply findAll_occurs in Hraw as (pre & m & g & t & Hs & Hc & ->).
  destruct (pattern_candidates r _ m g t Hr Hc) as (shape & id & Hshape & -> & ->).
  cbn [map nth] in *.
  exists shape, (string_of_list_ascii id), (string_of_list_ascii pre),
    (string_of_list_ascii t).
  split; [exact Hshape|]. split; [exact Hvalid|]. split; [reflexivity|].
  rewrite <- (string_of_list_ascii_of_string content), Hs.
  rewrite !string_of_list_ascii_app, string_of_list_ascii_of_string.
  rewrite !string_append_assoc. reflexivity.
Qed.

Lemma extracted_links_occur_witness :
  let content := "Check https://youtu.be/dQw4w9WgXcQ and more" in
  "https://www.youtube.com/watch?v=dQw4w9WgXcQ" ∈ api.ExtractYouTubeLinks content /\
  exists shape id pre rest,
    In shape urlShapes /\ spec.validID id /\
    "https://www.youtube.com/watch?v=dQw4w9WgXcQ" = spec.canonical id /\
    content = pre +:+ shape +:+ id +:+ rest.
Proof.
  intros content.
  assert (H : "https://www.youtube.com/watch?v=dQw4w9WgXcQ"
              ∈ api.ExtractYouTubeLinks content).
  { replace (api.ExtractYouTubeLinks content)
      with ["https://www.youtube.com/watch?v=dQw4w9WgXcQ"] by (vm_compute; reflexivity).
    left. }
  split; [exact H|]. exact (extracted_links_occur content _ H).
Defined.

(** ** Links that are always found *)

Section ExtractFound.
Import regexp.

Lemma In_cat r1 r2 s m1 g1 t1 m2 g2 t2 :
  In (m1, g1, t1) (candidates r1 s) ->
  In (m2, g2, t2) (candidates r2 t1) ->
  In (m1 ++ m2, g1 ++ g2, t2) (candidates (Cat r1 r2) s).
Proof.
  intros H1 H2. cbn [candidates]. unfold seqCandidates.
  apply in_flat_map. exists (m1, g1, t1). split; [exact H1|].
  apply in_map_iff. exists (m2, g2, t2). split; [reflexivity|exact H2].
Qed.

Lemma In_lits l t : l <> [] -> In (l, [], t) (candidates (lits l) (l ++ t)).
Proof.
  induction l as [|c l IH]; intros Hne; [congruence|].
  destruct l as [|c' l'].
  - cbn. rewrite Ascii.eqb_refl. left. reflexivity.
  - change (lits (c :: c' :: l')) with (Cat (Lit c) (lits (c' :: l'))).
    refine (In_cat (Lit c) _ _ [c] [] ((c' :: l') ++ t) (c' :: l') [] t _ _).
    + cbn. rewrite Ascii.eqb_refl. left. reflexivity.
    + apply IH. discriminate.
Qed.

Lemma In_scheme (a : string) t :
  a = "https://" \/ a = "http://" ->
  In (list_ascii_of_string a, [], t) (candidates api.scheme (list_ascii_of_string a ++ t)).
Proof. intros [-> | ->]; vm_compute; auto. Qed.

Lemma In_www (b : string) t :
  b = "www." \/ b = "" ->
  In (list_ascii_of_string b, [], t) (candidates api.www (list_ascii_of_string b ++ t)).
Proof.
  intros [-> | ->].
  - vm_compute. auto.
  - unfold api.www. cbn [candidates list_ascii_of_string app].
    apply in_or_app. right. left. reflexivity.
Qed.

Lemma In_repeat_class p (id : bytes) : forall t,
  Forall (fun c => p c = true) id ->
  In (id, [], t) (candidates (Repeat (length id) (Class p)) (id ++ t)).
Proof.
  induction id as [|c id IH]; intros t Hf.
  - left. reflexivity.
  - inversion Hf as [|? ? Hc Hid]; subst.
    cbn [length app].
    change (candidates (Repeat (S (length id)) (Class p)) (c :: id ++ t))
      with (seqCandidates (candidates (Class p) (c :: id ++ t))
              (candidates (Repeat (length id) (Class p)))).
    unfold seqCandidates. apply in_flat_map.
    exists ([c], [], id ++ t). split; [cbn; rewrite Hc; left; reflexivity|].
    apply in_map_iff. exists (id, [], t). split; [reflexivity|]. apply IH, Hid.
Qed.

Lemma In_videoID (id : bytes) t :
  length id = 11%nat -> Forall (fun c => api.idChar c = true) id ->
  In (id, [id], t) (candidates api.videoID (id ++ t)).
Proof.
  intros Hl Hf. unfold api.videoID. rewrite <- Hl.
  change (candidates (Capture (Repeat (length id) (Class api.idChar))) (id ++ t))
    with (map (fun c : candidate => let '(m, g, t) := c in (m, m :: g, t))
              (candidates (Repeat (length id) (Class api.idChar)) (id ++ t))).
  apply in_map_iff. exists (id, [], t). split; [reflexivity|].
  apply In_repeat_class, Hf.
Qed.

Lemma long_pattern_match (host a b : string) (id t : bytes) :
  a = "https://" \/ a = "http://" -> b = "www." \/ b = "" -> host <> "" ->
  length id = 11%nat -> Forall (fun c => api.idChar c = true) id ->
  In (list_ascii_of_string (a +:+ b +:+ host) ++ id, [id], t)
     (candidates (api.cat [api.scheme; api.www; lit host; api.videoID])
        (list_ascii_of_string (a +:+ b +:+ host) ++ id ++ t)).
Proof.
  intros Ha Hb Hh Hl Hf. rewrite !list_ascii_of_string_app, <- !app_assoc.
  cbn [api.cat].
  refine (In_cat api.scheme _ _ (list_ascii_of_string a) [] _ _ [id] t _ _);
    [apply In_scheme, Ha|].
  refine (In_cat api.www _ _ (list_ascii_of_string b) [] _ _ [id] t _ _);
    [apply In_www, Hb|].
  refine (In_cat (lit host) _ _ (list_ascii_of_string host) [] _ id [id] t _ _);
    [|apply In_videoID; assumption].
  apply In_lits. destruct host; [congruence|discriminate].
Qed.

Lemma short_pattern_match (a : string) (id t : bytes) :
  a = "https://" \/ a = "http://" ->
  length id = 11%nat -> Forall (fun c => api.idChar c = true) id ->
  In (list_ascii_of_string (a +:+ "youtu.be/") ++ id, [id], t)
     (candidates (api.cat [api.scheme; lit "youtu.be/"; api.videoID])
        (list_ascii_of_string (a +:+ "youtu.be/") ++ id ++ t)).
Proof.
  intros Ha Hl Hf. rewrite !list_ascii_of_string_app, <- !app_assoc.
  cbn [api.cat].
  refine (In_cat api.scheme _ _ (list_ascii_of_string a) [] _ _ [id] t _ _);
    [apply In_scheme, Ha|].
  refine (In_cat (lit "youtu.be/") _ _ (list_ascii_of_string "youtu.be/") [] _ id [id] t
            _ _);
    [|apply In_videoID; assumption].
  apply In_lits. discriminate.
Qed.

(** Every shape belongs to a pattern that matches it with the id behind
    it. *)
Lemma shape_matches (shape : string) (id t : bytes) :
  In shape urlShapes ->
  length id = 11%nat -> Forall (fun c => api.idChar c = true) id ->
  exists r, In r api.youtubePatterns /\
    In (list_ascii_of_string shape ++ id, [id], t)
       (candidates r (list_ascii_of_string shape ++ id ++ t)).
Proof.
  intros Hs Hl Hf.
  pose proof (fun host a b Ha Hb Hh => long_pattern_match host a b id t Ha Hb Hh Hl Hf)
    as Hlong.
  pose proof (fun a Ha => short_pattern_match a id t Ha Hl Hf) as Hshort.
  unfold urlShapes in Hs. cbn [In] in Hs.
  destruct Hs as [<-|[<-|[<-|[<-|Hs]]]].
  1-4: exists (api.cat [api.scheme; api.www; lit "youtube.com/watch?v="; api.videoID]);
    (split; [left; reflexivity|]).
  1: apply (Hlong "youtube.com/watch?v=" "https://" "www."); auto; discriminate.
  1: apply (Hlong "youtube.com/watch?v=" "https://" ""); auto; discriminate.
  1: apply (Hlong "youtube.com/watch?v=" "http://" "www."); auto; discriminate.
  1: apply (Hlong "youtube.com/watch?v=" "http://" ""); auto; discriminate.
  destruct Hs as [<-|[<-|[<-|[<-|Hs]]]].
  1-4: exists (api.cat [api.scheme; api.www; lit "youtube.com/embed/"; api.videoID]);
    (split; [right; left; reflexivity|]).
  1: apply (Hlong "youtube.com/embed/" "https://" "www."); auto; discriminate.
  1: apply (Hlong "youtube.com/embed/" "https://" ""); auto; discriminate.
  1: apply (Hlong "youtube.com/embed/" "http://" "www."); auto; discriminate.
  1: apply (Hlong "youtube.com/embed/" "http://" ""); auto; discriminate.
  destruct Hs as [<-|[<-|Hs]].
  1-2: exists (api.cat [api.scheme; lit "youtu.be/"; api.videoID]);
    (split; [right; right; left; reflexivity|]).
  1: apply (Hshort "https://"); auto.
  1: apply (Hshort "http://"); auto.
  destruct Hs as [<-|[<-|[<-|[<-|Hs]]]].
  1-4: exists (api.cat [api.scheme; api.www; lit "youtube.com/v/"; api.videoID]);
    (split; [right; right; right; left; reflexivity|]).
  1: apply (Hlong "youtube.com/v/" "https://" "www."); auto; discriminate.
  1: apply (Hlong "youtube.com/v/" "https://" ""); auto; discriminate.
  1: apply (Hlong "youtube.com/v/" "http://" "www."); auto; discriminate.
  1: apply (Hlong "youtube.com/v/" "http://" ""); auto; discriminate.
  destruct Hs as [<-|[<-|[<-|[<-|[]]]]].
  1-4: exists (api.cat [api.scheme; api.www; lit "youtube.com/shorts/"; api.videoID]);
    (split; [right; right; right; right; left; reflexivity|]).
  1: apply (Hlong "youtube.com/shorts/" "https://" "www."); auto; discriminate.
  1: apply (Hlong "youtube.com/shorts/" "https://" ""); auto; discriminate.
  1: apply (Hlong "youtube.com/shorts/" "http://" "www."); auto; discriminate.
  1: apply (Hlong "youtube.com/shorts/" "http://" ""); auto; discriminate.
Qed.

(** Two texts with a common extension: one is the head of the other. *)
Lemma app_eq_isPrefix (l1 : bytes) : forall l2 t1 t2,
  l1 ++ t1 = l2 ++ t2 ->
  isPrefix l1 l2 <> None \/ isPrefix l2 l1 <> None.
Proof.
  induction l1 as [|a l1 IH]; intros l2 t1 t2 H; [left; discriminate|].
  destruct l2 as [|b l2]; [right; discriminate|].
  cbn [app] in H. injection H as -> H.
  cbn [isPrefix]. rewrite Ascii.eqb_refl. eapply IH, H.
Qed.

(** No shape is the head of another. *)
Lemma shapes_prefix_free (sh1 sh2 : string) (t1 t2 : bytes) :
  In sh1 urlShapes -> In sh2 urlShapes ->
  list_ascii_of_string sh1 ++ t1 = list_ascii_of_string sh2 ++ t2 ->
  sh1 = sh2.
Proof.
  intros H1 H2 Heq.
  assert (Hfree :
    forallb (fun a =>
      forallb (fun b =>
        String.eqb a b ||
        (match isPrefix (list_ascii_of_string a) (list_ascii_of_string b) with
         | Some _ => false | None => true end &&
         match isPrefix (list_ascii_of_string b) (list_ascii_of_string a) with
         | Some _ => false | None => true end)) urlShapes) urlShapes = true)
    by (vm_compute; reflexivity).
  rewrite forallb_forall in Hfree. specialize (Hfree sh1 H1).
  rewrite forallb_forall in Hfree. specialize (Hfree sh2 H2).
  apply orb_true_iff in Hfree as [Hfree|Hfree]; [apply String.eqb_eq, Hfree|].
  apply andb_true_iff in Hfree as [Ha Hb].
  destruct (app_eq_isPrefix _ _ _ _ Heq) as [H|H].
  - destruct (isPrefix (list_ascii_of_string sh1) (list_ascii_of_string sh2));
      [discriminate|congruence].
  - destruct (isPrefix (list_ascii_of_string sh2) (list_ascii_of_string sh1));
      [discriminate|congruence].
Qed.

(** What a pattern matches has no space in it and is not empty. *)
Lemma pattern_match_form r s m g t :
  In r api.youtubePatterns ->
  In (m, g, t) (candidates r s) ->
  exists shape id,
    In shape urlShapes /\ g = [id] /\ m = list_ascii_of_string shape ++ id /\
    length id = 11%nat /\ Forall (fun c => api.idChar c = true) id.
Proof.
  intros Hr Hin.
  destruct (pattern_candidates r s m g t Hr Hin) as (shape & id & Hs & -> & ->).
  destruct (capturesID_patterns r Hr s _ _ t Hin) as (id' & [= <-] & Hl & Hf).
  exists shape, id. auto.
Qed.

Lemma pattern_no_space r s m g t :
  In r api.youtubePatterns ->
  In (m, g, t) (candidates r s) ->
  m <> [] /\ ~ In " "%char m.
Proof.
  intros Hr Hin.
  destruct (pattern_match_form r s m g t Hr Hin) as (shape & id & Hs & _ & -> & Hl & Hf).
  split; [destruct id; [discriminate|]; destruct (list_ascii_of_string shape); discriminate|].
  intros Hsp. apply in_app_or in Hsp as [Hsp|Hsp].
  - assert (Hall : forallb (fun sh =>
                     negb (existsb (Ascii.eqb " ") (list_ascii_of_string sh)))
                     urlShapes = true) by (vm_compute; reflexivity).
    rewrite forallb_forall in Hall. specialize (Hall shape Hs).
    apply negb_true_iff in Hall.
    assert (Hex : existsb (Ascii.eqb " ") (list_ascii_of_string shape) = true).
    { apply existsb_exists. exists " "%char. split; [exact Hsp|reflexivity]. }
    congruence.
  - rewrite Forall_forall in Hf. specialize (Hf _ (proj2 (list_elem_of_In _ _) Hsp)).
    discriminate Hf.
Qed.

Lemma prefix_before (x : ascii) (l1 : bytes) : forall l2 m t,
  l1 ++ x :: l2 = m ++ t -> ~ In x m -> (length m <= length l1)%nat.
Proof.
  induction l1 as [|a l1 IH]; intros l2 m t H Hx.
  - destruct m as [|b m]; [cbn; lia|]. cbn in H. injection H as <- _.
    exfalso. apply Hx. left. reflexivity.
  - destruct m as [|b m]; [cbn; lia|]. cbn in H. injection H as <- H.
    cbn [length]. apply le_n_S. eapply IH; [exact H|].
    intros Hin. apply Hx. right. exact Hin.
Qed.

(** A match behind a space is found whatever stands before the space. *)
Lemma findAll_after_space r (pre s : bytes) (x : list bytes) :
  (forall s' m g t, In (m, g, t) (candidates r s') -> m <> [] /\ ~ In " "%char m) ->
  In x (findAll r s 0) ->
  forall skip, (skip <= length pre)%nat ->
    In x (findAll r (pre ++ " "%char :: s) skip).
Proof.
  intros Hr Hx. induction pre as [|c pre IH]; intros skip Hskip.
  - assert (skip = 0%nat) by (cbn in Hskip; lia). subst skip.
    cbn [app findAll].
    destruct (candidates r (" "%char :: s)) as [|[[m g] t] cs] eqn:Hc; [exact Hx|].
    exfalso.
    assert (Hin : In (m, g, t) (candidates r (" "%char :: s)))
      by (rewrite Hc; left; reflexivity).
    destruct (Hr _ _ _ _ Hin) as [Hne Hsp].
    apply candidates_split in Hin.
    destruct m as [|b m]; [congruence|]. cbn in Hin. injection Hin as <- _.
    apply Hsp. left. reflexivity.
  - cbn [app findAll]. destruct skip as [|k]; [|apply IH; cbn in Hskip; lia].
    destruct (candidates r (c :: pre ++ " "%char :: s)) as [|[[m g] t] cs] eqn:Hc;
      [apply IH; lia|].
    right. apply IH.
    assert (Hin : In (m, g, t) (candidates r (c :: pre ++ " "%char :: s)))
      by (rewrite Hc; left; reflexivity).
    destruct (Hr _ _ _ _ Hin) as [Hne Hsp].
    apply candidates_split in Hin.
    pose proof (prefix_before " " (c :: pre) s m t Hin Hsp) as Hle.
    cbn [length] in Hle. lia.
Qed.

(** At a shape followed by an id, the pattern of the shape finds the
    id. *)
Lemma findAll_at_shape (shape : string) (id rest : bytes) :
  In shape urlShapes ->
  length id = 11%nat -> Forall (fun c => api.idChar c = true) id ->
  exists r full, In r api.youtubePatterns /\
    In [full; id] (findAll r (list_ascii_of_string shape ++ id ++ rest) 0).
Proof.
  intros Hs Hl Hf.
  destruct (shape_matches shape id rest Hs Hl Hf) as (r & Hr & Hin).
  exists r. set (s := list_ascii_of_string shape ++ id ++ rest) in *.
  destruct s as [|c tl] eqn:Es.
  { destruct id; [discriminate|].
    destruct (list_ascii_of_string shape); discriminate. }
  cbn [findAll].
  destruct (candidates r (c :: tl)) as [|[[m g] t] cs] eqn:Hc; [destruct Hin|].
  assert (Hhead : In (m, g, t) (candidates r (c :: tl)))
    by (rewrite Hc; left; reflexivity).
  destruct (pattern_match_form r _ m g t Hr Hhead)
    as (shape' & id' & Hs' & -> & -> & Hl' & Hf').
  apply candidates_split in Hhead. rewrite <- Es in Hhead. unfold s in Hhead.
  rewrite <- app_assoc in Hhead.
  pose proof (shapes_prefix_free shape shape' _ _ Hs Hs' Hhead) as <-.
  apply app_inv_head in Hhead. apply app_inj_1 in Hhead as [<- _]; [|congruence].
  eexists. split; [exact Hr|]. left. reflexivity.
Qed.

End ExtractFound.

Lemma scanned_is_listed (content id : string) :
  id ∈ spec.scannedIDs content -> spec.canonical id ∈ api.ExtractYouTubeLinks content.
Proof.
  intros Hid. rewrite ExtractYouTubeLinks_scanned.
  apply list_elem_of_fmap. exists id. split; [reflexivity|].
  apply firstSeen_complete, Hid.
Qed.

Lemma found_is_scanned (content id : string) r full :
  In r api.youtubePatterns ->
  In [full; list_ascii_of_string id]
     (regexp.findAll r (list_ascii_of_string content) 0) ->
  id ∈ spec.scannedIDs content.
Proof.
  intros Hr Hin. unfold spec.scannedIDs. apply list_elem_of_In, in_flat_map.
  exists r. split; [exact Hr|]. apply in_map_iff.
  exists [string_of_list_ascii full; id]. split; [reflexivity|].
  unfold regexp.FindAllStringSubmatch. apply in_map_iff.
  exists [full; list_ascii_of_string id]. split; [|exact Hin].
  cbn [map]. rewrite string_of_list_ascii_of_string. reflexivity.
Qed.

(** X19.  Links that are always found.  A URL of one of the eighteen
    shapes with a well-formed id behind it is found when it stands at the
    start of the text or behind a space, whatever else the text holds;
    so the video of the embed of a post, which is appended to the content
    behind a space, is always among the links of the post. *)
Theorem spaced_links_found (shape id rest : string) :
  In shape urlShapes ->
  spec.validID id ->
  spec.canonical id ∈ api.ExtractYouTubeLinks (shape +:+ id +:+ rest) /\
  (forall pre,
     spec.canonical id ∈ api.ExtractYouTubeLinks (pre +:+ " " +:+ shape +:+ id +:+ rest)) /\
  (forall detailResp,
     models.rEmbedURL detailResp = shape +:+ id +:+ rest ->
     spec.canonical id ∈ models.dYouTubeLinks (api.detailsOfResponse detailResp)).
Proof.
  intros Hs [Hl Hf].
  assert (Hlen : length (list_ascii_of_string id) = 11%nat).
  { rewrite <- Hl. clear. induction id as [|c id IH]; [reflexivity|]. cbn. congruence. }
  destruct (findAll_at_shape shape (list_ascii_of_string id) (list_ascii_of_string rest)
              Hs Hlen Hf) as (r & full & Hr & Hin).
  assert (Hstart : spec.canonical id ∈ api.ExtractYouTubeLinks (shape +:+ id +:+ rest)).
  { apply scanned_is_listed, (found_is_scanned _ _ r full Hr).
    rewrite !list_ascii_of_string_app. exact Hin. }
  assert (Hspaced : forall pre,
            spec.canonical id
            ∈ api.ExtractYouTubeLinks (pre +:+ " " +:+ shape +:+ id +:+ rest)).
  { intros pre. apply scanned_is_listed, (found_is_scanned _ _ r full Hr).
    rewrite (list_ascii_of_string_app pre), (list_ascii_of_string_app " ").
    rewrite !list_ascii_of_string_app.
    change (list_ascii_of_string " ") with [" "%char]. cbn [app].
    apply findAll_after_space; [|exact Hin|lia].
    intros s' m g t. apply pattern_no_space, Hr. }
  split; [exact Hstart|]. split; [exact Hspaced|].
  intros detailResp Hembed. unfold api.detailsOfResponse. cbn [models.dYouTubeLinks].
  rewrite Hembed.
  destruct (String.eqb_spec (shape +:+ id +:+ rest) "") as [E|_]; [|apply Hspaced].
  exfalso. unfold urlShapes in Hs. cbn [In] in Hs.
  repeat (destruct Hs as [<-|Hs]; [discriminate E|]). destruct Hs.
Qed.

Lemma spaced_links_found_witness :
  let detailResp :=
    {| models.rID := "p1"; models.rTitle := "t";
       models.rContent := "<p>no link here</p>"; models.rPostType := "video_embed";
       models.rPublishedAt := 0;
       models.rEmbedURL := "https://www.youtube.com/watch?v=dQw4w9WgXcQ&t=1" |} in
  In "https://www.youtube.com/watch?v=" urlShapes /\
  spec.validID "dQw4w9WgXcQ" /\
  models.dYouTubeLinks (api.detailsOfResponse detailResp)
  = ["https://www.youtube.com/watch?v=dQw4w9WgXcQ"] /\
  "https://www.youtube.com/watch?v=dQw4w9WgXcQ"
  ∈ models.dYouTubeLinks (api.detailsOfResponse detailResp).
Proof.
  intros detailResp.
  assert (Hs : In "https://www.youtube.com/watch?v=" urlShapes) by (left; reflexivity).
  assert (Hv : spec.validID "dQw4w9WgXcQ").
  { split; [reflexivity|]. cbn. repeat constructor. }
  split; [exact Hs|]. split; [exact Hv|]. split; [vm_compute; reflexivity|].
  destruct (spaced_links_found "https://www.youtube.com/watch?v=" "dQw4w9WgXcQ" "&t=1"
              Hs Hv) as (_ & _ & Hembed).
  exact (Hembed detailResp eq_refl).
Defined.

(** ** Markup stripping on plain text *)

Section PlainText.

(** Where no item stands nothing is replaced. *)
Lemma replaceEach_idle (item : bytes -> option bytes) (new : bytes) :
  forall fuel s, (length s <= fuel)%nat ->
    (forall pre c t, s = pre ++ c :: t -> item (c :: t) = None) ->
    spec.replaceEach item new fuel s = s.
Proof.
  induction fuel as [|fuel IH]; intros s Hlen Hnone.
  - destruct s; [reflexivity|cbn in Hlen; lia].
  - destruct s as [|c t]; [reflexivity|]. cbn [spec.replaceEach].
    rewrite (Hnone [] c t eq_refl). f_equal. apply IH; [cbn in Hlen; lia|].
    intros pre c' t' ->. apply (Hnone (c :: pre) c' t'). reflexivity.
Qed.

Lemma replaceAllOf_idle (item : bytes -> option bytes) (new text : string) (x : ascii) :
  ~ In x (list_ascii_of_string text) ->
  (forall c t, c <> x -> item (c :: t) = None) ->
  spec.replaceAllOf item new text = text.
Proof.
  intros Hx Hitem. unfold spec.replaceAllOf.
  rewrite replaceEach_idle; [apply string_of_list_ascii_of_string|apply le_n|].
  intros pre c t Hs. apply Hitem. intros ->. apply Hx. rewrite Hs.
  apply in_or_app. right. left. reflexivity.
Qed.

Lemma block_needs_lt (name : string) c t : c <> "<"%char -> spec.block name (c :: t) = None.
Proof.
  intros Hc. unfold spec.block.
  change (list_ascii_of_string ("<" +:+ name)) with ("<"%char :: list_ascii_of_string name).
  cbn [spec.word spec.letter].
  change (spec.capital "<") with "<"%char. rewrite orb_diag.
  destruct (Ascii.eqb_spec c "<") as [->|_]; [congruence|reflexivity].
Qed.

Lemma tag_needs_lt c t : c <> "<"%char -> spec.tag (c :: t) = None.
Proof.
  intros Hc. unfold spec.tag. destruct t as [|c' t']; [reflexivity|].
  destruct (Ascii.eqb_spec c "<") as [->|_]; [congruence|reflexivity].
Qed.

Lemma literally_needs_amp (e : string) c t :
  In e (map fst spec.entities) -> c <> "&"%char -> spec.literally e (c :: t) = None.
Proof.
  intros He Hc. unfold spec.literally.
  cbn in He.
  repeat (destruct He as [<-|He];
          [cbn [list_ascii_of_string spec.starts];
           destruct (Ascii.eqb_spec "&" c) as [<-|_]; [congruence|reflexivity]|]).
  destruct He.
Qed.

Lemma decodeEntities_idle (text : string) :
  ~ In "&"%char (list_ascii_of_string text) -> spec.decodeEntities text = text.
Proof.
  intros Hx. unfold spec.decodeEntities, spec.entities. cbn [fold_left fst snd].
  assert (Hidle : forall e new, In e (map fst spec.entities) ->
            spec.replaceAllOf (spec.literally e) new text = text).
  { intros e new He. apply (replaceAllOf_idle _ new text "&" Hx).
    intros c t Hc. apply literally_needs_amp; assumption. }
  rewrite !Hidle by (cbn; auto 10). reflexivity.
Qed.

Lemma collapse_idle (s : bytes) : forall b,
  spec.singleSpaced b s = true -> spec.collapse b s = s.
Proof.
  induction s as [|c s IH]; intros b; cbn [spec.singleSpaced spec.collapse];
    [reflexivity|].
  destruct (spec.blank c).
  - intros H. apply andb_prop in H as [H Hs]. apply andb_prop in H as [Hc Hb].
    apply Ascii.eqb_eq in Hc. subst c. destruct b; [discriminate|].
    rewrite (IH true Hs). reflexivity.
  - intros H. rewrite (IH false H). reflexivity.
Qed.

Lemma whiteAtHead_false (s : bytes) r :
  spec.whiteAtHead s = false -> In r spec.whiteRunes -> spec.starts r s = false.
Proof.
  intros H Hr. unfold spec.whiteAtHead in H.
  destruct (spec.starts r s) eqn:Hs; [|reflexivity].
  assert (existsb (fun r => spec.starts r s) spec.whiteRunes = true)
    by (apply existsb_exists; exists r; auto).
  congruence.
Qed.

Lemma dropSpace_idle (encs : list bytes) (s : bytes) :
  (forall r, trimmedRune encs r -> spec.starts r s = false) ->
  strings.dropSpace encs s = None.
Proof.
  intros H. destruct s as [|c t]; [reflexivity|]. cbn [strings.dropSpace].
  destruct (strings.asciiSpace c) eqn:Hc.
  - specialize (H [c]). cbn [spec.starts] in H. rewrite Ascii.eqb_refl in H.
    discriminate H. right. exists c. auto.
  - destruct (strings.stripOneOf encs (c :: t)) as [t'|] eqn:Hs; [|reflexivity].
    apply stripOneOf_Some in Hs as (enc & Hin & Heq).
    specialize (H enc (or_introl Hin)).
    assert (Hp : isPrefix enc (c :: t) <> None).
    { rewrite Heq. clear. induction enc as [|a enc IH]; [discriminate|].
      cbn [app isPrefix]. rewrite Ascii.eqb_refl. exact IH. }
    rewrite starts_isPrefix, H in Hp. congruence.
Qed.

Lemma trimLeft_idle (encs : list bytes) (s : bytes) fuel :
  strings.dropSpace encs s = None -> strings.trimLeft encs fuel s = s.
Proof. intros H. destruct fuel; cbn [strings.trimLeft]; [|rewrite H]; reflexivity. Qed.

Lemma TrimSpace_idle (text : string) :
  spec.whiteAtHead (list_ascii_of_string text) = false ->
  spec.whiteAtEnd (list_ascii_of_string text) = false ->
  strings.TrimSpace text = text.
Proof.
  intros Hh He.
  unfold strings.TrimSpace, strings.TrimRightSpace, strings.TrimLeftSpace.
  set (s := list_ascii_of_string text) in *.
  rewrite (trimLeft_idle strings.unicodeSpaces s).
  - rewrite (trimLeft_idle _ (rev s)).
    + rewrite rev_involutive. apply string_of_list_ascii_of_string.
    + apply dropSpace_idle. intros r Hr.
      pose proof (trimmedRune_rev r Hr) as Hw.
      unfold spec.whiteAtEnd in He.
      destruct (spec.starts r (rev s)) eqn:Hs; [|reflexivity].
      assert (existsb (fun r0 => spec.starts (rev r0) (rev s)) spec.whiteRunes = true).
      { apply existsb_exists. exists (rev r). split; [exact Hw|].
        rewrite rev_involutive. exact Hs. }
      congruence.
  - apply dropSpace_idle. intros r Hr.
    apply whiteAtHead_false; [exact Hh|apply trimmedRune_white, Hr].
Qed.

End PlainText.

(** X21.  Plain text passes.  On a text without [<] and [&] the stripping
    only collapses the white space runs and trims the ends; when the text
    moreover has single spaces only and no white space at its ends, it is
    returned as it is.  So stripping a second time changes nothing when
    the first result holds neither [<] nor [&]. *)
Theorem stripHTML_plain_text (text : string) :
  ~ In "<"%char (list_ascii_of_string text) ->
  ~ In "&"%char (list_ascii_of_string text) ->
  spec.trimOf (spec.collapseSpaces text) (api.stripHTML text) /\
  (spec.singleSpaced false (list_ascii_of_string text) = true ->
   spec.whiteAtHead (list_ascii_of_string text) = false ->
   spec.whiteAtEnd (list_ascii_of_string text) = false ->
   api.stripHTML text = text) /\
  (forall html, api.stripHTML html = text ->
     api.stripHTML (api.stripHTML html) = api.stripHTML html).
Proof.
  intros Hlt Hamp.
  assert (Heq : api.stripHTML text = strings.TrimSpace (spec.collapseSpaces text)).
  { rewrite stripHTML_by_stages. unfold spec.dropBlocks, spec.dropTags.
    rewrite (replaceAllOf_idle (spec.block "script") "" text "<" Hlt)
      by (intros c t; apply block_needs_lt).
    rewrite (replaceAllOf_idle (spec.block "style") "" text "<" Hlt)
      by (intros c t; apply block_needs_lt).
    rewrite (replaceAllOf_idle spec.tag "" text "<" Hlt)
      by (intros c t; apply tag_needs_lt).
    rewrite (decodeEntities_idle text Hamp). reflexivity. }
  assert (Hfix : spec.singleSpaced false (list_ascii_of_string text) = true ->
                 spec.whiteAtHead (list_ascii_of_string text) = false ->
                 spec.whiteAtEnd (list_ascii_of_string text) = false ->
                 api.stripHTML text = text).
  { intros Hss Hh He. rewrite Heq.
    assert (Hc : spec.collapseSpaces text = text).
    { unfold spec.collapseSpaces. rewrite (collapse_idle _ false Hss).
      apply string_of_list_ascii_of_string. }
    rewrite Hc. apply TrimSpace_idle; assumption. }
  split; [rewrite Heq; apply TrimSpace_spec|]. split; [exact Hfix|].
  intros html Hhtml. rewrite Hhtml. apply Hfix.
  - rewrite <- Hhtml, stripHTML_by_stages.
    destruct (TrimSpace_spec
                (spec.collapseSpaces
                   (spec.decodeEntities
                      (spec.dropTags
                         (spec.dropBlocks "style" (spec.dropBlocks "script" html))))))
      as ((pre & suf & Hseg & _) & _).
    apply (singleSpaced_prefix _ suf), (singleSpaced_suffix pre _ false).
    rewrite <- Hseg. unfold spec.collapseSpaces.
    rewrite list_ascii_of_string_of_list_ascii. apply collapse_singleSpaced.
  - rewrite <- Hhtml, stripHTML_by_stages. apply TrimSpace_spec.
  - rewrite <- Hhtml, stripHTML_by_stages. apply TrimSpace_spec.
Qed.

Lemma stripHTML_plain_text_witness :
  let text := "Hello, world - 100% plain" in
  ~ In "<"%char (list_ascii_of_string text) /\
  ~ In "&"%char (list_ascii_of_string text) /\
  api.stripHTML text = text /\
  api.stripHTML (api.stripHTML "<p> Hello,   world - <b>100%</b> plain</p>") = text.
Proof.
  intros text.
  assert (Hlt : ~ In "<"%char (list_ascii_of_string text))
    by (cbn; intuition discriminate).
  assert (Hamp : ~ In "&"%char (list_ascii_of_string text))
    by (cbn; intuition discriminate).
  destruct (stripHTML_plain_text text Hlt Hamp) as (_ & Hfix & Hidem).
  split; [exact Hlt|]. split; [exact Hamp|]. split.
  - apply Hfix; vm_compute; reflexivity.
  - rewrite (Hidem "<p> Hello,   world - <b>100%</b> plain</p>");
      vm_compute; reflexivity.
Defined.

(** ** More on the browser *)

Section BrowserExtras.
Import models env ui.
Context {parser : url.Parser} {codec : JSON} (remote : Remote).
Variable inputUpdate : string -> string -> string.

(** Projections of assignments. *)
Ltac model_simpl :=
  cbn [state posts cursor hasDatabase input err width height campaignID loadingMsg
    postDetails cachedDetails clipboardLinks clipboardCursor linkCursor
    statusMessage currentPage nextCursor cursorHistory totalPosts hasMorePages
    set_state set_posts set_cursor set_input set_err set_width set_height
    set_campaignID set_loadingMsg set_postDetails set_cachedDetails
    set_clipboardLinks set_clipboardCursor set_linkCursor set_statusMessage
    set_currentPage set_nextCursor set_cursorHistory set_totalPosts set_hasMorePages] in *.

Lemma keyIs_single (key name : string) : keyIs key [name] = true <-> key = name.
Proof.
  unfold keyIs. cbn [existsb]. rewrite orb_false_r. apply String.eqb_eq.
Qed.

(** The keys handled before the state leave the store alone and log at
    most the write of the clipboard. *)
Lemma globalKeys_effects (m : Model) (key : string) (w : World) :
  let r := globalKeys remote m key w in
  database (snd r) = database w /\
  (fst r = None -> snd r = w) /\
  (log (snd r) = log w \/
   keyIs key ["c"; "y"] = true /\ inListOrDetails m = true /\
   clipboardLinks m <> [] /\
   log (snd r)
   = log w ++ [EvClipboardWrite (String.concat (String "010" "") (clipboardLinks m))]).
Proof.
  unfold globalKeys. world.
  destruct (keyIs key ["ctrl+c"; "esc"]);
    [destruct (isInput m); cbn; auto|].
  destruct (keyIs key ["q"]); [destruct (isInput m); cbn; auto|].
  destruct (keyIs key ["c"; "y"]).
  { destruct (inListOrDetails m); [|cbn; auto].
    destruct (Z.ltb_spec 0 (len (clipboardLinks m))) as [Hpos|]; [|cbn; auto].
    assert (Hne : clipboardLinks m <> []).
    { intros E. rewrite E in Hpos. unfold len in Hpos. cbn in Hpos. lia. }
    destruct (clipboardWriteAll remote _ _); cbn;
      (split; [reflexivity|]); (split; [discriminate|]); right; auto. }
  destruct (keyIs key ["x"]).
  { destruct (inListOrDetails m && (0 <? len (clipboardLinks m))); [|cbn; auto].
    destruct (removeAt _ _); cbn; [|split; [reflexivity|split; [discriminate|auto]]].
    split; [reflexivity|]. split; [discriminate|auto]. }
  destruct (keyIs key ["X"]); [destruct (inListOrDetails m); cbn; auto|].
  destruct (keyIs key ["["]);
    [destruct (inListOrDetails m && (0 <? clipboardCursor m)); cbn; auto|].
  destruct (keyIs key ["]"]);
    [destruct (inListOrDetails m && (clipboardCursor m <? len (clipboardLinks m) - 1));
       cbn; auto|].
  cbn. auto.
Qed.

Lemma handleListKeys_world (m : Model) (key : string) (w : World) :
  snd (handleListKeys m key w) = w.
Proof.
  unfold handleListKeys. world.
  destruct (keyIs key ["up"; "k"]); [reflexivity|].
  destruct (keyIs key ["down"; "j"]); [reflexivity|].
  destruct (keyIs key ["enter"]).
  { destruct (0 <? len (posts m)); [|reflexivity].
    destruct (index (posts m) (cursor m)) as [post|]; [|reflexivity].
    destruct (hasDatabase m && DetailsCached post); [|reflexivity].
    cbn. destruct (db.GetPost (ID post) (database w)) as [c|]; [|reflexivity].
    destruct (db.DetailsCached c); reflexivity. }
  destruct (keyIs key ["r"]); [reflexivity|].
  destruct (keyIs key ["R"]); [reflexivity|].
  destruct (keyIs key ["n"; "l"; "right"]);
    [destruct (hasMorePages m && negb (String.eqb (nextCursor m) "")); reflexivity|].
  destruct (keyIs key ["p"; "h"; "left"]);
    [destruct ((1 <? currentPage m) && (0 <? len (cursorHistory m))); reflexivity|].
  destruct (keyIs key ["esc"]); reflexivity.
Qed.

Lemma handleDetailsKeys_effects (m : Model) (key : string) (w : World) :
  let r := handleDetailsKeys m key w in
  log (snd r) = log w /\
  (database (snd r) = database w \/
   keyIs key ["R"] = true /\ hasDatabase m = true /\
   exists post, index (posts m) (cursor m) = Some post /\
     database (snd r) = db.ClearPostDetails (ID post) (database w)).
Proof.
  unfold handleDetailsKeys. world.
  destruct (keyIs key ["esc"; "backspace"]); [cbn; auto|].
  destruct (keyIs key ["R"]).
  { destruct (0 <? len (posts m)); [|cbn; auto].
    destruct (index (posts m) (cursor m)) as [post|]; [|cbn; auto].
    destruct (hasDatabase m); cbn; [|auto].
    split; [reflexivity|]. right. split; [reflexivity|]. split; [reflexivity|].
    exists post. auto. }
  destruct (keyIs key ["up"; "k"]).
  { destruct (bool_decide (is_Some (postDetails m)) && (0 <? len (linksOf m))
              && (0 <? linkCursor m)); cbn; auto. }
  destruct (keyIs key ["down"; "j"]).
  { destruct (bool_decide (is_Some (postDetails m)) && (0 <? len (linksOf m))
              && (linkCursor m <? len (linksOf m) - 1)); cbn; auto. }
  destruct (keyIs key ["a"; "enter"]).
  { destruct (bool_decide (is_Some (postDetails m)) && (0 <? len (linksOf m)));
      [|cbn; auto].
    destruct (index (linksOf m) (linkCursor m)) as [link|]; [|cbn; auto].
    destruct (contains (clipboardLinks m) link); cbn; auto. }
  destruct (keyIs key ["A"]).
  { destruct (bool_decide (is_Some (postDetails m)) && (0 <? len (linksOf m)));
      [|cbn; auto].
    destruct (fold_left addNew (linksOf m) (clipboardLinks m, 0)) as [clip added].
    destruct (0 <? added); cbn; auto. }
  cbn. auto.
Qed.

Lemma handleErrorKeys_world (m : Model) (key : string) (w : World) :
  snd (handleErrorKeys m key w) = w.
Proof.
  unfold handleErrorKeys. world.
  destruct (keyIs key ["r"]); [reflexivity|].
  destruct (keyIs key ["esc"]); reflexivity.
Qed.

(** X14.  A key sends no request and pauses nothing: the log gains at most
    the write of the collected links, joined by newlines, to the system
    clipboard, and only on the copy keys with links collected; the store
    is written by no key but [R] in the Details state, which clears the
    details of the selected post. *)
Theorem key_effects (m : Model) (key : string) (w : World) :
  let w' := snd (Update remote inputUpdate m (KeyMsg key) w) in
  (log w' = log w \/
   In key ["c"; "y"] /\ inListOrDetails m = true /\ clipboardLinks m <> [] /\
   log w'
   = log w ++ [EvClipboardWrite (String.concat (String "010" "") (clipboardLinks m))]) /\
  (database w' = database w \/
   key = "R" /\ state m = stateDetails /\ hasDatabase m = true /\
   exists post, index (posts m) (cursor m) = Some post /\
     database w' = db.ClearPostDetails (ID post) (database w)).
Proof.
  cbn zeta. unfold Update, env.bind.
  pose proof (globalKeys_effects (set_statusMessage StatusNone m) key w) as Hg.
  cbn zeta in Hg.
  destruct (globalKeys remote (set_statusMessage StatusNone m) key w) as [handled w1].
  cbn [fst snd] in Hg. destruct Hg as (Hdb & Hnone & Hlog).
  destruct handled as [r|].
  - unfold env.ret. cbn [snd]. split; [|left; exact Hdb].
    destruct Hlog as [Hlog|(Hk & Hs & Hne & Hlog)]; [left; exact Hlog|].
    right. split; [|auto].
    unfold keyIs in Hk. cbn [existsb] in Hk.
    rewrite orb_false_r in Hk. apply orb_true_iff in Hk.
    destruct Hk as [Hk|Hk]; apply String.eqb_eq in Hk; subst key; cbn; auto.
  - rewrite (Hnone eq_refl).
    change (state (set_statusMessage StatusNone m)) with (state m).
    destruct (state m) eqn:Hs.
    + destruct (keyIs key ["enter"] && negb (String.eqb (input _) "")); cbn; auto.
    + cbn. auto.
    + rewrite handleListKeys_world. auto.
    + pose proof (handleDetailsKeys_effects (set_statusMessage StatusNone m) key w)
        as (Hl & Hd).
      split; [left; exact Hl|].
      destruct Hd as [Hd|(Hk & Hh & post & Hi & Hd)]; [left; exact Hd|].
      right. apply keyIs_single in Hk. split; [exact Hk|]. split; [reflexivity|].
      split; [exact Hh|]. exists post. auto.
    + rewrite handleErrorKeys_world. auto.
Qed.

Lemma globalKeys_quit (m : Model) (key : string) (w : World) m' w' :
  globalKeys remote m key w = (Some (Some (m', CmdQuit)), w') ->
  In key ["ctrl+c"; "esc"] /\ state m = stateInput \/
  key = "q" /\ state m <> stateInput.
Proof.
  unfold globalKeys. world.
  destruct (keyIs key ["ctrl+c"; "esc"]) eqn:H1.
  { unfold isInput. destruct (state m) eqn:Hs; cbn; intros H; try discriminate H.
    left. split; [|reflexivity].
    unfold keyIs in H1. cbn [existsb] in H1.
    rewrite orb_false_r in H1. apply orb_true_iff in H1.
    destruct H1 as [H1|H1]; apply String.eqb_eq in H1; subst key; cbn; auto. }
  destruct (keyIs key ["q"]) eqn:H2.
  { apply keyIs_single in H2. subst key.
    unfold isInput. destruct (state m) eqn:Hs; cbn; intros H; try discriminate H;
      right; split; [reflexivity|congruence|reflexivity|congruence
                     |reflexivity|congruence|reflexivity|congruence]. }
  destruct (keyIs key ["c"; "y"]).
  { destruct (inListOrDetails m); [|intros H; discriminate H].
    destruct (0 <? len _); cbn;
      [destruct (clipboardWriteAll remote _ _); cbn|]; intros H; discriminate H. }
  destruct (keyIs key ["x"]).
  { destruct (inListOrDetails m && (0 <? len (clipboardLinks m)));
      [|intros H; discriminate H].
    destruct (removeAt _ _); cbn; intros H; discriminate H. }
  destruct (keyIs key ["X"]);
    [destruct (inListOrDetails m); cbn; intros H; discriminate H|].
  destruct (keyIs key ["["]);
    [destruct (inListOrDetails m && (0 <? clipboardCursor m)); cbn;
     intros H; discriminate H|].
  destruct (keyIs key ["]"]);
    [destruct (inListOrDetails m && (clipboardCursor m <? len (clipboardLinks m) - 1));
     cbn; intros H; discriminate H|].
  intros H. discriminate H.
Qed.

Lemma handleListKeys_no_quit (m : Model) (key : string) (w : World) m' :
  fst (handleListKeys m key w) <> Some (m', CmdQuit).
Proof.
  unfold handleListKeys. world.
  destruct (keyIs key ["up"; "k"]); [discriminate|].
  destruct (keyIs key ["down"; "j"]); [discriminate|].
  destruct (keyIs key ["enter"]).
  { destruct (0 <? len (posts m)); [|discriminate].
    destruct (index (posts m) (cursor m)) as [post|]; [|discriminate].
    destruct (hasDatabase m && DetailsCached post); [|discriminate].
    cbn. destruct (db.GetPost (ID post) (database w)) as [c|]; [|discriminate].
    destruct (db.DetailsCached c); discriminate. }
  destruct (keyIs key ["r"]); [discriminate|].
  destruct (keyIs key ["R"]); [discriminate|].
  destruct (keyIs key ["n"; "l"; "right"]);
    [destruct (hasMorePages m && negb (String.eqb (nextCursor m) "")); discriminate|].
  destruct (keyIs key ["p"; "h"; "left"]);
    [destruct ((1 <? currentPage m) && (0 <? len (cursorHistory m))); discriminate|].
  destruct (keyIs key ["esc"]); discriminate.
Qed.

Lemma handleDetailsKeys_no_quit (m : Model) (key : string) (w : World) m' :
  fst (handleDetailsKeys m key w) <> Some (m', CmdQuit).
Proof.
  unfold handleDetailsKeys. world.
  destruct (keyIs key ["esc"; "backspace"]); [discriminate|].
  destruct (keyIs key ["R"]).
  { destruct (0 <? len (posts m)); [|discriminate].
    destruct (index (posts m) (cursor m)) as [post|]; [|discriminate].
    destruct (hasDatabase m); discriminate. }
  destruct (keyIs key ["up"; "k"]).
  { destruct (bool_decide (is_Some (postDetails m)) && (0 <? len (linksOf m))
              && (0 <? linkCursor m)); discriminate. }
  destruct (keyIs key ["down"; "j"]).
  { destruct (bool_decide (is_Some (postDetails m)) && (0 <? len (linksOf m))
              && (linkCursor m <? len (linksOf m) - 1)); discriminate. }
  destruct (keyIs key ["a"; "enter"]).
  { destruct (bool_decide (is_Some (postDetails m)) && (0 <? len (linksOf m)));
      [|discriminate].
    destruct (index (linksOf m) (linkCursor m)) as [link|]; [|discriminate].
    destruct (contains (clipboardLinks m) link); discriminate. }
  destruct (keyIs key ["A"]).
  { destruct (bool_decide (is_Some (postDetails m)) && (0 <? len (linksOf m)));
      [|discriminate].
    destruct (fold_left addNew (linksOf m) (clipboardLinks m, 0)) as [clip added].
    destruct (0 <? added); discriminate. }
  discriminate.
Qed.

Lemma handleErrorKeys_no_quit (m : Model) (key : string) (w : World) m' :
  fst (handleErrorKeys m key w) <> Some (m', CmdQuit).
Proof.
  unfold handleErrorKeys. world.
  destruct (keyIs key ["r"]); [discriminate|].
  destruct (keyIs key ["esc"]); discriminate.
Qed.

(** While a request is loading the keys handled before the state are all
    idle but [q]. *)
Lemma globalKeys_loading (m : Model) (key : string) (w : World) :
  state m = stateLoading -> key <> "q" ->
  globalKeys remote m key w = (None, w).
Proof.
  intros Hs Hq. unfold globalKeys, isInput, inListOrDetails. rewrite Hs.
  assert (H2 : keyIs key ["q"] = false).
  { destruct (keyIs key ["q"]) eqn:E; [|reflexivity].
    apply keyIs_single in E. contradiction. }
  rewrite H2. cbn [negb andb].
  repeat match goal with
         | |- context [if ?b then _ else _] => destruct b
         end; reflexivity.
Qed.

(** X15.  Leaving and waiting.  [q] quits in every state but the input
    screen, where [ctrl+c] and [esc] quit; no other key makes [Update]
    hand back the quit command, so [ctrl+c] outside the input screen only
    clears the status line; and while a request is loading every key other
    than [q] is ignored. *)
Theorem quit_keys (m : Model) (w : World) :
  (state m <> stateInput ->
     Update remote inputUpdate m (KeyMsg "q") w
     = (Some (set_statusMessage StatusNone m, CmdQuit), w)) /\
  (state m = stateInput ->
     forall key, In key ["ctrl+c"; "esc"] ->
       Update remote inputUpdate m (KeyMsg key) w
       = (Some (set_statusMessage StatusNone m, CmdQuit), w)) /\
  (forall key m' w',
     Update remote inputUpdate m (KeyMsg key) w = (Some (m', CmdQuit), w') ->
     key = "q" /\ state m <> stateInput \/
     In key ["ctrl+c"; "esc"] /\ state m = stateInput) /\
  (state m <> stateInput ->
     Update remote inputUpdate m (KeyMsg "ctrl+c") w
     = (Some (set_statusMessage StatusNone m, CmdNil), w)) /\
  (state m = stateLoading ->
     forall key, key <> "q" ->
       Update remote inputUpdate m (KeyMsg key) w
       = (Some (set_statusMessage StatusNone m, CmdNil), w)).
Proof.
  assert (Hin : forall st, st <> stateInput ->
            match st with stateInput => true | _ => false end = false)
    by (intros []; congruence).
  split; [|split; [|split; [|split]]].
  - intros Hs. unfold Update, globalKeys, env.bind, env.ret, isInput.
    change (state (set_statusMessage StatusNone m)) with (state m).
    rewrite (Hin _ Hs). reflexivity.
  - intros Hs key Hk. unfold Update, globalKeys, env.bind, env.ret, isInput.
    change (state (set_statusMessage StatusNone m)) with (state m).
    rewrite Hs. destruct Hk as [<-|[<-|[]]]; reflexivity.
  - intros key m' w'. unfold Update, env.bind.
    destruct (globalKeys remote (set_statusMessage StatusNone m) key w)
      as [[r|] w1] eqn:Hg.
    + unfold env.ret. intros [= -> ->].
      apply globalKeys_quit in Hg.
      change (state (set_statusMessage StatusNone m)) with (state m) in Hg. tauto.
    + change (state (set_statusMessage StatusNone m)) with (state m).
      destruct (state m) eqn:Hs.
      * destruct (keyIs key ["enter"] && negb (String.eqb (input _) ""));
          intros H; discriminate H.
      * intros H; discriminate H.
      * intros H. exfalso.
        apply (handleListKeys_no_quit (set_statusMessage StatusNone m) key w1 m').
        rewrite H. reflexivity.
      * intros H. exfalso.
        apply (handleDetailsKeys_no_quit (set_statusMessage StatusNone m) key w1 m').
        rewrite H. reflexivity.
      * intros H. exfalso.
        apply (handleErrorKeys_no_quit (set_statusMessage StatusNone m) key w1 m').
        rewrite H. reflexivity.
  - intros Hs. unfold Update, globalKeys, env.bind, env.ret, isInput.
    change (state (set_statusMessage StatusNone m)) with (state m).
    rewrite (Hin _ Hs).
    assert (E : forall names, keyIs "ctrl+c" names = existsb (String.eqb "ctrl+c") names)
      by reflexivity.
    destruct (state m); [congruence|reflexivity|reflexivity|reflexivity|reflexivity].
  - intros Hs key Hq. unfold Update, env.bind.
    rewrite globalKeys_loading by (auto; exact Hs).
    change (state (set_statusMessage StatusNone m)) with (state m).
    rewrite Hs. reflexivity.
Qed.

(** What the loop over the posts of a page does to the store. *)
Lemma savePosts_effect (campaignID : string) (ps : list Post) : forall w,
  let w' := snd (savePosts remote campaignID ps w) in
  log w' = log w /\
  db.campaigns (database w') = db.campaigns (database w) /\
  dom (db.posts (database w')) = list_to_set (map ID ps) ∪ dom (db.posts (database w)) /\
  (forall id, id ∉ map ID ps ->
     db.posts (database w') !! id = db.posts (database w) !! id) /\
  keepsDetails (database w) (database w') /\
  freshRows campaignID (database w) (database w') /\
  (NoDup (map ID ps) ->
   forall post, post ∈ ps ->
     exists r, db.posts (database w') !! ID post = Some r /\ summaryOf post r).
Proof.
  induction ps as [|post rest IH]; intros w; cbn [savePosts].
  - cbn. split; [reflexivity|]. split; [reflexivity|].
    split; [symmetry; apply (left_id_L ∅ (∪))|]. split; [reflexivity|].
    split; [intros id r Hr; exists r; auto|].
    split; [intros id r' Hr' Hn; congruence|].
    intros _ post Hin. apply elem_of_nil in Hin. destruct Hin.
  - world. world. cbn.
    set (w1 := {| database := db.SavePost (clock remote (log w))
                                (postOf campaignID post) (database w);
                  log := log w |}).
    specialize (IH w1). cbn zeta in IH.
    destruct IH as (Hlog & Hcs & Hdom & Hframe & Hkeep & Hfresh & Hsum).
    set (w' := snd (savePosts remote campaignID rest w1)) in *.
    destruct (SavePost_row (clock remote (log w)) (postOf campaignID post) (database w))
      as (row & Hrow & Hty & Hpt & Hti & Hurl & Hview & Hpub & _ & Hold).
    change (db.ID (postOf campaignID post)) with (ID post) in *.
    assert (Hother : forall id, id <> ID post ->
              db.posts (database w1) !! id = db.posts (database w) !! id).
    { intros id Hne. unfold w1, db.SavePost. cbn.
      rewrite lookup_insert_ne by congruence. reflexivity. }
    split; [exact Hlog|]. split; [exact Hcs|]. split; [|split; [|split; [|split]]].
    + rewrite Hdom. unfold w1, db.SavePost. cbn. rewrite dom_insert_L.
      rewrite (assoc_L (∪)), (comm_L (∪) (list_to_set (map ID rest)) {[ID post]}).
      reflexivity.
    + intros id Hid. cbn [map] in Hid. apply not_elem_of_cons in Hid as [Hne Hid].
      rewrite (Hframe id Hid). apply Hother, Hne.
    + intros id r Hr. destruct (decide (id = ID post)) as [->|Hne].
      * rewrite Hr in Hold. destruct Hold as (Hc & Hd & Hl & Hf).
        destruct (Hkeep (ID post) row Hrow) as (r' & Hr' & Hd' & Hl' & Hf' & Hc').
        exists r'. split; [exact Hr'|]. repeat split; congruence.
      * apply Hkeep. rewrite Hother by exact Hne. exact Hr.
    + intros id r' Hr' Hn. destruct (decide (id = ID post)) as [->|Hne].
      * rewrite Hn in Hold. destruct Hold as (Hc & Hd & Hl & Hf).
        destruct (Hkeep (ID post) row Hrow) as (r2 & Hr2 & Hd' & Hl' & Hf' & Hc').
        assert (r2 = r') by congruence. subst r2.
        change (db.CampaignID (postOf campaignID post)) with campaignID in Hc.
        repeat split; congruence.
      * apply (Hfresh id r' Hr'). rewrite Hother by exact Hne. exact Hn.
    + intros Hnd post' Hin. cbn [map] in Hnd. apply NoDup_cons in Hnd as [Hnin Hnd].
      apply elem_of_cons in Hin as [->|Hin]; [|apply Hsum; assumption].
      exists row. split; [rewrite (Hframe (ID post) Hnin); exact Hrow|].
      repeat split; assumption.
Qed.

(** X16.  What fetching a page in the browser does to the world.  One
    request for 20 posts of the campaign at the cursor is logged.  When it
    fails, or when the browser has no store, the store is left as it is.
    Otherwise the campaign is saved, with an empty name, and every post of
    the page is saved: the posts table gains exactly the ids of the page,
    no row loses its details or changes its campaign, the rows that are
    new carry the campaign and no details, and, the ids of the page being
    distinct, every post of the page has its summary in its row. *)
Theorem fetchPosts_persists (m : Model) (cursor : string) (w : World) :
  let r := fetchPosts remote m cursor w in
  let d := database w in
  let d' := database (snd r) in
  log (snd r) = log w ++ [EvFetchPosts (campaignID m) 20 cursor] /\
  (forall e, fst r = PostsFetchedMsg [] "" false 0 (Some e) -> d' = d) /\
  (hasDatabase m = false -> d' = d) /\
  (forall ps next more total,
     fst r = PostsFetchedMsg ps next more total None ->
     hasDatabase m = true ->
     (exists t, db.campaigns d' !! campaignID m
                = Some {| db.name := ""; db.campaign_cached_at := t |}) /\
     (forall id, id <> campaignID m -> db.campaigns d' !! id = db.campaigns d !! id) /\
     dom (db.posts d') = list_to_set (map ID ps) ∪ dom (db.posts d) /\
     (forall id, id ∉ map ID ps -> db.GetPost id d' = db.GetPost id d) /\
     (forall id, db.IsPostDetailsCached id d' = db.IsPostDetailsCached id d) /\
     keepsDetails d d' /\
     freshRows (campaignID m) d d' /\
     (NoDup (map ID ps) ->
      forall post, post ∈ ps ->
        exists row, db.posts d' !! ID post = Some row /\ summaryOf post row)).
Proof.
  cbn zeta. unfold fetchPosts. world. world. cbn.
  destruct (api.liftExchange _ _) as [e|page]; cbn.
  - split; [reflexivity|]. split; [reflexivity|]. split; [reflexivity|].
    intros ps next more total H. discriminate H.
  - destruct (hasDatabase m) eqn:Hdb; cbn.
    2:{ split; [reflexivity|]. split; [intros e H; discriminate H|].
        split; [reflexivity|]. intros ps next more total _ H. discriminate H. }
    match goal with
    | |- context [savePosts remote ?c ?ps ?w1] =>
        pose proof (savePosts_effect c ps w1) as Hs;
        destruct (savePosts remote c ps w1) as [u w2]
    end.
    cbn in Hs. destruct Hs as (Hlog & Hcs & Hdom & Hframe & Hkeep & Hfresh & Hsum).
    cbn. split; [exact Hlog|]. split; [intros e H; discriminate H|].
    split; [discriminate|].
    intros ps next more total [= <- _ _ _] _.
    split; [|split; [|split; [|split; [|split; [|split; [|split]]]]]].
    + rewrite Hcs. eexists. apply lookup_insert_eq.
    + intros id Hne. rewrite Hcs. apply lookup_insert_ne. congruence.
    + exact Hdom.
    + intros id Hid. unfold db.GetPost. rewrite (Hframe id Hid). reflexivity.
    + intros id. unfold db.IsPostDetailsCached.
      destruct (db.posts (database w) !! id) as [r|] eqn:Hr.
      * destruct (Hkeep id r Hr) as (r' & -> & _ & _ & Hf & _). exact Hf.
      * destruct (db.posts (database w2) !! id) as [r'|] eqn:Hr'; [|reflexivity].
        apply (Hfresh id r' Hr' Hr).
    + exact Hkeep.
    + exact Hfresh.
    + exact Hsum.
Qed.

(** With distinct ids in the list, the post marked cached is the one
    with the id. *)
Lemma markCached_lookup (ps : list Post) : forall (n : nat) (post : Post),
  NoDup (map ID ps) ->
  ps !! n = Some post ->
  markCached (ID post) ps !! n = Some (setDetailsCached true post).
Proof.
  induction ps as [|p rest IH]; intros n post Hnd Hn; [discriminate|].
  cbn [map] in Hnd. apply NoDup_cons in Hnd as [Hnin Hnd].
  cbn [markCached]. destruct (String.eqb_spec (ID p) (ID post)) as [Heq|Hne].
  - destruct n as [|k]; cbn in *; [congruence|].
    exfalso. apply Hnin. rewrite Heq.
    apply list_elem_of_fmap. exists post. split; [reflexivity|].
    apply list_elem_of_lookup. exists k. exact Hn.
  - destruct n as [|k]; cbn in *; [congruence|]. apply IH; assumption.
Qed.

Lemma Update_details_arrive (m : Model) (w : World) (d : PostDetails) :
  hasDatabase m = true ->
  Update remote inputUpdate m (PostDetailsFetchedMsg (Some d) None) w
  = (Some (set_state stateDetails
             (set_posts (markCached (dID d) (posts m))
                (set_linkCursor 0 (set_postDetails (Some d) m))), CmdNil),
     {| database := db.SavePostDetails (dID d) (dDescription d)
                      (Marshal (dYouTubeLinks d)) (database w);
        log := log w |}).
Proof.
  intros Hdb. unfold Update. world. model_simpl. rewrite Hdb. reflexivity.
Qed.

Lemma Update_escape_details (m : Model) (w : World) :
  state m = stateDetails ->
  Update remote inputUpdate m (KeyMsg "esc") w
  = (Some (set_linkCursor 0
             (set_cachedDetails None
                (set_postDetails None
                   (set_state stateList (set_statusMessage StatusNone m)))), CmdNil),
     w).
Proof.
  intros Hs. unfold Update, globalKeys.
  change (keyIs "esc" ["ctrl+c"; "esc"]) with true. cbn iota.
  unfold isInput. model_simpl. rewrite Hs. world.
  unfold handleDetailsKeys. change (keyIs "esc" ["esc"; "backspace"]) with true.
  reflexivity.
Qed.

Lemma Update_open_cached (m : Model) (w : World) (post : Post) (c : db.CachedPost) :
  state m = stateList ->
  hasDatabase m = true ->
  index (posts m) (cursor m) = Some post ->
  DetailsCached post = true ->
  db.GetPost (ID post) (database w) = Some c ->
  db.DetailsCached c = true ->
  Update remote inputUpdate m (KeyMsg "enter") w
  = (Some (set_state stateDetails
             (set_linkCursor 0
                (set_postDetails
                   (Some {| dID := db.ID c; dTitle := db.Title c; dContent := "";
                            dDescription := db.Description c; dPostType := "";
                            dPublishedAt := 0;
                            dYouTubeLinks :=
                              if negb (String.eqb (db.YouTubeLinks c) "")
                              then fst (Unmarshal (db.YouTubeLinks c)) else [] |})
                   (set_cachedDetails (Some c) (set_statusMessage StatusNone m)))),
           CmdNil), w).
Proof.
  intros Hs Hdb Hi Hcached Hget Hc.
  pose proof (index_Some_len _ _ _ Hi) as Hlen.
  assert (Hpos : (0 <? len (posts m)) = true) by (apply Z.ltb_lt; lia).
  unfold Update, globalKeys.
  change (keyIs "enter" ["ctrl+c"; "esc"]) with false.
  change (keyIs "enter" ["q"]) with false.
  change (keyIs "enter" ["c"; "y"]) with false.
  change (keyIs "enter" ["x"]) with false.
  change (keyIs "enter" ["X"]) with false.
  change (keyIs "enter" ["["]) with false.
  change (keyIs "enter" ["]"]) with false.
  cbn iota. world. model_simpl. rewrite Hs.
  unfold handleListKeys.
  change (keyIs "enter" ["up"; "k"]) with false.
  change (keyIs "enter" ["down"; "j"]) with false.
  change (keyIs "enter" ["enter"]) with true.
  cbn iota. model_simpl. rewrite Hpos, Hi, Hdb, Hcached. cbn [andb].
  world. rewrite Hget, Hc. reflexivity.
Qed.

(** X17.  Details fetched once are shown from the store afterwards.  In a
    browser with a store whose list has distinct ids, when the details of
    the selected post arrive, the post being stored, and the user goes
    back to the list and opens the post again, the Details state shows
    the description and the links that arrived, read back from the store:
    no request is logged, and the store holds the details saved on
    arrival.  The links are those that arrived when the codec reads back
    what it wrote for them. *)
Theorem reopen_from_cache (m : Model) (w : World) (d : PostDetails) (post : Post)
    (row : db.PostRow) :
  hasDatabase m = true ->
  NoDup (map ID (posts m)) ->
  index (posts m) (cursor m) = Some post ->
  ID post = dID d ->
  db.posts (database w) !! dID d = Some row ->
  Marshal (dYouTubeLinks d) <> "" ->
  fst (Unmarshal (Marshal (dYouTubeLinks d))) = dYouTubeLinks d ->
  exists m3,
    run remote inputUpdate
      [PostDetailsFetchedMsg (Some d) None; KeyMsg "esc"; KeyMsg "enter"] m w
    = (Some m3,
       {| database := db.SavePostDetails (dID d) (dDescription d)
                        (Marshal (dYouTubeLinks d)) (database w);
          log := log w |}) /\
    state m3 = stateDetails /\
    postDetails m3
    = Some {| dID := dID d; dTitle := db.title row; dContent := "";
              dDescription := dDescription d; dPostType := "";
              dPublishedAt := 0; dYouTubeLinks := dYouTubeLinks d |} /\
    linkCursor m3 = 0 /\
    index (posts m3) (cursor m3) = Some (setDetailsCached true post) /\
    clipboardLinks m3 = clipboardLinks m.
Proof.
  intros Hdb Hnd Hi Hid Hrow Hne Hcodec.
  assert (Hi1 : index (markCached (dID d) (posts m)) (cursor m)
                = Some (setDetailsCached true post)).
  { unfold index in *. destruct (cursor m <? 0); [discriminate|].
    rewrite <- Hid. apply markCached_lookup; assumption. }
  set (w1 := {| database := db.SavePostDetails (dID d) (dDescription d)
                              (Marshal (dYouTubeLinks d)) (database w);
                log := log w |}).
  set (c := db.scanRow (dID d)
              (db.setDetails (Some (dDescription d))
                 (Some (Marshal (dYouTubeLinks d))) true row)).
  assert (Hget : db.GetPost (ID (setDetailsCached true post)) (database w1) = Some c).
  { change (ID (setDetailsCached true post)) with (ID post). rewrite Hid.
    unfold db.GetPost, w1, db.SavePostDetails. cbn [database db.posts].
    rewrite lookup_alter_eq, Hrow. reflexivity. }
  eexists. split.
  { cbn [run]. unfold env.bind.
    rewrite (Update_details_arrive m w d Hdb). fold w1.
    rewrite Update_escape_details by reflexivity.
    rewrite (Update_open_cached _ w1 (setDetailsCached true post) c);
      [reflexivity|reflexivity|exact Hdb|exact Hi1|reflexivity|exact Hget|reflexivity]. }
  model_simpl. split; [reflexivity|]. split.
  { unfold c. cbn [db.scanRow db.setDetails db.ID db.Title db.title db.Description
      db.description db.YouTubeLinks db.youtube_links default from_option].
    unfold id.
    destruct (String.eqb_spec (Marshal (dYouTubeLinks d)) "") as [E|_]; [contradiction|].
    cbn [negb]. rewrite Hcodec. reflexivity. }
  split; [reflexivity|]. split; [exact Hi1|reflexivity].
Qed.

(** *** Pagination *)

(** What a message does to the pagination state and which page it asks
    for: nothing (and a request, if any, is for the page shown), a fresh
    start at the first page, a step forward or a step backward. *)
Lemma Update_paging (m : Model) (msg : Msg) (w : World) m' cmd w' :
  Update remote inputUpdate m msg w = (Some (m', cmd), w') ->
  (samePaging m m' /\ forall c, cmd = CmdFetchPosts c -> c = pageCursor m) \/
  (currentPage m' = 1 /\ cursorHistory m' = [] /\ cmd = CmdFetchPosts "") \/
  (cursorHistory m'
   = (if currentPage m =? 1 then cursorHistory m ++ [""] else cursorHistory m)
     ++ [nextCursor m] /\
   currentPage m' = wrapInt (currentPage m + 1) /\
   cmd = CmdFetchPosts (nextCursor m)) \/
  (1 < currentPage m /\ 0 < len (cursorHistory m) /\
   currentPage m' = currentPage m - 1 /\
   cursorHistory m' = removelast (cursorHistory m) /\
   cmd = CmdFetchPosts (if 0 <? len (removelast (cursorHistory m))
                        then default "" (last (removelast (cursorHistory m)))
                        else "")).
Proof.
  destruct msg as [key|wd ht|ps next more total e|details e| |]; unfold Update.
  - unfold env.bind.
    destruct (globalKeys remote (set_statusMessage StatusNone m) key w)
      as [[r|] w1] eqn:Hg.
    + unfold env.ret. intros [= -> ->]. revert Hg. unfold globalKeys. world.
      change (isInput (set_statusMessage StatusNone m)) with (isInput m).
      change (inListOrDetails (set_statusMessage StatusNone m)) with (inListOrDetails m).
      model_simpl.
      repeat match goal with
             | |- context [if ?b then _ else _] => destruct b
             | |- context [match removeAt ?l ?i with _ => _ end] => destruct (removeAt l i)
             end; cbn;
        intros H0; try discriminate H0;
        injection H0 as <- <-; left; (split; [split; reflexivity|]);
        intros c0 Hc0; discriminate Hc0.
    + pose proof (globalKeys_effects (set_statusMessage StatusNone m) key w) as (_ & Hw & _).
      rewrite Hg in Hw. cbn [fst snd] in Hw. rewrite (Hw eq_refl).
      change (state (set_statusMessage StatusNone m)) with (state m).
      destruct (state m).
      * destruct (keyIs key ["enter"] && negb (String.eqb (input _) "")).
        -- intros [= <- <- <-]. right. left. repeat split.
        -- intros [= <- <- <-]. left. split; [split; reflexivity|].
           intros c0 Hc0. discriminate Hc0.
      * intros [= <- <- <-]. left. split; [split; reflexivity|].
        intros c0 Hc0. discriminate Hc0.
      * unfold handleListKeys. world. model_simpl.
        destruct (keyIs key ["up"; "k"]).
        { destruct (0 <? cursor m); intros [= <- <- <-]; left;
            (split; [split; reflexivity|]); intros c0 Hc0; discriminate Hc0. }
        destruct (keyIs key ["down"; "j"]).
        { destruct (cursor m <? len (posts m) - 1); intros [= <- <- <-]; left;
            (split; [split; reflexivity|]); intros c0 Hc0; discriminate Hc0. }
        destruct (keyIs key ["enter"]).
        { destruct (0 <? len (posts m));
            [|intros [= <- <- <-]; left; (split; [split; reflexivity|]);
              intros c0 Hc0; discriminate Hc0].
          destruct (index (posts m) (cursor m)) as [post|]; [|intros H0; discriminate H0].
          destruct (hasDatabase m && DetailsCached post); cbn;
            [destruct (db.GetPost (ID post) (database w)) as [c|];
             [destruct (db.DetailsCached c)|]|];
            intros [= <- <- <-]; left; (split; [split; reflexivity|]);
            intros c0 Hc0; discriminate Hc0. }
        destruct (keyIs key ["r"]).
        { intros [= <- <- <-]. left. split; [split; reflexivity|].
          intros c0 [= <-]. reflexivity. }
        destruct (keyIs key ["R"]).
        { intros [= <- <- <-]. right. left. repeat split. }
        destruct (keyIs key ["n"; "l"; "right"]).
        { destruct (hasMorePages m && negb (String.eqb (nextCursor m) ""));
            [|intros [= <- <- <-]; left; (split; [split; reflexivity|]);
              intros c0 Hc0; discriminate Hc0].
          intros [= <- <- <-]. right. right. left.
          destruct (currentPage m =? 1); repeat split. }
        destruct (keyIs key ["p"; "h"; "left"]).
        { destruct (Z.ltb_spec 1 (currentPage m)) as [H1|H1]; cbn [andb];
            [|intros [= <- <- <-]; left; (split; [split; reflexivity|]);
              intros c0 Hc0; discriminate Hc0].
          destruct (Z.ltb_spec 0 (len (cursorHistory m))) as [H2|H2];
            [|intros [= <- <- <-]; left; (split; [split; reflexivity|]);
              intros c0 Hc0; discriminate Hc0].
          intros [= <- <- <-]. right. right. right. repeat split; assumption. }
        destruct (keyIs key ["esc"]); intros [= <- <- <-]; left;
          (split; [split; reflexivity|]); intros c0 Hc0; discriminate Hc0.
      * intros H0.
        assert (Hm : samePaging m m' /\ forall c, cmd <> CmdFetchPosts c).
        { revert H0. unfold handleDetailsKeys. world. model_simpl.
          change (linksOf (set_statusMessage StatusNone m)) with (linksOf m).
          destruct (keyIs key ["esc"; "backspace"]);
            [intros [= <- <- <-]; split; [split; reflexivity|discriminate]|].
          destruct (keyIs key ["R"]).
          { destruct (0 <? len (posts m));
              [|intros [= <- <- <-]; split; [split; reflexivity|discriminate]].
            destruct (index (posts m) (cursor m)) as [post|]; [|intros H0; discriminate H0].
            destruct (hasDatabase m); cbn;
              intros [= <- <- <-]; split; [split; reflexivity|discriminate
                                          |split; reflexivity|discriminate]. }
          destruct (keyIs key ["up"; "k"]).
          { destruct (bool_decide (is_Some (postDetails m)) && (0 <? len (linksOf m))
                      && (0 <? linkCursor m));
              intros [= <- <- <-]; split; [split; reflexivity|discriminate
                                          |split; reflexivity|discriminate]. }
          destruct (keyIs key ["down"; "j"]).
          { destruct (bool_decide (is_Some (postDetails m)) && (0 <? len (linksOf m))
                      && (linkCursor m <? len (linksOf m) - 1));
              intros [= <- <- <-]; split; [split; reflexivity|discriminate
                                          |split; reflexivity|discriminate]. }
          destruct (keyIs key ["a"; "enter"]).
          { destruct (bool_decide (is_Some (postDetails m)) && (0 <? len (linksOf m)));
              [|intros [= <- <- <-]; split; [split; reflexivity|discriminate]].
            destruct (index (linksOf m) (linkCursor m)) as [link|];
              [|intros H0; discriminate H0].
            destruct (contains (clipboardLinks m) link);
              intros [= <- <- <-]; split; [split; reflexivity|discriminate
                                          |split; reflexivity|discriminate]. }
          destruct (keyIs key ["A"]).
          { destruct (bool_decide (is_Some (postDetails m)) && (0 <? len (linksOf m)));
              [|intros [= <- <- <-]; split; [split; reflexivity|discriminate]].
            destruct (fold_left addNew (linksOf m) (clipboardLinks m, 0)) as [clip added].
            destruct (0 <? added);
              intros [= <- <- <-]; split; [split; reflexivity|discriminate
                                          |split; reflexivity|discriminate]. }
          intros [= <- <- <-]; split; [split; reflexivity|discriminate]. }
        destruct Hm as [Hm Hc]. left. split; [exact Hm|].
        intros c0 Hc0. destruct (Hc c0 Hc0).
      * unfold handleErrorKeys. world. model_simpl.
        destruct (keyIs key ["r"]).
        { intros [= <- <- <-]. left. split; [split; reflexivity|].
          intros c0 [= <-]. reflexivity. }
        destruct (keyIs key ["esc"]); intros [= <- <- <-]; left;
          (split; [split; reflexivity|]); intros c0 Hc0; discriminate Hc0.
  - unfold env.ret. intros [= <- <- <-]. left. split; [split; reflexivity|].
    intros c0 Hc0. discriminate Hc0.
  - destruct e as [e|].
    + unfold env.ret. intros [= <- <- <-]. left. split; [split; reflexivity|].
      intros c0 Hc0. discriminate Hc0.
    + world. model_simpl. destruct (hasDatabase m); cbn;
        intros [= <- <- <-]; left; (split; [split; reflexivity|]);
        intros c0 Hc0; discriminate Hc0.
  - destruct e as [e|].
    + unfold env.ret. intros [= <- <- <-]. left. split; [split; reflexivity|].
      intros c0 Hc0. discriminate Hc0.
    + world. model_simpl. destruct details as [d|]; [destruct (hasDatabase m)|]; cbn;
        intros [= <- <- <-]; left; (split; [split; reflexivity|]);
        intros c0 Hc0; discriminate Hc0.
  - unfold env.ret. intros [= <- <- <-]. left. split; [split; reflexivity|].
    intros c0 Hc0. discriminate Hc0.
  - destruct (state m); unfold env.ret; intros [= <- <- <-]; left;
      (split; [split; reflexivity|]); intros c0 Hc0; discriminate Hc0.
Qed.

Lemma paged_pageCursor (m : Model) pre cs :
  cursorHistory m = pre ++ cs ->
  len cs = currentPage m - 1 ->
  (cs <> [] -> pre <> []) ->
  pageCursor m = default "" (last cs).
Proof.
  intros Hh Hlen Hpre. unfold pageCursor. rewrite Hh.
  destruct cs as [|c cs'] using rev_ind.
  - unfold len in Hlen. cbn in Hlen.
    destruct (Z.ltb_spec 1 (currentPage m)); [lia|reflexivity].
  - rewrite len_snoc in Hlen. pose proof (len_nonneg cs').
    destruct (Z.ltb_spec 1 (currentPage m)); [|lia].
    rewrite app_assoc, len_app_pos, !last_snoc. reflexivity.
Qed.

(** The pagination state stays in order, and a request for a page asks
    for the page that is then shown. *)
Lemma Update_paged (m : Model) (msg : Msg) (w : World) m' cmd w' :
  paged m ->
  currentPage m < 2 ^ 63 - 1 ->
  Update remote inputUpdate m msg w = (Some (m', cmd), w') ->
  paged m' /\
  currentPage m' <= currentPage m + 1 /\
  (forall c, cmd = CmdFetchPosts c -> pageCursor m' = c) /\
  ((forall c, cmd <> CmdFetchPosts c) -> pageCursor m' = pageCursor m).
Proof.
  intros (Hpos & pre & cs & Hh & Hpre & Hlen & Hne) Hmax Hu.
  pose proof (paged_pageCursor m pre cs Hh Hlen Hne) as Hpc.
  destruct (Update_paging m msg w m' cmd w' Hu)
    as [[[Hp Hhist] Hc]|[(Hp & Hhist & ->)|[(Hhist & Hp & ->)|(H1 & H2 & Hp & Hhist & ->)]]].
  - assert (Hsame : pageCursor m' = pageCursor m)
      by (unfold pageCursor; rewrite Hp, Hhist; reflexivity).
    split; [|split; [lia|split]].
    + split; [lia|]. exists pre, cs. rewrite Hp, Hhist. auto.
    + intros c ->. rewrite Hsame. symmetry. apply Hc. reflexivity.
    + intros _. exact Hsame.
  - split; [|split; [lia|split]].
    + split; [lia|]. exists [], []. rewrite Hp, Hhist.
      split; [reflexivity|]. split; [constructor|]. split; [reflexivity|congruence].
    + intros c [= <-]. unfold pageCursor. rewrite Hp. reflexivity.
    + intros Hc. destruct (Hc "" eq_refl).
  - rewrite wrapInt_small in Hp by lia.
    assert (Hnew : exists pre' cs',
              cursorHistory m' = pre' ++ cs' ++ [nextCursor m] /\
              Forall (fun c => c = "") pre' /\ pre' <> [] /\
              len cs' = currentPage m - 1).
    { destruct (Z.eqb_spec (currentPage m) 1) as [H1|H1].
      - exists (pre ++ [""]), []. rewrite Hhist, Hh.
        assert (cs = []).
        { destruct cs; [reflexivity|]. rewrite len_cons in Hlen.
          pose proof (len_nonneg cs). lia. }
        subst cs. rewrite app_nil_r. split; [reflexivity|].
        split; [apply Forall_app; split; [exact Hpre|repeat constructor]|].
        split; [destruct pre; discriminate|]. rewrite H1. reflexivity.
      - exists pre, cs. rewrite Hhist, Hh, <- app_assoc.
        split; [reflexivity|]. split; [exact Hpre|]. split; [|exact Hlen].
        apply Hne. intros ->. unfold len in Hlen. cbn in Hlen. lia. }
    destruct Hnew as (pre' & cs' & Hh' & Hpre' & Hne' & Hlen').
    assert (Hpc' : pageCursor m' = nextCursor m).
    { rewrite (paged_pageCursor m' pre' (cs' ++ [nextCursor m]) Hh').
      - rewrite last_snoc. reflexivity.
      - rewrite len_snoc. lia.
      - intros _. exact Hne'. }
    split; [|split; [lia|split]].
    + split; [lia|]. exists pre', (cs' ++ [nextCursor m]).
      split; [exact Hh'|]. split; [exact Hpre'|].
      split; [rewrite len_snoc; lia|]. intros _. exact Hne'.
    + intros c [= <-]. exact Hpc'.
    + intros Hc. destruct (Hc _ eq_refl).
  - assert (Hcs : exists cs0 x, cs = cs0 ++ [x]).
    { destruct cs as [|c cs'] using rev_ind; [unfold len in Hlen; cbn in Hlen; lia|].
      eauto. }
    destruct Hcs as (cs0 & x & ->).
    rewrite len_snoc in Hlen.
    assert (Hpre0 : pre <> []) by (apply Hne; destruct cs0; discriminate).
    assert (Hrem : removelast (cursorHistory m) = pre ++ cs0).
    { rewrite Hh, app_assoc. apply removelast_last. }
    rewrite Hrem in *.
    assert (Hpc' : pageCursor m' = default "" (last cs0)).
    { apply (paged_pageCursor m' pre cs0 Hhist); [lia|]. intros _. exact Hpre0. }
    split; [|split; [lia|split]].
    + split; [lia|]. exists pre, cs0. split; [exact Hhist|]. split; [exact Hpre|].
      split; [lia|]. intros _. exact Hpre0.
    + intros c [= <-]. rewrite Hpc'.
      assert (Hposlen : (0 <? len (pre ++ cs0)) = true).
      { apply Z.ltb_lt. rewrite len_app. pose proof (len_nonneg cs0).
        destruct pre; [congruence|]. rewrite len_cons.
        pose proof (len_nonneg pre). lia. }
      rewrite Hposlen.
      destruct cs0 as [|c0 cs1] using rev_ind.
      * rewrite app_nil_r. cbn [last default].
        destruct pre as [|p0 pre1] using rev_ind; [congruence|].
        rewrite last_snoc. cbn.
        apply Forall_app in Hpre as [_ Hp0]. inversion Hp0; subst. reflexivity.
      * rewrite app_assoc, !last_snoc. reflexivity.
    + intros Hc. destruct (Hc _ eq_refl).
Qed.

Lemma lastRequest_paged (msgs : list Msg) : forall (m : Model) (last : option string)
    (w : World) m' c w',
  paged m ->
  currentPage m + len msgs < 2 ^ 63 - 1 ->
  (forall c0, last = Some c0 -> pageCursor m = c0) ->
  lastRequest remote inputUpdate msgs m last w = (Some (m', Some c), w') ->
  pageCursor m' = c /\ paged m'.
Proof.
  induction msgs as [|msg rest IH]; intros m last w m' c w' Hp Hb Hl; cbn [lastRequest].
  - unfold env.ret. intros [= <- -> <-]. split; [apply Hl; reflexivity|exact Hp].
  - rewrite len_cons in Hb. pose proof (len_nonneg rest) as Hrest.
    unfold env.bind.
    destruct (Update remote inputUpdate m msg w) as [[[m1 cmd]|] w1] eqn:Hu;
      [|unfold env.ret; intros H; discriminate H].
    destruct (Update_paged m msg w m1 cmd w1 Hp ltac:(lia) Hu) as (Hp1 & Hb1 & Hc1 & Hn1).
    destruct cmd as [| | | |cursor|postID];
      try (apply IH; [exact Hp1|lia|];
           intros c0 Hc0; rewrite Hn1 by discriminate; apply Hl, Hc0).
    apply IH; [exact Hp1|lia|]. intros c0 [= <-]. apply Hc1. reflexivity.
Qed.

(** X18.  Refreshing reloads the page that is shown.  After any session
    of the browser from its start, the cursor of the last page request
    that [Update] handed back is the cursor of the page the pagination
    state stands for: the page number is at least 1, the state is in
    order, and the keys [r] of the List state and of the Error state ask
    for that very page again. *)
Theorem refresh_reloads_page (msgs : list Msg) (withDatabase : bool) (w : World)
    (m : Model) (c : string) (w' : World) :
  len msgs < 2 ^ 62 ->
  lastRequest remote inputUpdate msgs (NewModel withDatabase) None w
  = (Some (m, Some c), w') ->
  pageCursor m = c /\
  paged m /\
  (state m = stateList \/ state m = stateError ->
   exists m1, Update remote inputUpdate m (KeyMsg "r") w'
              = (Some (m1, CmdFetchPosts c), w') /\
              samePaging m m1).
Proof.
  intros Hlen Hrun.
  assert (Hnew : paged (NewModel withDatabase)).
  { split; [cbn; lia|]. exists [], []. cbn.
    split; [reflexivity|]. split; [constructor|]. split; [reflexivity|congruence]. }
  destruct (lastRequest_paged msgs (NewModel withDatabase) None w m c w' Hnew)
    as [Hc Hp]; [cbn [currentPage NewModel]; lia|discriminate|exact Hrun|].
  split; [exact Hc|]. split; [exact Hp|].
  intros Hs. unfold Update, globalKeys.
  change (keyIs "r" ["ctrl+c"; "esc"]) with false.
  change (keyIs "r" ["q"]) with false.
  change (keyIs "r" ["c"; "y"]) with false.
  change (keyIs "r" ["x"]) with false.
  change (keyIs "r" ["X"]) with false.
  change (keyIs "r" ["["]) with false.
  change (keyIs "r" ["]"]) with false.
  cbn iota. world. model_simpl.
  destruct Hs as [Hs|Hs]; rewrite Hs.
  - unfold handleListKeys.
    change (keyIs "r" ["up"; "k"]) with false.
    change (keyIs "r" ["down"; "j"]) with false.
    change (keyIs "r" ["enter"]) with false.
    change (keyIs "r" ["r"]) with true.
    cbn iota. eexists.
    split; [unfold env.ret; rewrite <- Hc; reflexivity|split; reflexivity].
  - unfold handleErrorKeys. change (keyIs "r" ["r"]) with true.
    cbn iota. eexists.
    split; [unfold env.ret; rewrite <- Hc; reflexivity|split; reflexivity].
Qed.

End BrowserExtras.

(** ** The windows of the views *)

Section ViewExtras.
Import models ui view.

Lemma wrapInt_id z : - 2 ^ 63 <= z < 2 ^ 63 -> wrapInt z = z.
Proof.
  intros Hz. unfold wrapInt. rewrite Z.mod_small by lia. lia.
Qed.

Lemma wrapInt_range z : - 2 ^ 63 <= wrapInt z < 2 ^ 63.
Proof.
  unfold wrapInt. pose proof (Z.mod_pos_bound (z + 2 ^ 63) (2 ^ 64) ltac:(lia)). lia.
Qed.

Lemma readRows_segment {A : Type} (l : list A) (count : nat) : forall start,
  0 <= start -> start + Z.of_nat count <= len l ->
  readRows l start count = Some (take count (drop (Z.to_nat start) l)).
Proof.
  induction count as [|k IH]; intros start H0 Hend; cbn [readRows]; [reflexivity|].
  destruct (index_is_Some l start) as [x Hx]; [lia|]. rewrite Hx.
  rewrite IH by lia. cbn [option_map]. f_equal.
  unfold index in Hx. destruct (start <? 0); [discriminate|].
  replace (Z.to_nat (start + 1)) with (S (Z.to_nat start)) by lia.
  rewrite (drop_S l x (Z.to_nat start) Hx). reflexivity.
Qed.

Lemma segment_holds {A : Type} (l : list A) (start end_ i : Z) (x : A) :
  0 <= start <= i -> i < end_ ->
  index l i = Some x ->
  x ∈ take (Z.to_nat (end_ - start)) (drop (Z.to_nat start) l).
Proof.
  intros Hs He Hx. unfold index in Hx. destruct (i <? 0); [discriminate|].
  apply list_elem_of_lookup. exists (Z.to_nat (i - start)).
  rewrite lookup_take, decide_True by lia. rewrite lookup_drop.
  replace (Z.to_nat start + Z.to_nat (i - start))%nat with (Z.to_nat i) by lia.
  exact Hx.
Qed.

(** The window of a list of [n] elements around the cursor [c], for a
    number of rows [v] between 1 and [n]. *)
Lemma window_bounds (n c v : Z) :
  0 <= c < n -> n < 2 ^ 63 -> 1 <= v <= n ->
  let start := if v <=? c then wrapInt (wrapInt (c - v) + 1) else 0 in
  let end0 := wrapInt (start + v) in
  let end_ := if n <? end0 then n else end0 in
  0 <= start /\ start <= c /\ c < end_ /\ end_ <= n /\ end_ - start <= v.
Proof.
  intros Hc Hn Hv. cbn zeta.
  destruct (Z.leb_spec v c) as [Hvc|Hvc].
  - rewrite (wrapInt_id (c - v)) by lia. rewrite (wrapInt_id (c - v + 1)) by lia.
    rewrite (wrapInt_id (c - v + 1 + v)) by lia.
    destruct (Z.ltb_spec n (c - v + 1 + v)); lia.
  - rewrite (wrapInt_id (0 + v)) by lia.
    destruct (Z.ltb_spec n (0 + v)); lia.
Qed.

(** X20.  The views read their lists within bounds.  In a state that has
    the invariant of the browser (cursors in range), with a height that
    is an [int] and lists whose lengths are, [viewList] reads the posts
    of a window [[start, end)] of the list and the selected post, and
    [renderClipboardPanel] the links of a window of the clipboard: no
    index is out of range, the windows lie within the lists, and the
    element under the cursor is among the rows rendered. *)
Theorem views_read_in_bounds (m : Model) (panelHeight : Z) :
  wellFormed m ->
  len (posts m) < 2 ^ 63 ->
  len (clipboardLinks m) < 2 ^ 63 ->
  (let '(start, end_) := listWindow m in
   viewListPosts m
   = Some (take (Z.to_nat (end_ - start)) (drop (Z.to_nat start) (posts m)),
           index (posts m) (cursor m)) /\
   (posts m = [] -> viewListPosts m = Some ([], None)) /\
   (posts m <> [] ->
    0 <= start <= cursor m /\ cursor m < end_ <= len (posts m) /\
    exists selected, index (posts m) (cursor m) = Some selected /\
      selected ∈ take (Z.to_nat (end_ - start)) (drop (Z.to_nat start) (posts m)))) /\
  (let '(start, end_) := clipboardWindow m panelHeight in
   (clipboardLinks m = [] -> clipboardPanelLinks m panelHeight = Some []) /\
   (clipboardLinks m <> [] ->
    clipboardPanelLinks m panelHeight
    = Some (take (Z.to_nat (end_ - start)) (drop (Z.to_nat start) (clipboardLinks m))) /\
    0 <= start <= clipboardCursor m /\
    clipboardCursor m < end_ <= len (clipboardLinks m) /\
    exists link, index (clipboardLinks m) (clipboardCursor m) = Some link /\
      link ∈ take (Z.to_nat (end_ - start)) (drop (Z.to_nat start) (clipboardLinks m)))).
Proof.
  intros (_ & Hcc & Hpc & _) Hn Hk. unfold inRange in *.
  pose proof (len_nonneg (posts m)) as Hn0.
  pose proof (len_nonneg (clipboardLinks m)) as Hk0.
  split.
  - assert (Hcase : posts m = [] \/ 0 < len (posts m)).
    { destruct (posts m) as [|p ps]; [left; reflexivity|right].
      rewrite len_cons. pose proof (len_nonneg ps). lia. }
    unfold viewListPosts, listWindow.
    destruct Hcase as [E|Hpos].
    + rewrite E in *. change (len (@nil Post)) with 0 in *.
      assert (Hc0 : cursor m = 0) by lia. rewrite Hc0.
      set (v0 := wrapInt (height m - 12)).
      pose proof (wrapInt_range (height m - 12)) as Hv0. fold v0 in Hv0.
      set (v1 := if v0 <? 5 then 5 else v0).
      assert (Hv1 : 5 <= v1 < 2 ^ 63) by (unfold v1; destruct (Z.ltb_spec v0 5); lia).
      assert (Hv : (if 0 <? v1 then 0 else v1) = 0) by (destruct (Z.ltb_spec 0 v1); lia).
      rewrite Hv. cbn [Z.leb Z.compare]. rewrite (wrapInt_id (0 - 0)) by lia.
      rewrite (wrapInt_id (0 - 0 + 1)) by lia. rewrite (wrapInt_id (0 - 0 + 1 + 0)) by lia.
      cbn. split; [reflexivity|]. split; [reflexivity|congruence].
    + set (v0 := wrapInt (height m - 12)).
      pose proof (wrapInt_range (height m - 12)) as Hv0. fold v0 in Hv0.
      set (v1 := if v0 <? 5 then 5 else v0).
      assert (Hv1 : 5 <= v1 < 2 ^ 63) by (unfold v1; destruct (Z.ltb_spec v0 5); lia).
      set (v := if len (posts m) <? v1 then len (posts m) else v1).
      assert (Hc : 0 <= cursor m < len (posts m)) by lia.
      assert (Hv : 1 <= v <= len (posts m))
        by (unfold v; destruct (Z.ltb_spec (len (posts m)) v1); lia).
      pose proof (window_bounds (len (posts m)) (cursor m) v Hc Hn Hv) as Hw.
      cbn zeta in Hw.
      set (start := if v <=? cursor m then wrapInt (wrapInt (cursor m - v) + 1) else 0) in *.
      set (end_ := if len (posts m) <? wrapInt (start + v)
                   then len (posts m) else wrapInt (start + v)) in *.
      destruct Hw as (H0 & Hsc & Hce & Hen & _).
      destruct (index_is_Some (posts m) (cursor m) Hc) as [selected Hsel].
      unfold loopRows. rewrite readRows_segment by lia.
      assert (Hlt : (0 <? len (posts m)) = true) by (apply Z.ltb_lt; lia).
      rewrite Hlt, Hsel.
      split; [reflexivity|].
      split; [intros E; rewrite E in Hpos; unfold len in Hpos; cbn in Hpos; lia|].
      intros _. split; [lia|]. split; [lia|].
      exists selected. split; [reflexivity|].
      apply (segment_holds _ start end_ (cursor m)); [lia|lia|exact Hsel].
  - assert (Hcase : clipboardLinks m = [] \/ 0 < len (clipboardLinks m)).
    { destruct (clipboardLinks m) as [|l ls]; [left; reflexivity|right].
      rewrite len_cons. pose proof (len_nonneg ls). lia. }
    unfold clipboardPanelLinks, clipboardWindow.
    destruct Hcase as [E|Hpos].
    + rewrite E. change (len (@nil string)) with 0. cbn [Z.eqb]. lazy beta iota zeta.
      split; [reflexivity|congruence].
    + set (v0 := wrapInt (panelHeight - 6)).
      pose proof (wrapInt_range (panelHeight - 6)) as Hv0. fold v0 in Hv0.
      set (v1 := if v0 <? 3 then 3 else v0).
      assert (Hv1 : 3 <= v1 < 2 ^ 63) by (unfold v1; destruct (Z.ltb_spec v0 3); lia).
      assert (Hc : 0 <= clipboardCursor m < len (clipboardLinks m)) by lia.
      assert (Hne : (len (clipboardLinks m) =? 0) = false) by (apply Z.eqb_neq; lia).
      rewrite Hne.
      set (start := if v1 <=? clipboardCursor m
                    then wrapInt (wrapInt (clipboardCursor m - v1) + 1) else 0).
      assert (Hstart : 0 <= start <= clipboardCursor m /\
                       (v1 <= clipboardCursor m -> start + v1 = clipboardCursor m + 1) /\
                       (clipboardCursor m < v1 -> start = 0)).
      { unfold start. destruct (Z.leb_spec v1 (clipboardCursor m)).
        - rewrite (wrapInt_id (clipboardCursor m - v1)) by lia.
          rewrite (wrapInt_id (clipboardCursor m - v1 + 1)) by lia. lia.
        - lia. }
      destruct Hstart as (Hs0 & Hs1 & Hs2).
      assert (Hsum : wrapInt (start + v1) = start + v1).
      { apply wrapInt_id. destruct (Z.leb_spec v1 (clipboardCursor m)); lia. }
      rewrite Hsum.
      set (end_ := if len (clipboardLinks m) <? start + v1
                   then len (clipboardLinks m) else start + v1).
      assert (He : clipboardCursor m < end_ <= len (clipboardLinks m)).
      { unfold end_. destruct (Z.ltb_spec (len (clipboardLinks m)) (start + v1));
          destruct (Z.leb_spec v1 (clipboardCursor m)); lia. }
      destruct (index_is_Some (clipboardLinks m) (clipboardCursor m) Hc) as [link Hlink].
      split; [intros E; rewrite E in Hpos; unfold len in Hpos; cbn in Hpos; lia|].
      intros _. unfold loopRows. rewrite readRows_segment by lia.
      split; [reflexivity|]. split; [lia|]. split; [lia|].
      exists link. split; [exact Hlink|].
      apply (segment_holds _ start end_ (clipboardCursor m)); [lia|lia|exact Hlink].
Qed.

End ViewExtras.

Lemma views_read_in_bounds_witness :
  let posts := map (fun k => models.FromPostData (samplePostData "p" k)) [1; 2; 3; 4; 5; 6; 7] in
  let m := ui.set_clipboardCursor 4
             (ui.set_clipboardLinks ["a"; "b"; "c"; "d"; "e"]
                (ui.set_height 10
                   (ui.set_cursor 6 (ui.set_posts posts (ui.NewModel true))))) in
  wellFormed m /\
  view.listWindow m = (2, 7) /\
  view.clipboardWindow m 8 = (2, 5) /\
  (exists rows selected,
     view.viewListPosts m = Some (rows, Some selected) /\ selected ∈ rows) /\
  exists links, view.clipboardPanelLinks m 8 = Some links /\ "e" ∈ links.
Proof.
  intros posts m.
  assert (Hwf : wellFormed m).
  { unfold wellFormed, inRange. cbn.
    split; [apply (bool_decide_unpack _); vm_compute; exact I|].
    unfold ui.len. cbn. repeat split; lia. }
  assert (Hn : ui.len (ui.posts m) < 2 ^ 63) by (vm_compute; reflexivity).
  assert (Hk : ui.len (ui.clipboardLinks m) < 2 ^ 63) by (vm_compute; reflexivity).
  split; [exact Hwf|]. split; [vm_compute; reflexivity|]. split; [vm_compute; reflexivity|].
  pose proof (views_read_in_bounds m 8 Hwf Hn Hk) as [Hlist Hclip].
  replace (view.listWindow m) with (2, 7) in Hlist by (vm_compute; reflexivity).
  replace (view.clipboardWindow m 8) with (2, 5) in Hclip by (vm_compute; reflexivity).
  destruct Hlist as (Hrows & _ & Hsel).
  destruct Hsel as (_ & _ & selected & Hi & Hin); [discriminate|].
  destruct Hclip as (_ & Hlinks).
  destruct Hlinks as (Hl & _ & _ & link & Hli & Hlin); [discriminate|].
  split.
  - eexists _, selected. rewrite Hrows, Hi. split; [reflexivity|exact Hin].
  - eexists. split; [exact Hl|].
    assert (link = "e") by (vm_compute in Hli; congruence). subst link. exact Hlin.
Defined.

Lemma reopen_from_cache_witness :
  let m := browsing ui.stateLoading in
  let d :=
    {| models.dID := "p1"; models.dTitle := "first"; models.dContent := "<p>Hi</p>";
       models.dDescription := "Hi"; models.dPostType := "";
       models.dPublishedAt := 0;
       models.dYouTubeLinks := ["https://www.youtube.com/watch?v=aaaaaaaaaaa"] |} in
  exists m3 w3,
    @ui.run json.reference unreachable (fun v _ => v)
      [ui.PostDetailsFetchedMsg (Some d) None; ui.KeyMsg "esc"; ui.KeyMsg "enter"]
      m storedWorld
    = (Some m3, w3) /\
    env.log w3 = [] /\
    ui.state m3 = ui.stateDetails /\
    (models.dDescription <$> ui.postDetails m3) = Some "Hi" /\
    (models.dYouTubeLinks <$> ui.postDetails m3)
    = Some ["https://www.youtube.com/watch?v=aaaaaaaaaaa"].
Proof.
  intros m d.
  assert (Hrow : exists row, db.posts (env.database storedWorld) !! "p1" = Some row)
    by (vm_compute; eexists; reflexivity).
  destruct Hrow as [row Hrow].
  assert (Hnd : NoDup (map models.ID (ui.posts m)))
    by (cbn; repeat constructor; intros H; inversion H).
  assert (Hne : @Marshal json.reference (models.dYouTubeLinks d) <> "")
    by (vm_compute; discriminate).
  assert (Hcodec : fst (@Unmarshal json.reference
                          (@Marshal json.reference (models.dYouTubeLinks d)))
                   = models.dYouTubeLinks d) by (vm_compute; reflexivity).
  destruct (@reopen_from_cache json.reference unreachable (fun v _ => v) m storedWorld d
              (ui.setDetailsCached true (models.FromPostData (samplePostData "p1" 5)))
              row eq_refl Hnd eq_refl eq_refl Hrow Hne Hcodec)
    as (m3 & Hrun & Hs & Hd & _).
  exists m3. eexists. split; [exact Hrun|]. split; [reflexivity|].
  split; [exact Hs|]. rewrite Hd. split; reflexivity.
Defined.

(** A session: a campaign is entered, its first page arrives, the user
    goes forward, the second page arrives, and a post is opened. *)
Lemma refresh_reloads_page_witness :
  let typed := fun (v key : string) => v +:+ key in
  let msgs :=
    [ui.KeyMsg "7"; ui.KeyMsg "enter";
     ui.PostsFetchedMsg [models.FromPostData (samplePostData "p1" 5)] "c2" true 0 None;
     ui.KeyMsg "n";
     ui.PostsFetchedMsg [models.FromPostData (samplePostData "p2" 4)] "c3" true 0 None;
     ui.KeyMsg "down"; ui.KeyMsg "x"] in
  exists m w',
    @lastRequest json.reference unreachable typed msgs (ui.NewModel true) None emptyWorld
    = (Some (m, Some "c2"), w') /\
    ui.pageCursor m = "c2" /\ paged m.
Proof.
  intros typed msgs.
  destruct (@lastRequest json.reference unreachable typed msgs (ui.NewModel true) None
              emptyWorld) as [[[m [c|]]|] w'] eqn:Hrun;
    [|vm_compute in Hrun; discriminate Hrun|vm_compute in Hrun; discriminate Hrun].
  assert (Hc : c = "c2").
  { pose proof Hrun as H. vm_compute in H. injection H as _ Hc _. symmetry. exact Hc. }
  subst c. exists m, w'. split; [reflexivity|].
  assert (Hlen : ui.len msgs < 2 ^ 62) by (vm_compute; reflexivity).
  destruct (@refresh_reloads_page json.reference unreachable typed msgs true emptyWorld
              m "c2" w' Hlen Hrun) as (Hpc & Hp & _).
  split; [exact Hpc|exact Hp].
Defined.
